(** * update-btc: a shallow embedding of [update-btc.py]

    The updater is a sequential Python script.  Its functions are embedded
    here as Rocq functions over

    - Python [str] and [bytes] values as [string] (one [ascii] per byte;
      manifests, version banners and paths are ASCII in practice);
    - the filesystem as a finite map from normalised path strings to
      nodes (regular file, directory, symbolic link);
    - everything outside the script (remote servers, the programs it
      runs, the [tarfile] reader, [gpg]) as an environment record of
      functions, so that a scenario is a concrete environment plus a
      concrete filesystem;
    - Python exceptions as values of type [exn], threaded with the state
      through a small state-and-exception monad.

    Library routines the script relies on ([hashlib.sha256],
    [os.path.normpath], [os.path.splitext], [str.splitlines],
    [str.format], the regular expressions) are written out as
    executable definitions. *)

From Stdlib Require Import Ascii String NArith ZArith Lia Bool List.
From stdpp Require Import gmap strings list.

Local Open Scope N_scope.

(** ** Characters and strings *)

Definition code (c : ascii) : N := N_of_ascii c.

Definition chr (n : N) : ascii := ascii_of_N n.

Definition in_range (lo hi : N) (c : ascii) : bool :=
  (lo <=? code c) && (code c <=? hi).

Definition is_digit (c : ascii) : bool := in_range 48 57 c.

Definition is_hex (c : ascii) : bool :=
  in_range 48 57 c || in_range 97 102 c || in_range 65 70 c.

(** [str.lower] on the ASCII range. *)
Definition lower_char (c : ascii) : ascii :=
  if in_range 65 90 c then chr (code c + 32) else c.

Fixpoint lower (s : string) : string :=
  match s with
  | EmptyString => EmptyString
  | String c s' => String (lower_char c) (lower s')
  end.

Fixpoint forallb_str (p : ascii -> bool) (s : string) : bool :=
  match s with
  | EmptyString => true
  | String c s' => p c && forallb_str p s'
  end.

(** [s.count(c)] for a one-character needle. *)
Fixpoint count_char (c : ascii) (s : string) : nat :=
  match s with
  | EmptyString => O
  | String d s' => (if Ascii.eqb c d then 1 else 0)%nat + count_char c s'
  end.

Fixpoint take (n : nat) (s : string) : string :=
  match n, s with
  | S n', String c s' => String c (take n' s')
  | _, _ => EmptyString
  end.

Fixpoint drop_str (n : nat) (s : string) : string :=
  match n, s with
  | S n', String _ s' => drop_str n' s'
  | _, _ => s
  end.

(** [s.startswith(p)] and [s.endswith(p)]. *)
Fixpoint startswith (p s : string) : bool :=
  match p, s with
  | EmptyString, _ => true
  | String a p', String b s' => Ascii.eqb a b && startswith p' s'
  | String _ _, EmptyString => false
  end.

Definition endswith (p s : string) : bool :=
  (String.length p <=? String.length s)%nat
  && String.eqb (drop_str (String.length s - String.length p) s) p.

(** ** SHA-256 ([hashlib.sha256(data).hexdigest()])

    FIPS 180-4 on 32-bit words held in [N]; every addition is reduced
    modulo 2^32 explicitly. *)

Module SHA256.

Definition mask32 : N := 0xFFFFFFFF.

Definition w32 (x : N) : N := N.land x mask32.

Definition add32 (a b : N) : N := w32 (a + b).

Definition rotr (n x : N) : N :=
  N.lor (N.shiftr x n) (w32 (N.shiftl x (32 - n))).

Definition not32 (x : N) : N := N.lxor x mask32.

Definition Ch (x y z : N) : N := N.lxor (N.land x y) (N.land (not32 x) z).

Definition Maj (x y z : N) : N :=
  N.lxor (N.lxor (N.land x y) (N.land x z)) (N.land y z).

Definition bsig0 (x : N) : N := N.lxor (N.lxor (rotr 2 x) (rotr 13 x)) (rotr 22 x).

Definition bsig1 (x : N) : N := N.lxor (N.lxor (rotr 6 x) (rotr 11 x)) (rotr 25 x).

Definition ssig0 (x : N) : N := N.lxor (N.lxor (rotr 7 x) (rotr 18 x)) (N.shiftr x 3).

Definition ssig1 (x : N) : N := N.lxor (N.lxor (rotr 17 x) (rotr 19 x)) (N.shiftr x 10).

(** The round constants and the initial chaining value are defined by
    FIPS 180-4 from the first 64 primes: the first 32 bits of the
    fractional parts of their cube roots, and of the square roots of the
    first eight. *)
Definition is_prime (n : nat) : bool :=
  (1 <? n)%nat
  && forallb (fun d => negb (n mod d =? 0)%nat) (seq 2 (n - 2)).

Definition primes : list N :=
  List.map N.of_nat (List.filter is_prime (seq 2 310)).

(** The integer [k]-th root of [x] below [2 ^ bits], found bit by bit. *)
Fixpoint root_below (k x : N) (bits : nat) (r : N) : N :=
  match bits with
  | O => r
  | S bits' =>
      let c := r + 2 ^ N.of_nat bits' in
      root_below k x bits' (if c ^ k <=? x then c else r)
  end.

Definition frac_root (k p : N) : N :=
  w32 (root_below k (p * 2 ^ (32 * k)) 40 0).

Definition K : list N := Eval vm_compute in List.map (frac_root 3) primes.

(** The eight chaining words. *)
Record state := State {
  ha : N; hb : N; hc : N; hd : N; he : N; hf : N; hg : N; hh : N }.

Definition H0 : state := Eval vm_compute in
  let h i := frac_root 2 (nth i primes 0) in
  State (h 0%nat) (h 1%nat) (h 2%nat) (h 3%nat) (h 4%nat) (h 5%nat) (h 6%nat) (h 7%nat).

(** Padding: a [0x80] byte, zero bytes up to 56 modulo 64, then the bit
    length as a 64-bit big-endian integer. *)
Fixpoint be_bytes (n : nat) (x : N) : list N :=
  match n with
  | O => []
  | S n' => N.land (N.shiftr x (8 * N.of_nat n')) 0xFF :: be_bytes n' x
  end.

Definition pad (msg : list N) : list N :=
  let len := N.of_nat (List.length msg) in
  let zeros := N.to_nat ((119 - len mod 64) mod 64) in
  msg ++ 0x80 :: repeat 0 zeros ++ be_bytes 8 (8 * len).

Definition be_word (b0 b1 b2 b3 : N) : N :=
  N.lor (N.shiftl b0 24) (N.lor (N.shiftl b1 16) (N.lor (N.shiftl b2 8) b3)).

Fixpoint to_words (bs : list N) : list N :=
  match bs with
  | b0 :: b1 :: b2 :: b3 :: rest => be_word b0 b1 b2 b3 :: to_words rest
  | _ => []
  end.

(** The message schedule, most recent word first while it is built. *)
Fixpoint extend (n : nat) (rev_w : list N) : list N :=
  match n with
  | O => rev_w
  | S n' =>
      let at_ i := nth i rev_w 0 in
      let w := add32 (add32 (ssig1 (at_ 1%nat)) (at_ 6%nat))
                     (add32 (ssig0 (at_ 14%nat)) (at_ 15%nat)) in
      extend n' (w :: rev_w)
  end.

Definition schedule (block : list N) : list N :=
  List.rev (extend 48 (List.rev block)).

Definition round (s : state) (kw : N * N) : state :=
  let t1 := add32 (add32 (add32 (hh s) (bsig1 (he s)))
                         (add32 (Ch (he s) (hf s) (hg s)) (fst kw))) (snd kw) in
  let t2 := add32 (bsig0 (ha s)) (Maj (ha s) (hb s) (hc s)) in
  State (add32 t1 t2) (ha s) (hb s) (hc s) (add32 (hd s) t1) (he s) (hf s) (hg s).

Definition compress (s : state) (block : list N) : state :=
  let r := fold_left round (combine K (schedule block)) s in
  State (add32 (ha s) (ha r)) (add32 (hb s) (hb r)) (add32 (hc s) (hc r))
        (add32 (hd s) (hd r)) (add32 (he s) (he r)) (add32 (hf s) (hf r))
        (add32 (hg s) (hg r)) (add32 (hh s) (hh r)).

Fixpoint blocks (fuel : nat) (ws : list N) : list (list N) :=
  match fuel, ws with
  | S fuel', _ :: _ => firstn 16 ws :: blocks fuel' (skipn 16 ws)
  | _, _ => []
  end.

Definition digest_state (msg : list N) : state :=
  let ws := to_words (pad msg) in
  fold_left compress (blocks (List.length ws) ws) H0.

Definition hex_digit (n : N) : ascii :=
  if n <? 10 then chr (48 + n) else chr (87 + n).

Definition nibble (i : N) (w : N) : ascii :=
  hex_digit (N.land (N.shiftr w (4 * i)) 0xF).

Definition hex_word (w : N) (tail : string) : string :=
  String (nibble 7 w) (String (nibble 6 w) (String (nibble 5 w)
  (String (nibble 4 w) (String (nibble 3 w) (String (nibble 2 w)
  (String (nibble 1 w) (String (nibble 0 w) tail))))))).

Definition hex_state (s : state) : string :=
  hex_word (ha s) (hex_word (hb s) (hex_word (hc s) (hex_word (hd s)
  (hex_word (he s) (hex_word (hf s) (hex_word (hg s) (hex_word (hh s) ""))))))).

Fixpoint bytes_of (s : string) : list N :=
  match s with
  | EmptyString => []
  | String c s' => code c :: bytes_of s'
  end.

Definition hexdigest (data : string) : string :=
  hex_state (digest_state (bytes_of data)).

End SHA256.

(** ** Regular expressions ([re.match])

    A backtracking matcher for the constructs the script's patterns use.
    The continuation receives the unread input and the groups captured so
    far, so alternatives are tried in the priority order of Python's [re]:
    a greedy repetition first takes as much as it can and gives characters
    back one at a time. *)

Inductive regex : Type :=
| Lit (s : string)                    (* the characters of [s] *)
| Star (p : ascii -> bool)            (* [p*], greedy, over one character class *)
| Plus (p : ascii -> bool)            (* [p+], greedy *)
| Rep (n : nat) (p : ascii -> bool)   (* [p{n}] *)
| Opt (r : regex)                     (* [(?:r)?] *)
| Grp (r : regex)                     (* [(r)], a capturing group *)
| Cat (r1 r2 : regex)
| Eos.                                (* [$] without MULTILINE *)

Definition newline : ascii := chr 10.

Definition not_newline (c : ascii) : bool := negb (Ascii.eqb c newline).

Definition is_space (c : ascii) : bool := Ascii.eqb c " ".

Definition digit_or_dot (c : ascii) : bool := is_digit c || Ascii.eqb c ".".

Definition match_result : Type := option (string * list string).

Definition cont : Type := string -> list string -> match_result.

Fixpoint strip_prefix (p s : string) : option string :=
  match p, s with
  | EmptyString, _ => Some s
  | String a p', String b s' => if Ascii.eqb a b then strip_prefix p' s' else None
  | String _ _, EmptyString => None
  end.

Fixpoint strip_class (n : nat) (p : ascii -> bool) (s : string) : option string :=
  match n, s with
  | O, _ => Some s
  | S n', String c s' => if p c then strip_class n' p s' else None
  | S _, EmptyString => None
  end.

Fixpoint star (p : ascii -> bool) (s : string) (caps : list string) (k : cont)
  : match_result :=
  match s with
  | String c s' =>
      if p c then
        match star p s' caps k with
        | Some r => Some r
        | None => k s caps
        end
      else k s caps
  | EmptyString => k s caps
  end.

(** The text read between input [s] and its suffix [s']. *)
Definition consumed (s s' : string) : string :=
  take (String.length s - String.length s') s.

Fixpoint run (r : regex) (s : string) (caps : list string) (k : cont)
  : match_result :=
  match r with
  | Lit l =>
      match strip_prefix l s with
      | Some s' => k s' caps
      | None => None
      end
  | Star p => star p s caps k
  | Plus p =>
      match s with
      | String c s' => if p c then star p s' caps k else None
      | EmptyString => None
      end
  | Rep n p =>
      match strip_class n p s with
      | Some s' => k s' caps
      | None => None
      end
  | Opt r' =>
      match run r' s caps k with
      | Some x => Some x
      | None => k s caps
      end
  | Grp r' => run r' s caps (fun s' caps' => k s' (caps' ++ [consumed s s']))
  | Cat r1 r2 => run r1 s caps (fun s' caps' => run r2 s' caps' k)
  | Eos =>
      match s with
      | EmptyString => k s caps
      | String c EmptyString => if Ascii.eqb c newline then k s caps else None
      | _ => None
      end
  end.

(** [re.match(r, s)]: the pattern must match at the start of [s]; the
    result is the unread rest and the groups, group 1 first. *)
Definition re_match (r : regex) (s : string) : match_result :=
  run r s [] (fun s' caps => Some (s', caps)).

Definition group (n : nat) (m : string * list string) : string :=
  nth (n - 1) (snd m) EmptyString.

(** ** Paths and text ([os.path], [str]) *)

Definition slash : ascii := "/".

(** [s.split(sep)] for a one-character separator. *)
Fixpoint split_on (sep : ascii) (s : string) : list string :=
  match s with
  | EmptyString => [EmptyString]
  | String c s' =>
      if Ascii.eqb c sep then EmptyString :: split_on sep s'
      else match split_on sep s' with
           | h :: t => String c h :: t
           | [] => [String c EmptyString]
           end
  end.

(** [sep.join(parts)]. *)
Fixpoint join (sep : string) (parts : list string) : string :=
  match parts with
  | [] => EmptyString
  | [x] => x
  | x :: rest => x +:+ sep +:+ join sep rest
  end.

(** The component stack of [posixpath.normpath], top first. *)
Fixpoint norm_comps (rooted : bool) (comps : list string) (stack : list string)
  : list string :=
  match comps with
  | [] => stack
  | comp :: rest =>
      if String.eqb comp "" || String.eqb comp "." then norm_comps rooted rest stack
      else if negb (String.eqb comp "..")
              || (negb rooted && match stack with [] => true | _ => false end)
              || match stack with top :: _ => String.eqb top ".." | [] => false end
      then norm_comps rooted rest (comp :: stack)
      else norm_comps rooted rest (List.tl stack)
  end.

Definition normpath (path : string) : string :=
  if String.eqb path "" then "."
  else
    let initial_slashes :=
      if startswith "/" path then
        if startswith "//" path && negb (startswith "///" path) then "//" else "/"
      else "" in
    let comps :=
      List.rev (norm_comps (startswith "/" path) (split_on slash path) []) in
    let p := initial_slashes +:+ join "/" comps in
    if String.eqb p "" then "." else p.

(** Index just past the last [c] in [s] (0 when there is none): Python's
    [s.rfind(c) + 1]. *)
Fixpoint after_last (c : ascii) (s : string) : nat :=
  match s with
  | EmptyString => O
  | String d s' =>
      match after_last c s' with
      | O => if Ascii.eqb c d then 1%nat else O
      | S n => S (S n)
      end
  end.

Fixpoint rstrip_slash_rev (r : list ascii) : list ascii :=
  match r with
  | c :: r' => if Ascii.eqb c slash then rstrip_slash_rev r' else r
  | [] => []
  end.

Definition rstrip_slash (s : string) : string :=
  string_of_list_ascii
    (List.rev (rstrip_slash_rev (List.rev (list_ascii_of_string s)))).

(** [posixpath.dirname] and [posixpath.basename]. *)
Definition dirname (p : string) : string :=
  let head := take (after_last slash p) p in
  if forallb_str (Ascii.eqb slash) head then head else rstrip_slash head.

Definition basename (p : string) : string := drop_str (after_last slash p) p.

(** [posixpath.splitext]: the extension starts at the last dot of the last
    component, unless that component has only leading dots before it. *)
Definition splitext (p : string) : string * string :=
  let sep_end := after_last slash p in
  let dot_end := after_last "." p in
  if (sep_end <? dot_end)%nat
     && negb (forallb_str (Ascii.eqb ".") (take (dot_end - 1 - sep_end) (drop_str sep_end p)))
  then (take (dot_end - 1) p, drop_str (dot_end - 1) p)
  else (p, EmptyString).

(** [str.format] for the replacement fields of the descriptors' patterns:
    an empty field takes the next positional argument and a one-digit
    field the argument of that index. *)
Fixpoint format_from (auto : nat) (pat : string) (args : list string) : string :=
  match pat with
  | String "{" (String "}" rest) =>
      nth auto args EmptyString +:+ format_from (S auto) rest args
  | String "{" (String d (String "}" rest)) =>
      if is_digit d
      then nth (N.to_nat (code d - 48)) args EmptyString +:+ format_from auto rest args
      else String "{" (String d (String "}" (format_from auto rest args)))
  | String c rest => String c (format_from auto rest args)
  | EmptyString => EmptyString
  end.

Definition format (pat : string) (args : list string) : string :=
  format_from 0 pat args.

(** Reading in text mode maps ["\r\n"] and a lone ["\r"] to ["\n"]. *)
Fixpoint universal_newlines (s : string) : string :=
  match s with
  | String c rest =>
      if Ascii.eqb c (chr 13) then
        match rest with
        | String d rest' =>
            if Ascii.eqb d newline then String newline (universal_newlines rest')
            else String newline (universal_newlines rest)
        | EmptyString => String newline EmptyString
        end
      else String c (universal_newlines rest)
  | EmptyString => EmptyString
  end.

(** The one-byte line boundaries of [str.splitlines]. *)
Definition is_linebreak (c : ascii) : bool :=
  in_range 10 13 c || in_range 28 30 c.

(** [str.splitlines()]: [cur] holds the current line reversed; a line
    break directly after a carriage return belongs to it. *)
Fixpoint splitlines_from (cur : list ascii) (s : string) : list string :=
  match s with
  | EmptyString =>
      match cur with
      | [] => []
      | _ => [string_of_list_ascii (List.rev cur)]
      end
  | String c rest =>
      if is_linebreak c then
        string_of_list_ascii (List.rev cur) ::
          match rest with
          | String d rest' =>
              if Ascii.eqb c (chr 13) && Ascii.eqb d newline
              then splitlines_from [] rest'
              else splitlines_from [] rest
          | EmptyString => []
          end
      else splitlines_from (c :: cur) rest
  end.

Definition splitlines (s : string) : list string := splitlines_from [] s.

(** ** Exceptions, filesystem, events *)

Inductive oserror : Type :=
| FileNotFoundError | FileExistsError | IsADirectoryError
| NotADirectoryError | PermissionError | OtherOSError.

Inductive exit_arg : Type :=
| ExitMsg (msg : string)
| ExitCode (status : Z).

(** The exceptions that can travel through the script.  [URLError] is a
    subclass of [OSError]; [tarfile.ReadError] and [tarfile.ExtractError]
    both derive from [tarfile.TarError], which is not an [OSError]. *)
Inductive exn : Type :=
| OSError (e : oserror)
| URLError
| ReadError
| ExtractError
| AttributeError
| TypeError
| ValueError
| IndexError
| KeyError
| SystemExit (a : exit_arg).

Definition is_OSError (e : exn) : bool :=
  match e with OSError _ | URLError => true | _ => false end.

Definition is_URLError (e : exn) : bool :=
  match e with URLError => true | _ => false end.

Definition is_IndexError (e : exn) : bool :=
  match e with IndexError => true | _ => false end.

Definition is_FileNotFoundError (e : exn) : bool :=
  match e with OSError FileNotFoundError => true | _ => false end.

Inductive node : Type :=
| File (data : string)
| Dir
| Symlink (target : string).

Inductive open_mode : Type := ModeWrite | ModeAppend.   (* 'wb', 'ab' *)

(** What the script does to the outside, in order. *)
Inductive event : Type :=
| EvHead (url : string)
| EvGet (url : string) (range_from : option Z)
| EvRead (path : string)
| EvWrite (path : string) (mode : open_mode) (data : string)
| EvRemove (path : string)
| EvSymlink (target path : string)
| EvMkdir (path : string)
| EvRmtree (path : string)
| EvSync
| EvRun (argv : list string)
| EvImportKey (key : string).

Definition under (dir path : string) : bool :=
  String.eqb path dir || startswith (dir +:+ "/") path.

(** The effect of one event on the filesystem. *)
Definition apply_event (ev : event) (fs : gmap string node) : gmap string node :=
  match ev with
  | EvWrite p ModeWrite data => <[p := File data]> fs
  | EvWrite p ModeAppend data =>
      match fs !! p with
      | Some (File old) => <[p := File (old +:+ data)]> fs
      | _ => <[p := File data]> fs
      end
  | EvRemove p => delete p fs
  | EvSymlink target p => <[p := Symlink target]> fs
  | EvMkdir p => <[p := Dir]> fs
  | EvRmtree p => filter (fun kv => under p kv.1 = false) fs
  | _ => fs
  end.

Definition replay (evs : list event) (fs : gmap string node) : gmap string node :=
  fold_left (fun fs' ev => apply_event ev fs') evs fs.

Record world : Type := World {
  fs : gmap string node;
  keyring : list string;
  trace : list event }.

(** One member of an archive as [tarfile] lists it. *)
Record member : Type := Member { m_name : string; m_node : node }.

(** What lies outside the script. *)
Record env : Type := Env {
  home : string;                        (* os.path.expanduser('~') *)
  machine : string;                     (* platform.machine() *)
  (* HEAD: [None] is a URLError, [Some None] a reply with no
     Content-Length header, [Some (Some n)] a reply announcing [n] bytes *)
  head : string -> option (option Z);
  (* GET: the body served at a URL, [None] a URLError *)
  get : string -> option string;
  (* a program, given by the contents of its file, run on arguments:
     return code and standard output *)
  execute : string -> list string -> Z * string;
  (* tarfile.open(...).getmembers() on the contents of a file, [None]
     when the contents are no archive tarfile can read (ReadError) *)
  tar_members : string -> option (list member);
  (* json.loads(body)[field], [None] when the field is missing *)
  json_field : string -> string -> option string;
  (* gpg --verify: keyring, signature file, detached data if any *)
  gpg_verify : list string -> string -> option string -> bool;
  (* the keys gpg --fetch-keys finds at a URL *)
  keys_at : string -> list string;
  (* whether gpg --recv-keys finds a key on the key server *)
  key_server : string -> bool }.

(** ** The state-and-exception monad *)

Inductive outcome (A : Type) : Type :=
| Val (a : A)
| Exc (e : exn).

Arguments Val {A} a.
Arguments Exc {A} e.

Definition M (A : Type) : Type := world -> outcome A * world.

#[export] Instance M_ret : MRet M := fun A a w => (Val a, w).

#[export] Instance M_bind : MBind M := fun A B f m w =>
  match m w with
  | (Val a, w') => f a w'
  | (Exc e, w') => (Exc e, w')
  end.

Definition raise {A : Type} (e : exn) : M A := fun w => (Exc e, w).

(** [try: body except <caught>: handler]. *)
Definition try_except {A : Type} (body : M A) (caught : exn -> bool) (handler : M A)
  : M A := fun w =>
  match body w with
  | (Exc e, w') => if caught e then handler w' else (Exc e, w')
  | r => r
  end.

Definition get_fs : M (gmap string node) := fun w => (Val (fs w), w).

Definition get_keyring : M (list string) := fun w => (Val (keyring w), w).

(** Record an event and apply it to the filesystem. *)
Definition commit (ev : event) : M unit := fun w =>
  (Val tt, World (apply_event ev (fs w)) (keyring w) (trace w ++ [ev])).

Definition import_key (key : string) : M unit := fun w =>
  (Val tt, World (fs w) (key :: keyring w) (trace w ++ [EvImportKey key])).

Definition sys_exit {A : Type} (msg : string) : M A :=
  raise (SystemExit (ExitMsg msg)).

(** ** Operating-system calls

    Keys of the filesystem map are normalised paths.  Calls of the [stat]
    family follow symbolic links ([realpath]); calls of the [lstat]
    family address the entry named by the normalised path itself. *)

Definition child (dir name : string) : string :=
  if String.eqb dir "" then name
  else if endswith "/" dir then dir +:+ name
  else dir +:+ "/" +:+ name.

(** [os.path.join(a, b)]. *)
Definition path_join (a b : string) : string :=
  if startswith "/" b then b else child a b.

Definition path_root (p : string) : string :=
  if startswith "/" p then "/" else "".

Definition path_comps (p : string) : list string :=
  List.filter (fun c => negb (String.eqb c "")) (split_on slash p).

(** The first component of a path that is a symbolic link: the path its
    target stands for, and the components still to walk. *)
Fixpoint first_link (fs : gmap string node) (acc : string) (comps : list string)
  : option (string * list string) :=
  match comps with
  | [] => None
  | c :: rest =>
      match fs !! child acc c with
      | Some (Symlink t) => Some (path_join acc t, rest)
      | _ => first_link fs (child acc c) rest
      end
  end.

Fixpoint realpath_fuel (fuel : nat) (fs : gmap string node) (path : string)
  : option string :=
  match fuel with
  | O => None
  | S fuel' =>
      let p := normpath path in
      match first_link fs (path_root p) (path_comps p) with
      | None => Some p
      | Some (t, rest) => realpath_fuel fuel' fs (join "/" (t :: rest))
      end
  end.

(** At most 40 links are followed, as on Linux. *)
Definition realpath (fs : gmap string node) (path : string) : option string :=
  realpath_fuel 41 fs path.

Definition has_trailing_slash (path : string) : bool :=
  endswith "/" path && negb (forallb_str (Ascii.eqb slash) path).

Definition stat (fs : gmap string node) (path : string) : option node :=
  match realpath fs path with
  | Some p =>
      match fs !! p with
      | Some (File d) => if has_trailing_slash path then None else Some (File d)
      | r => r
      end
  | None => None
  end.

Definition lstat (fs : gmap string node) (path : string) : option node :=
  if has_trailing_slash path then
    match stat fs path with
    | Some Dir => Some Dir
    | _ => None
    end
  else fs !! normpath path.

Definition isfile (fs : gmap string node) (path : string) : bool :=
  match stat fs path with Some (File _) => true | _ => false end.

Definition isdir (fs : gmap string node) (path : string) : bool :=
  match stat fs path with Some Dir => true | _ => false end.

Definition exists_ (fs : gmap string node) (path : string) : bool :=
  match stat fs path with Some _ => true | None => false end.

Definition islink (fs : gmap string node) (path : string) : bool :=
  match lstat fs path with Some (Symlink _) => true | _ => false end.

Definition lexists (fs : gmap string node) (path : string) : bool :=
  match lstat fs path with Some _ => true | None => false end.

(** [os.readlink]. *)
Definition readlink (path : string) : M string :=
  fs ← get_fs;
  match lstat fs path with
  | Some (Symlink t) => mret t
  | Some _ => raise (OSError OtherOSError)
  | None => raise (OSError FileNotFoundError)
  end.

(** [os.remove]. *)
Definition remove (path : string) : M unit :=
  fs ← get_fs;
  match lstat fs path with
  | Some Dir => raise (OSError IsADirectoryError)
  | Some _ => commit (EvRemove (normpath path))
  | None => raise (OSError FileNotFoundError)
  end.

(** [os.symlink(target, path)]: the target is stored as given. *)
Definition symlink (target path : string) : M unit :=
  fs ← get_fs;
  if lexists fs path then raise (OSError FileExistsError)
  else if String.eqb (dirname (normpath path)) "" || isdir fs (dirname (normpath path))
  then commit (EvSymlink target (normpath path))
  else raise (OSError FileNotFoundError).

(** [shutil.rmtree]. *)
Definition rmtree (path : string) : M unit :=
  fs ← get_fs;
  match fs !! normpath path with
  | Some Dir => commit (EvRmtree (normpath path))
  | Some (Symlink _) => raise (OSError OtherOSError)
  | Some (File _) => raise (OSError NotADirectoryError)
  | None => raise (OSError FileNotFoundError)
  end.

(** [os.makedirs]: walk down from the root and create what is missing. *)
Fixpoint make_path (acc : string) (comps : list string) (exist_ok : bool) : M unit :=
  match comps with
  | [] => mret tt
  | c :: rest =>
      fs ← get_fs;
      match stat fs (child acc c), rest with
      | Some Dir, [] =>
          if exist_ok then mret tt else raise (OSError FileExistsError)
      | Some Dir, _ :: _ => make_path (child acc c) rest exist_ok
      | Some _, [] => raise (OSError FileExistsError)
      | Some _, _ :: _ => raise (OSError NotADirectoryError)
      | None, _ =>
          if lexists fs (child acc c) then raise (OSError FileExistsError)
          else commit (EvMkdir (child acc c)) ;; 
               match rest with
               | [] => mret tt
               | _ :: _ => make_path (child acc c) rest exist_ok
               end
      end
  end.

Definition makedirs (path : string) (exist_ok : bool) : M unit :=
  make_path (path_root (normpath path)) (path_comps (normpath path)) exist_ok.

(** [open(path, 'rb').read()]. *)
Definition read_file (path : string) : M string :=
  fs ← get_fs;
  match stat fs path with
  | Some (File data) => commit (EvRead path) ;; mret data
  | Some _ => raise (OSError IsADirectoryError)
  | None => raise (OSError FileNotFoundError)
  end.

(** [open(path, mode)] followed by writing [data]. *)
Definition write_file (path : string) (mode : open_mode) (data : string) : M unit :=
  fs ← get_fs;
  match realpath fs path with
  | None => raise (OSError OtherOSError)
  | Some p =>
      match fs !! p with
      | Some (File _) => commit (EvWrite p mode data)
      | Some _ => raise (OSError IsADirectoryError)
      | None =>
          if has_trailing_slash path then raise (OSError IsADirectoryError)
          else if String.eqb (dirname p) "" || isdir fs (dirname p)
          then commit (EvWrite p mode data)
          else raise (OSError FileNotFoundError)
      end
  end.

(** [os.stat(path).st_size]. *)
Definition st_size (path : string) : M Z :=
  fs ← get_fs;
  match stat fs path with
  | Some (File data) => mret (Z.of_nat (String.length data))
  | Some _ => mret 4096%Z
  | None => raise (OSError FileNotFoundError)
  end.

(** [os.listdir]. *)
Definition listdir (path : string) : M (list string) :=
  fs ← get_fs;
  match realpath fs path with
  | None => raise (OSError OtherOSError)
  | Some p =>
      match fs !! p with
      | Some Dir =>
          mret (List.map basename
                  (List.filter (fun k => String.eqb (dirname k) p && negb (String.eqb k p))
                               (List.map fst (map_to_list fs))))
      | Some _ => raise (OSError NotADirectoryError)
      | None => raise (OSError FileNotFoundError)
      end
  end.

(** [shlex.split] on commands without quotes or backslashes. *)
Definition shlex_split (cmd : string) : list string :=
  List.filter (fun a => negb (String.eqb a "")) (split_on " " cmd).

(** ** The script *)

Definition eqb_opt (a b : option string) : bool :=
  match a, b with
  | Some x, Some y => String.eqb x y
  | None, None => true
  | _, _ => false
  end.

Fixpoint contains (needle s : string) : bool :=
  startswith needle s
  || match s with
     | String _ s' => contains needle s'
     | EmptyString => false
     end.

Fixpoint for_each {A : Type} (l : list A) (body : A -> M unit) : M unit :=
  match l with
  | [] => mret tt
  | x :: rest => body x ;; for_each rest body
  end.

Definition LINK_NAME : string := "current".
Definition BTC_DAEMON_BIN : string := "bitcoind".
Definition BTC_CLIENT_BIN : string := "bitcoin-cli".
Definition BTC_TEST_BIN : string := "test_bitcoin".
Definition BTC_ROOT_URL : string := "https://bitcoin.org/bin/".
Definition BTC_WEB_PREFIX : string := "bitcoin-core-".
Definition LND_DAEMON_BIN : string := "lnd".
Definition LND_CLIENT_BIN : string := "lncli".
Definition LND_API_URL : string :=
  "https://api.github.com/repos/lightningnetwork/lnd/releases/latest".

Record Daemon : Type := {
  keyId : string;
  keyUrl : option string;
  checksumFilePat : string;
  remoteUrlPat : string;
  tarPattern : string }.

Definition BTC : Daemon := {|
  keyId := "01EA5486DE18A882D4C2684590C8019E36C2E964";
  keyUrl := Some "https://bitcoin.org/laanwj-releases.asc";
  checksumFilePat := "SHA256SUMS.asc";
  remoteUrlPat := "https://bitcoin.org/bin/bitcoin-core-{0}/";
  tarPattern := "bitcoin-{0}-{1}.tar.gz" |}.

Definition LND : Daemon := {|
  keyId := "F8037E70C12C7A263C032508CE58F7F8E20FD9A2";
  keyUrl := Some "https://keybase.io/roasbeef/pgp_keys.asc";
  checksumFilePat := "manifest-{}.txt";
  remoteUrlPat := "https://github.com/lightningnetwork/lnd/releases/download/{0}/";
  tarPattern := "lnd-linux-{1}-{0}.tar.gz" |}.

(** The value [log] is given: a string is printed, a boolean decides
    between printing OK and leaving the script. *)
Inductive log_value : Type :=
| LStr (s : string)
| LBool (b : bool).

(** [log(desc, value)].  Console output is not part of the state. *)
Definition log (desc : string) (value : log_value) : M unit :=
  match value with
  | LStr _ => mret tt
  | LBool true => mret tt
  | LBool false => sys_exit "##### FAILED #####"
  end.

(** [lndTagToVersion(tag)]: the letter v, a group of digits and dots, a
    hyphen, and a group holding the rest of the line. *)
Definition lnd_tag_pattern : regex :=
  Cat (Lit "v") (Cat (Grp (Star digit_or_dot)) (Cat (Lit "-") (Grp (Star not_newline)))).

Definition lndTagToVersion (tag : string) : M string :=
  match re_match lnd_tag_pattern tag with
  | None => sys_exit ("##### Error parsing lnd tag '" +:+ tag +:+ "'")
  | Some m =>
      let ver := group 1 m in
      mret (ver +:+ (if (1 <? count_char "." ver)%nat then "-" else ".0-") +:+ group 2 m)
  end.

(** The manifest: [getExpectedChecksum]. *)
Definition PGP_BEGIN : string := "-----BEGIN PGP SIGNED MESSAGE-----".
Definition PGP_SIGNATURE : string := "-----BEGIN PGP SIGNATURE-----".

(** [l.index(x)]; [None] stands for the ValueError. *)
Fixpoint index_of (x : string) (l : list string) : option nat :=
  match l with
  | [] => None
  | y :: rest => if String.eqb y x then Some O else option_map S (index_of x rest)
  end.

(** [l[i:j]]. *)
Definition slice {A : Type} (i j : nat) (l : list A) : list A :=
  firstn (j - i) (skipn i l).

(** The inner [try]: both markers are looked up, and only when both are
    found is the list cut down. *)
Definition signed_lines (lines : list string) : list string :=
  match index_of PGP_BEGIN lines with
  | None => lines
  | Some b =>
      match index_of PGP_SIGNATURE lines with
      | None => lines
      | Some e => slice (b + 1) e lines
      end
  end.

(** [^([0-9a-fA-F]{64})[ ]+] followed by the escaped file name and [$]. *)
Definition checksum_pattern (fileName : string) : regex :=
  Cat (Grp (Rep 64 is_hex)) (Cat (Plus is_space) (Cat (Lit fileName) Eos)).

Fixpoint hashes_of (p : regex) (lines : list string) : list string :=
  match lines with
  | [] => []
  | l :: rest =>
      match re_match p l with
      | Some m => group 1 m :: hashes_of p rest
      | None => hashes_of p rest
      end
  end.

Definition agreed (hashes : list string) : option string :=
  match hashes with
  | h :: rest => if forallb (fun x => String.eqb x h) rest then Some h else None
  | [] => None
  end.

(** The part of [getExpectedChecksum] that works on the lines read. *)
Definition expected_in (lines : list string) (fileName : string) : option string :=
  agreed (hashes_of (checksum_pattern fileName) (signed_lines lines)).

Definition getExpectedChecksum (checksumFilePath fileName : string)
  : M (option string) :=
  try_except
    (data ← read_file checksumFilePath;
     mret (expected_in (splitlines (universal_newlines data)) fileName))
    is_IndexError
    (mret None).

(** [checkSha256(filePath, sha256sum)]: the file is read and hashed
    before [sha256sum.lower()] is evaluated; [None] has no [lower]. *)
Definition checkSha256 (filePath : string) (sha256sum : option string) : M bool :=
  try_except
    (data ← read_file filePath;
     let digest := lower (SHA256.hexdigest data) in
     match sha256sum with
     | None => raise AttributeError
     | Some s => mret (String.eqb digest (lower s))
     end)
    is_OSError
    (mret false).

(** [makeLink(src, dest)]. *)
Definition makeLink (src dest : string) : M unit :=
  let src := normpath src in
  let dest := normpath dest in
  fs0 ← get_fs;
  stale ← (if negb (islink fs0 dest) then mret true
           else t ← readlink dest; mret (negb (String.eqb t src)));
  if stale : bool then
    fs1 ← get_fs;
    (if lexists fs1 dest then remove dest else mret tt) ;;
    symlink src dest
  else mret tt.

Section Script.

Variable E : env.

Definition HOME_PATH : string := home E +:+ "/".
Definition TARS_PATH : string := HOME_PATH +:+ "tars/".
Definition BIN_PATH : string := HOME_PATH +:+ "bin/".
Definition MAN_PATH : string := HOME_PATH +:+ ".local/share/man/man1/".
Definition BTC_INSTALL_PATH : string := HOME_PATH +:+ "opt/bitcoin/".
Definition LND_INSTALL_PATH : string := HOME_PATH +:+ "opt/lnd/".

(** [urlopen(Request(url, method='HEAD'))] and [urlopen(request)]; a
    [Range: bytes=n-] request is answered with the body from byte [n]. *)
Definition http_head (url : string) : M (option Z) :=
  commit (EvHead url) ;;
  match head E url with
  | None => raise URLError
  | Some r => mret r
  end.

Definition urlopen (url : string) (range_from : option Z) : M string :=
  commit (EvGet url range_from) ;;
  match get E url with
  | None => raise URLError
  | Some body =>
      mret match range_from with
           | Some n => drop_str (Z.to_nat n) body
           | None => body
           end
  end.

(** [getRemoteFileSize(url)]: [int(None)] is a TypeError. *)
Definition getRemoteFileSize (url : string) : M Z :=
  try_except
    (r ← http_head url;
     match r with
     | Some n => mret n
     | None => raise TypeError
     end)
    is_URLError
    (mret (-1)%Z).

(** The [with] block of [saveRemoteFile] and the [log] after it. *)
Definition download (url localPath : string) (resume : bool) (range_from : option Z)
  : M unit :=
  body ← urlopen url range_from;
  write_file localPath (if resume then ModeAppend else ModeWrite) body ;;
  log "" (LBool true).

(** [saveRemoteFile(url, localPath, resume)]. *)
Definition saveRemoteFile (url localPath : string) (resume : bool) : M unit :=
  try_except
    (log ("Retrieving " +:+ basename url) (LStr "") ;;
     fs0 ← get_fs;
     if resume && isfile fs0 localPath then
       currentSize ← st_size localPath;
       remoteFileSize ← getRemoteFileSize url;
       if (currentSize <? remoteFileSize)%Z then
         download url localPath resume (Some currentSize)
       else if (currentSize =? remoteFileSize)%Z then
         log "" (LBool true)
       else download url localPath resume None
     else download url localPath resume None)
    is_URLError
    (log "" (LBool false)).

(** [verifyChecksum(checksum, filePath, url)]. *)
Definition verifyChecksum (checksum : option string) (filePath url : string) : M bool :=
  ok ← checkSha256 filePath checksum;
  if ok : bool then mret true
  else saveRemoteFile url filePath true ;; checkSha256 filePath checksum.

(** [getGccArch()] and [getGoArch()]. *)
Definition getGccArch : string :=
  if contains "arm" (machine E) then "arm-linux-gnueabihf"
  else if String.eqb (machine E) "i686" then "i686-pc-linux-gnu"
  else machine E +:+ "-linux-gnu".

Definition getGoArch : M string :=
  if String.eqb (machine E) "i686" then mret "386"
  else if String.eqb (machine E) "x86_64" then mret "amd64"
  else if String.eqb (machine E) "aarch64" then mret "arm64"
  else if String.eqb (take 3 (machine E)) "arm" then mret "arm"
  else sys_exit ("##### Unknown architecture " +:+ machine E).

(** [sh(s)]: the program named first is looked up and run. *)
Definition sh (cmd : string) : M (Z * string) :=
  match shlex_split cmd with
  | [] => raise IndexError
  | prog :: args =>
      fs0 ← get_fs;
      match stat fs0 prog with
      | Some (File code) => commit (EvRun (prog :: args)) ;; mret (execute E code args)
      | Some _ => raise (OSError PermissionError)
      | None =>
          if exists_ fs0 (dirname prog) && negb (isdir fs0 (dirname prog))
          then raise (OSError NotADirectoryError)
          else raise (OSError FileNotFoundError)
      end
  end.

(** [getInstalledVersion(path, rexp)]. *)
Definition getInstalledVersion (path : string) (rexp : regex) : M (option string) :=
  try_except
    (try_except
       (p ← sh (path +:+ " --version");
        if negb (p.1 =? 0)%Z
        then sys_exit ("##### Error getting version of command " +:+ path)
        else
          match re_match rexp p.2 with
          | None => sys_exit ("##### Error parsing output of command " +:+ path)
          | Some m => mret (Some (group 1 m))
          end)
       is_IndexError
       (sys_exit ("##### Error parsing output of command " +:+ path)))
    is_FileNotFoundError
    (mret None).

Definition rest_of_line : regex := Grp (Star not_newline).

Definition eol : regex := Lit (String newline EmptyString).

Definition btc_client_banner : regex :=
  Cat (Lit "Bitcoin Core RPC client version v") (Cat rest_of_line eol).

Definition btc_daemon_banner : regex :=
  Cat (Lit "Bitcoin Core ")
      (Cat (Opt (Lit "Daemon ")) (Cat (Lit "version v") (Cat rest_of_line eol))).

Definition lnd_daemon_banner : regex :=
  Cat (Lit "lnd version ")
      (Cat (Star not_newline) (Cat (Lit " commit=v") (Cat rest_of_line eol))).

Definition getInstalledBtcClientVersion (path : string) : M (option string) :=
  getInstalledVersion (path +:+ "bin/" +:+ BTC_CLIENT_BIN) btc_client_banner.

Definition getInstalledBtcDaemonVersion (path : string) : M (option string) :=
  getInstalledVersion (path +:+ "bin/" +:+ BTC_DAEMON_BIN) btc_daemon_banner.

Definition getInstalledLndDaemonVersion (path : string) : M (option string) :=
  getInstalledVersion (path +:+ LND_DAEMON_BIN) lnd_daemon_banner.

(** [tarfile.open(tarPath, errorlevel=2)] with [getmembers()].  Of the
    failures of the reader only [tarfile.ReadError] is modelled; others,
    such as the EOFError of a compressed stream that was cut off, are
    not. *)
Definition tarfile_open (tarPath : string) : M (list member) :=
  data ← read_file tarPath;
  match tar_members E data with
  | None => raise ReadError
  | Some members => mret members
  end.

(** [tar.extract(member, path)]: missing parent directories are made,
    then the member is written. *)
Definition extract (m : member) (path : string) : M unit :=
  let target := normpath (path_join path (m_name m)) in
  fs0 ← get_fs;
  (if negb (String.eqb (dirname target) "") && negb (exists_ fs0 (dirname target))
   then makedirs (dirname target) false else mret tt) ;;
  match m_node m with
  | File data => write_file target ModeWrite data
  | Dir =>
      fs1 ← get_fs;
      if lexists fs1 target then mret tt else commit (EvMkdir target)
  | Symlink t =>
      fs1 ← get_fs;
      (if lexists fs1 target then remove target else mret tt) ;;
      symlink t target
  end.

(** [installTar(tarPath, instDir)]. *)
Definition installTar (tarPath instDir : string) : M bool :=
  try_except
    (fs0 ← get_fs;
     (if isdir fs0 instDir then rmtree instDir
      else if lexists fs0 instDir then remove instDir
      else mret tt) ;;
     makedirs instDir false ;;
     members ← tarfile_open tarPath;
     for_each members (fun m =>
       if negb (String.eqb (dirname (m_name m)) "")
       then extract (Member (join "/" (List.tl (split_on slash (m_name m)))) (m_node m))
                    instDir
       else mret tt) ;;
     mret true)
    (fun e => is_OSError e || match e with ExtractError => true | _ => false end)
    (mret false).

(** The [gpg] calls: [haveKey], [retrievePublicKey], [verifyGPG]. *)
Definition haveKey (key : string) : M bool :=
  keys ← get_keyring;
  mret (existsb (String.eqb key) keys).

Definition retrievePublicKey (keyId : string) (keyUrl : option string) : M unit :=
  have ← haveKey keyId;
  if have : bool then mret tt
  else
    found ← match keyUrl with
            | Some url =>
                log ("Importing key " +:+ url) (LStr "") ;;
                for_each (keys_at E url) import_key ;;
                have' ← haveKey keyId;
                if have' : bool then log "" (LBool true) ;; mret true
                else log "" (LStr "Failed") ;; mret false
            | None => mret false
            end;
    if found : bool then mret tt
    else
      log "Importing key from gpg server" (LStr "") ;;
      (if key_server E keyId then import_key keyId else mret tt) ;;
      have' ← haveKey keyId;
      log "" (LBool have').

Definition file_data (fs0 : gmap string node) (path : string) : option string :=
  match stat fs0 path with
  | Some (File d) => Some d
  | _ => None
  end.

Definition verifyGPG (sigPath dataPath : string) : M bool :=
  fs0 ← get_fs;
  keys ← get_keyring;
  match file_data fs0 sigPath with
  | None => mret false
  | Some sig =>
      if String.eqb sigPath dataPath then mret (gpg_verify E keys sig None)
      else
        match file_data fs0 dataPath with
        | None => mret false
        | Some data => mret (gpg_verify E keys sig (Some data))
        end
  end.

(** [getValidatedArchive(version, arch, data)]. *)
Definition getValidatedArchive (version arch : string) (data : Daemon)
  : M (option string) :=
  let checksumFile := format (checksumFilePat data) [version] in
  let '(f, e) := splitext checksumFile in
  let localChecksumFile :=
    if endswith ("-" +:+ version) f then checksumFile
    else f +:+ "-" +:+ version +:+ e in
  let sigData := TARS_PATH +:+ localChecksumFile in
  let rootUrl := format (remoteUrlPat data) [version] in
  let postfix := if negb (String.eqb e ".asc") then ".sig" else "" in
  let sig := sigData +:+ postfix in
  let fileName := format (tarPattern data) [version; arch] in
  let validate : M (option string) :=
    checksum ← getExpectedChecksum sigData fileName;
    ok ← verifyChecksum checksum (TARS_PATH +:+ fileName) (rootUrl +:+ fileName);
    if ok : bool then mret (Some (TARS_PATH +:+ fileName)) else mret None in
  good ← verifyGPG sig sigData;
  if good : bool then validate
  else
    retrievePublicKey (keyId data) (keyUrl data) ;;
    saveRemoteFile (rootUrl +:+ checksumFile +:+ postfix) sig false ;;
    (if negb (String.eqb postfix "")
     then saveRemoteFile (rootUrl +:+ checksumFile) sigData false
     else mret tt) ;;
    good' ← verifyGPG sig sigData;
    if good' : bool then validate else mret None.

(** [createLndLinks()] and [createBtcLinks(gccArch)]. *)
Definition createLndLinks : M unit :=
  let root := LND_INSTALL_PATH +:+ LINK_NAME in
  makedirs BIN_PATH true ;;
  progs ← listdir root;
  for_each progs (fun prog => makeLink (root +:+ "/" +:+ prog) (BIN_PATH +:+ prog)) ;;
  log "Lnd symbolic links created" (LBool true).

Definition createBtcLinks (gccArch : string) : M unit :=
  let root := BTC_INSTALL_PATH +:+ gccArch +:+ "/" +:+ LINK_NAME in
  makedirs BIN_PATH true ;;
  progs ← listdir (root +:+ "/bin");
  for_each progs (fun prog => makeLink (root +:+ "/bin/" +:+ prog) (BIN_PATH +:+ prog)) ;;
  makedirs MAN_PATH true ;;
  mans ← listdir (root +:+ "/share/man/man1/");
  for_each mans (fun man =>
    makeLink (root +:+ "/share/man/man1/" +:+ man) (MAN_PATH +:+ man)) ;;
  log "Bitcoin symbolic links created" (LBool true).

(** [re.findall] for a pattern with one group: scan left to right, keep
    group 1 of every match and go on after it. *)
Fixpoint findall_fuel (fuel : nat) (r : regex) (s : string) : list string :=
  match fuel with
  | O => []
  | S fuel' =>
      match re_match r s, s with
      | Some (rest, caps), String _ s' =>
          nth 0 caps EmptyString ::
            findall_fuel fuel' r
              (if (String.length rest <? String.length s)%nat then rest else s')
      | Some (_, caps), EmptyString => [nth 0 caps EmptyString]
      | None, String _ s' => findall_fuel fuel' r s'
      | None, EmptyString => []
      end
  end.

Definition findall (r : regex) (s : string) : list string :=
  findall_fuel (S (String.length s)) r s.

(** [int(x)] on a string of decimal digits; [None] is the ValueError. *)
Definition parse_int (x : string) : option Z :=
  if String.eqb x "" || negb (forallb_str is_digit x) then None
  else Some (fold_left (fun acc c => (10 * acc + Z.of_N (code c - 48))%Z)
                       (list_ascii_of_string x) 0%Z).

(** The sort key [[int(x) for x in ver.split('.')]]. *)
Fixpoint version_key_of (pieces : list string) : option (list Z) :=
  match pieces with
  | [] => Some []
  | x :: rest =>
      match parse_int x, version_key_of rest with
      | Some n, Some ns => Some (n :: ns)
      | _, _ => None
      end
  end.

Definition version_key (ver : string) : option (list Z) :=
  version_key_of (split_on "." ver).

Fixpoint keyed (vers : list string) : option (list (list Z * string)) :=
  match vers with
  | [] => Some []
  | v :: rest =>
      match version_key v, keyed rest with
      | Some k, Some ks => Some ((k, v) :: ks)
      | _, _ => None
      end
  end.

(** Python's order on lists of integers. *)
Fixpoint list_ltb (a b : list Z) : bool :=
  match a, b with
  | _, [] => false
  | [], _ :: _ => true
  | x :: a', y :: b' => (x <? y)%Z || ((x =? y)%Z && list_ltb a' b')
  end.

Fixpoint insert_desc (x : list Z * string) (l : list (list Z * string))
  : list (list Z * string) :=
  match l with
  | [] => [x]
  | y :: rest => if list_ltb x.1 y.1 then y :: insert_desc x rest else x :: l
  end.

(** [sorted(items, key=..., reverse=True)]: descending and stable. *)
Definition sorted_desc (items : list (list Z * string)) : list (list Z * string) :=
  fold_right insert_desc [] items.

Definition dquote : string := String (chr 34) EmptyString.

Definition btc_index_pattern : regex :=
  Cat (Lit ("<a href=" +:+ dquote +:+ BTC_WEB_PREFIX))
      (Cat (Grp (Star digit_or_dot))
           (Cat (Lit ("/" +:+ dquote +:+ ">")) (Cat (Star not_newline) (Lit "</a>")))).

(** [next(filter(exists, versions), None)]. *)
Fixpoint first_published (vers : list string) : M (option string) :=
  match vers with
  | [] => mret None
  | ver :: rest =>
      size ← getRemoteFileSize
               (BTC_ROOT_URL +:+ BTC_WEB_PREFIX +:+ ver +:+ "/" +:+ checksumFilePat BTC);
      if (0 <? size)%Z then mret (Some ver) else first_published rest
  end.

(** [getLatestBtc()]. *)
Definition getLatestBtc : M (option string) :=
  try_except
    (page ← urlopen BTC_ROOT_URL None;
     match keyed (findall btc_index_pattern page) with
     | None => raise ValueError
     | Some items => first_published (List.map snd (sorted_desc items))
     end)
    is_URLError
    (sys_exit ("##### Error retrieving " +:+ BTC_ROOT_URL)).

(** [getLatestLndTag()]. *)
Definition getLatestLndTag : M string :=
  try_except
    (body ← urlopen LND_API_URL None;
     match json_field E body "tag_name" with
     | Some tag => mret tag
     | None => raise KeyError
     end)
    is_URLError
    (sys_exit ("##### Error retrieving " +:+ LND_API_URL)).

(** [updateBtc(restart, runTests)] up to the link switch (source lines
    339 to 364).  The result is [(latestVer, installedVer)]; the lines
    after it restart the daemon and query the running version, and leave
    the installation as it is. *)
Definition updateBtc (runTests : bool) : M (option string * option string) :=
  let arch := getGccArch in
  let installLink := BTC_INSTALL_PATH +:+ arch +:+ "/" +:+ LINK_NAME +:+ "/" in
  installedVer ← getInstalledBtcDaemonVersion installLink;
  latestVer ← getLatestBtc;
  if eqb_opt installedVer latestVer then mret (latestVer, installedVer)
  else
    match latestVer with
    | None => raise TypeError   (* ['-' + version] in getValidatedArchive *)
    | Some latest =>
        fileName ← getValidatedArchive latest arch BTC;
        log ("Signature of " +:+ latest) (LBool (bool_decide (is_Some fileName))) ;;
        log "Extracting archive" (LStr "") ;;
        let dirName := "bitcoin-" +:+ latest in
        let instDir := BTC_INSTALL_PATH +:+ arch +:+ "/" +:+ dirName +:+ "/" in
        extracted ← installTar (default "" fileName) instDir;
        log "" (LBool extracted) ;;
        let testBinPath := instDir +:+ "bin/" +:+ BTC_TEST_BIN in
        fs0 ← get_fs;
        (if runTests && isfile fs0 testBinPath then
           p ← sh testBinPath;
           if negb (p.1 =? 0)%Z then raise (SystemExit (ExitCode p.1)) else mret tt
         else mret tt) ;;
        daemonVer ← getInstalledBtcDaemonVersion instDir;
        if eqb_opt latestVer daemonVer then
          clientVer ← getInstalledBtcClientVersion instDir;
          if eqb_opt daemonVer clientVer then
            commit EvSync ;;
            makeLink dirName installLink ;;
            createBtcLinks arch ;;
            mret (latestVer, latestVer)
          else sys_exit "##### Downloaded binaries don't have the expected version."
        else sys_exit "##### Downloaded binaries don't have the expected version."
    end.

(** [updateLnd(restart)] up to the link switch (source lines 388 to
    405), with the same result as [updateBtc]. *)
Definition updateLnd : M (string * option string) :=
  let installLink := LND_INSTALL_PATH +:+ LINK_NAME +:+ "/" in
  latestTag ← getLatestLndTag;
  installedVer ← getInstalledLndDaemonVersion installLink;
  latestVer ← lndTagToVersion latestTag;
  if eqb_opt installedVer (Some latestVer) then mret (latestVer, installedVer)
  else
    arch ← getGoArch;
    fileName ← getValidatedArchive latestTag arch LND;
    log ("Signature of " +:+ latestVer) (LBool (bool_decide (is_Some fileName))) ;;
    log "Extracting archive" (LStr "") ;;
    let dirName := "lnd-linux-" +:+ arch +:+ "-" +:+ latestTag in
    let instDir := LND_INSTALL_PATH +:+ dirName +:+ "/" in
    extracted ← installTar (default "" fileName) instDir;
    log "" (LBool extracted) ;;
    linkedVer ← getInstalledLndDaemonVersion installLink;
    if negb (eqb_opt (Some latestVer) linkedVer) then
      commit EvSync ;;
      makeLink dirName installLink ;;
      createLndLinks ;;
      mret (latestVer, Some latestVer)
    else mret (latestVer, installedVer).

End Script.

(** * Vocabulary of the properties *)

(** Where a greedy repetition over class [p] has to stop. *)
Definition stops (p : ascii -> bool) (rest : string) : Prop :=
  match rest with
  | String c _ => p c = false
  | EmptyString => True
  end.

(** The lines whose position lies strictly between positions [b] and [e],
    positions counted from [i] on. *)
Fixpoint between_from (i b e : nat) (l : list string) : list string :=
  match l with
  | [] => []
  | x :: rest =>
      if ((b <? i) && (i <? e))%nat then x :: between_from (S i) b e rest
      else between_from (S i) b e rest
  end.

Definition between (b e : nat) (l : list string) : list string :=
  between_from 0 b e l.

(** [int(s, 16)] on a string of hexadecimal digits. *)
Definition hex_digit_value (c : ascii) : N :=
  if is_digit c then code c - 48
  else if in_range 97 102 c then code c - 87
  else code c - 55.

Fixpoint hex_value_from (acc : N) (s : string) : N :=
  match s with
  | EmptyString => acc
  | String c s' => hex_value_from (16 * acc + hex_digit_value c) s'
  end.

Definition hex_value (s : string) : N := hex_value_from 0 s.

(** ** Scenarios *)

Definition nl : string := String newline EmptyString.

Definition text (lines : list string) : string := join nl lines +:+ nl.

Definition btc_archive_name : string := "bitcoin-0.21.0-x86_64-linux-gnu.tar.gz".

Definition hash_a : string :=
  "da7766775e3f9c98d7a9145429f2be8297c2672fe5b118fd3dc2411fb48e0032".

Definition hash_b : string :=
  "1ea5cedb64318e9868a66d3ab65de14516f9ada53143e460d50af428b5aec3c7".

(** A clearsigned manifest in which the archive is listed twice, with
    two hashes; a third entry stands after the signature marker. *)
Definition manifest_two_hashes : string :=
  text [ "-----BEGIN PGP SIGNED MESSAGE-----";
         "Hash: SHA256";
         "";
         hash_a +:+ "  " +:+ btc_archive_name;
         hash_b +:+ "  " +:+ btc_archive_name;
         "-----BEGIN PGP SIGNATURE-----";
         hash_a +:+ "  " +:+ btc_archive_name;
         "-----END PGP SIGNATURE-----" ].

Definition manifest_path : string := "/home/u/tars/SHA256SUMS-0.21.0.asc".

Definition world_two_hashes : world :=
  World (list_to_map [ ("/home", Dir); ("/home/u", Dir); ("/home/u/tars", Dir);
                       (manifest_path, File manifest_two_hashes) ])
        [] [].

(** A file holding the three bytes abc, and its digest in capitals. *)
Definition world_abc : world :=
  World (list_to_map [ ("/home", Dir); ("/home/u", Dir); ("/home/u/tars", Dir);
                       ("/home/u/tars/abc", File "abc") ])
        [] [].

Definition abc_digest_upper : string :=
  "BA7816BF8F01CFEA414140DE5DAE2223B00361A396177A9CB410FF61F20015AD".

(** ** The two outcomes of [makeLink] that change the filesystem *)

(** Whether a link can be created at [dest]: its directory is the
    working directory or an existing directory. *)
Definition parent_ok (fs0 : gmap string node) (dest : string) : bool :=
  String.eqb (dirname dest) "" || isdir fs0 (dirname dest).

Definition after (w : world) (evs : list event) : world :=
  World (replay evs (fs w)) (keyring w) (trace w ++ evs).

(** ** An lnd installation at release v0.4.2-beta, and a release
    v0.5-beta whose archive and manifest lie in the cache *)

Definition lnd_root : string := "/home/u/opt/lnd/".

Definition lnd_old_dir : string := "lnd-linux-amd64-v0.4.2-beta".

Definition lnd_new_dir : string := "lnd-linux-amd64-v0.5-beta".

Definition lnd_link : string := "/home/u/opt/lnd/current".

Definition lnd_archive : string := "archive of lnd v0.5-beta".

Definition lnd_archive_name : string := "lnd-linux-amd64-v0.5-beta.tar.gz".

Definition lnd_manifest : string :=
  text [ SHA256.hexdigest lnd_archive +:+ "  " +:+ lnd_archive_name ].

Definition lnd_world : world :=
  World (list_to_map
           [ ("/home", Dir); ("/home/u", Dir); ("/home/u/tars", Dir);
             ("/home/u/bin", Dir); ("/home/u/opt", Dir); ("/home/u/opt/lnd", Dir);
             (lnd_root +:+ lnd_old_dir, Dir);
             (lnd_root +:+ lnd_old_dir +:+ "/lnd", File "lnd 0.4.2-beta");
             (lnd_root +:+ lnd_old_dir +:+ "/lncli", File "lncli 0.4.2-beta");
             (lnd_link, Symlink lnd_old_dir);
             ("/home/u/bin/lnd", Symlink "/home/u/opt/lnd/current/lnd");
             ("/home/u/bin/lncli", Symlink "/home/u/opt/lnd/current/lncli");
             ("/home/u/tars/manifest-v0.5-beta.txt", File lnd_manifest);
             ("/home/u/tars/manifest-v0.5-beta.txt.sig", File "signature");
             ("/home/u/tars/" +:+ lnd_archive_name, File lnd_archive) ])
        [keyId LND] [].

(** ** What a resumed fetch does once the reply to HEAD is in *)

(** The part of a body a range request is answered with. *)
Definition ranged (range_from : option Z) (body : string) : string :=
  match range_from with
  | Some n => drop_str (Z.to_nat n) body
  | None => body
  end.

(** The GET of [saveRemoteFile] in resume mode and what follows it: a
    failed request ends the script, a body is appended to the file. *)
Definition resumed_get (E : env) (url p : string) (range_from : option Z) (w : world)
  : outcome unit * world :=
  match get E url with
  | None =>
      (Exc (SystemExit (ExitMsg "##### FAILED #####")),
       after w [EvHead url; EvGet url range_from])
  | Some body =>
      (Val tt,
       after w [EvHead url; EvGet url range_from;
                EvWrite p ModeAppend
                  match range_from with
                  | Some n => drop_str (Z.to_nat n) body
                  | None => body
                  end])
  end.

(** The servers as the lnd scenarios see them: the release API names
    tag v0.5-beta, the archive is served whole or from an offset, the
    programs print their banners, and a signature verifies when the
    signer's key is in the keyring. *)
Definition lnd_archive_url : string :=
  "https://github.com/lightningnetwork/lnd/releases/download/v0.5-beta/"
  +:+ lnd_archive_name.

Definition lnd_api_body : string := "(the release document of v0.5-beta)".

Definition lnd_archive_members : list member :=
  [ Member lnd_new_dir Dir;
    Member (lnd_new_dir +:+ "/lnd") (File "lnd 0.5.0-beta-rc2");
    Member (lnd_new_dir +:+ "/lncli") (File "lncli 0.5.0-beta-rc2") ].

Definition lnd_env : env := {|
  home := "/home/u";
  machine := "x86_64";
  head := fun url =>
    if String.eqb url lnd_archive_url
    then Some (Some (Z.of_nat (String.length lnd_archive))) else None;
  get := fun url =>
    if String.eqb url LND_API_URL then Some lnd_api_body
    else if String.eqb url lnd_archive_url then Some lnd_archive
    else None;
  execute := fun code _ =>
    if String.eqb code "lnd 0.4.2-beta"
    then (0%Z, text ["lnd version 0.4.2-beta commit=v0.4.2-beta"])
    else if String.eqb code "lnd 0.5.0-beta-rc2"
    then (0%Z, text ["lnd version 0.5.0-beta-rc2 commit=v0.5.0-beta-rc2"])
    else (1%Z, EmptyString);
  tar_members := fun data =>
    if String.eqb data lnd_archive then Some lnd_archive_members else None;
  json_field := fun body field =>
    if String.eqb body lnd_api_body && String.eqb field "tag_name"
    then Some "v0.5-beta" else None;
  gpg_verify := fun keys _ _ => existsb (String.eqb (keyId LND)) keys;
  keys_at := fun _ => [];
  key_server := fun _ => false |}.

Definition lnd_archive_path : string := "/home/u/tars/" +:+ lnd_archive_name.

(** The cache with another file under the archive's name. *)
Definition lnd_world_with (cached : string) : world :=
  World (<[lnd_archive_path := File cached]> (fs lnd_world))
        (keyring lnd_world) (trace lnd_world).

(** A cached archive of the right length with a damaged first byte. *)
Definition lnd_damaged : string := "Archive of lnd v0.5-beta".

(** A cached archive that is longer than the published one. *)
Definition lnd_overlong : string := "archive of lnd v0.5-beta and more".

(** A cached archive that was cut off after ten bytes. *)
Definition lnd_partial : string := "archive of".

(** The same cache with a manifest that lists the archive of another
    architecture only. *)
Definition lnd_manifest_path : string := "/home/u/tars/manifest-v0.5-beta.txt".

Definition lnd_world_unlisted : world :=
  World (<[lnd_manifest_path :=
            File (text [ SHA256.hexdigest lnd_archive
                         +:+ "  lnd-linux-arm64-v0.5-beta.tar.gz" ])]>
           (fs lnd_world))
        (keyring lnd_world) (trace lnd_world).

Definition lnd_inst_dir : string := lnd_root +:+ lnd_new_dir +:+ "/".

(** What [updateLnd] does in the lnd scenario, in order. *)
Definition lnd_update_trace : list event :=
  [ EvGet LND_API_URL None;
    EvRun [lnd_root +:+ "current/lnd"; "--version"];
    EvRead lnd_manifest_path;
    EvRead lnd_archive_path;
    EvMkdir (lnd_root +:+ lnd_new_dir);
    EvRead lnd_archive_path;
    EvWrite (lnd_root +:+ lnd_new_dir +:+ "/lnd") ModeWrite "lnd 0.5.0-beta-rc2";
    EvWrite (lnd_root +:+ lnd_new_dir +:+ "/lncli") ModeWrite "lncli 0.5.0-beta-rc2";
    EvRun [lnd_root +:+ "current/lnd"; "--version"];
    EvSync;
    EvRemove lnd_link;
    EvSymlink lnd_new_dir lnd_link ].

(** ** Where [getValidatedArchive] keeps a release's files *)

(** The local manifest and the signature file, as [getValidatedArchive]
    names them (its [sigData] and [sig]). *)
Definition manifest_files (E : env) (version : string) (data : Daemon)
  : string * string :=
  let checksumFile := format (checksumFilePat data) [version] in
  let '(f, e) := splitext checksumFile in
  let localChecksumFile :=
    if endswith ("-" +:+ version) f then checksumFile
    else f +:+ "-" +:+ version +:+ e in
  let sigData := TARS_PATH E +:+ localChecksumFile in
  (sigData, sigData +:+ (if negb (String.eqb e ".asc") then ".sig" else "")).

Definition archive_file (E : env) (version arch : string) (data : Daemon) : string :=
  TARS_PATH E +:+ format (tarPattern data) [version; arch].

(** A run of [n] spaces. *)
Fixpoint spaces (n : nat) : string :=
  match n with
  | O => EmptyString
  | S n' => String " " (spaces n')
  end.

(** Strings in which character [sep] does not occur. *)
Definition without (sep : ascii) (s : string) : bool :=
  forallb_str (fun c => negb (Ascii.eqb c sep)) s.


(** [m] leaves the files and the keyring as they are, whatever it
    answers. *)
Definition looks_only {A : Type} (m : M A) : Prop :=
  forall w, fs (m w).2 = fs w /\ keyring (m w).2 = keyring w.

(** The events that change no file. *)
Definition harmless (ev : event) : bool :=
  match ev with
  | EvHead _ | EvGet _ _ | EvRead _ | EvSync | EvRun _ => true
  | _ => false
  end.

(** ** The releases of Bitcoin Core on the index page *)

(** Where the checksum file of a release lies. *)
Definition btc_checksum_url (ver : string) : string :=
  BTC_ROOT_URL +:+ BTC_WEB_PREFIX +:+ ver +:+ "/" +:+ checksumFilePat BTC.

(** A release counts as published when the server announces a checksum
    file of positive size for it. *)
Definition published (E : env) (ver : string) : bool :=
  match head E (btc_checksum_url ver) with
  | Some (Some n) => (0 <? n)%Z
  | _ => false
  end.

(** The server's reply for the release is none or carries a length. *)
Definition sized (E : env) (ver : string) : bool :=
  match head E (btc_checksum_url ver) with
  | Some None => false
  | _ => true
  end.

(** The elements of a list up to the first that satisfies [p]. *)
Fixpoint upto {A : Type} (p : A -> bool) (l : list A) : list A :=
  match l with
  | [] => []
  | x :: rest => if p x then [x] else x :: upto p rest
  end.

Definition probes (vers : list string) : list event :=
  List.map (fun v => EvHead (btc_checksum_url v)) vers.

(** No element is followed by one with a greater key. *)
Fixpoint descending (l : list (list Z * string)) : Prop :=
  match l with
  | [] => True
  | x :: rest => Forall (fun y => list_ltb x.1 y.1 = false) rest /\ descending rest
  end.

(** A line of the index page that links to a release. *)
Definition btc_index_line (ver : string) : string :=
  "<a href=" +:+ dquote +:+ BTC_WEB_PREFIX +:+ ver +:+ "/" +:+ dquote +:+ ">"
  +:+ BTC_WEB_PREFIX +:+ ver +:+ "/</a>".

(** An index that lists 0.9.5, 22.0 and 0.21.0, in this order; release
    22.0 has no checksum file under the name the script asks for. *)
Definition btc_index : string :=
  text [ "<html><body>"; btc_index_line "0.9.5"; btc_index_line "22.0";
         btc_index_line "0.21.0"; "</body></html>" ].

(** A machine of the given kind and a server with the given index page,
    on which 0.9.5 and 0.21.0 have a checksum file. *)
Definition btc_server (kind page : string) : env := {|
  home := "/home/u";
  machine := kind;
  head := fun url =>
    if String.eqb url (btc_checksum_url "0.9.5") then Some (Some 1962%Z)
    else if String.eqb url (btc_checksum_url "0.21.0") then Some (Some 2353%Z)
    else None;
  get := fun url => if String.eqb url BTC_ROOT_URL then Some page else None;
  execute := fun code _ =>
    if String.eqb code "bitcoind 0.21.0"
    then (0%Z, text ["Bitcoin Core version v0.21.0";
                     "Copyright (C) 2009-2020 The Bitcoin Core developers"])
    else (1%Z, EmptyString);
  tar_members := fun _ => None;
  json_field := fun _ _ => None;
  gpg_verify := fun _ _ _ => false;
  keys_at := fun _ => [];
  key_server := fun _ => false |}.

Definition btc_env : env := btc_server "x86_64" btc_index.

(** An index with a link whose version ends in a dot. *)
Definition btc_index_odd : string :=
  text [ btc_index_line "0.21.0"; btc_index_line "0.21." ].

Definition empty_world : world := World ∅ [] [].

Definition btc_index_items : list (list Z * string) :=
  [ ([0; 9; 5]%Z, "0.9.5"); ([22; 0]%Z, "22.0"); ([0; 21; 0]%Z, "0.21.0") ].

(** ** Installations that are up to date *)

Definition btc_root : string := "/home/u/opt/bitcoin/x86_64-linux-gnu/".

(** Bitcoin Core 0.21.0 installed and linked. *)
Definition btc_world : world :=
  World (list_to_map
           [ ("/home", Dir); ("/home/u", Dir); ("/home/u/opt", Dir);
             ("/home/u/opt/bitcoin", Dir);
             ("/home/u/opt/bitcoin/x86_64-linux-gnu", Dir);
             (btc_root +:+ "bitcoin-0.21.0", Dir);
             (btc_root +:+ "bitcoin-0.21.0/bin", Dir);
             (btc_root +:+ "bitcoin-0.21.0/bin/bitcoind", File "bitcoind 0.21.0");
             (btc_root +:+ "current", Symlink "bitcoin-0.21.0") ])
        [] [].

(** What [updateBtc] does there, in order. *)
Definition btc_lookup_trace : list event :=
  [ EvRun [btc_root +:+ "current/bin/bitcoind"; "--version"];
    EvGet BTC_ROOT_URL None;
    EvHead (btc_checksum_url "22.0");
    EvHead (btc_checksum_url "0.21.0") ].

(** The lnd scenario with release v0.5-beta installed and linked. *)
Definition lnd_env_current : env := {|
  home := home lnd_env;
  machine := machine lnd_env;
  head := head lnd_env;
  get := get lnd_env;
  execute := fun code _ =>
    if String.eqb code "lnd 0.5.0-beta"
    then (0%Z, text ["lnd version 0.5.0-beta commit=v0.5.0-beta"])
    else (1%Z, EmptyString);
  tar_members := tar_members lnd_env;
  json_field := json_field lnd_env;
  gpg_verify := gpg_verify lnd_env;
  keys_at := keys_at lnd_env;
  key_server := key_server lnd_env |}.

Definition lnd_world_current : world :=
  World (list_to_map
           [ ("/home", Dir); ("/home/u", Dir); ("/home/u/opt", Dir);
             ("/home/u/opt/lnd", Dir);
             (lnd_root +:+ lnd_new_dir, Dir);
             (lnd_root +:+ lnd_new_dir +:+ "/lnd", File "lnd 0.5.0-beta");
             (lnd_link, Symlink lnd_new_dir) ])
        [] [].

Definition lnd_lookup_trace : list event :=
  [ EvGet LND_API_URL None; EvRun [lnd_root +:+ "current/lnd"; "--version"] ].

(** What [createLndLinks] does in that installation, which has no
    [~/bin] yet. *)
Definition lnd_links_trace : list event :=
  [ EvMkdir "/home/u/bin";
    EvSymlink "/home/u/opt/lnd/current/lnd" "/home/u/bin/lnd" ].

(** ** States of one run *)

(** The keyring after the key imports among [evs], the latest first. *)
Fixpoint imported (evs : list event) (keys : list string) : list string :=
  match evs with
  | [] => keys
  | EvImportKey key :: rest => imported rest (key :: keys)
  | _ :: rest => imported rest keys
  end.

(** [b] is a later state of the run that was in state [a]: the record
    of operations has grown by some [evs], and files and keyring are
    those of [a] with [evs] applied. *)
Definition reaches (a b : world) : Prop :=
  exists evs,
    trace b = trace a ++ evs
    /\ fs b = replay evs (fs a)
    /\ keyring b = imported evs (keyring a).

(** Whatever [m] answers, it leaves a later state of the same run. *)
Definition advances {A : Type} (m : M A) : Prop :=
  forall w, reaches w (m w).2.

(** ** What [installTar] takes from an archive *)

(** The part of [s] after its first [c]. *)
Fixpoint after_first (c : ascii) (s : string) : string :=
  match s with
  | EmptyString => EmptyString
  | String d s' => if Ascii.eqb d c then s' else after_first c s'
  end.

(** The members whose name holds a slash, each under the part of its
    name that follows the first slash. *)
Definition taken (members : list member) : list member :=
  List.map (fun m => Member (after_first slash (m_name m)) (m_node m))
           (List.filter (fun m => negb (without slash (m_name m))) members).

(** ** A first installation of Bitcoin Core 0.21.0 *)

Definition btc_archive : string := "archive of bitcoin 0.21.0".

Definition btc_archive_path : string := "/home/u/tars/" +:+ btc_archive_name.

Definition btc_manifest : string :=
  text [ PGP_BEGIN; "Hash: SHA256"; "";
         SHA256.hexdigest btc_archive +:+ "  " +:+ btc_archive_name;
         PGP_SIGNATURE; "iQIzBAEBCAAdFiEE"; "-----END PGP SIGNATURE-----" ].

Definition btc_archive_members : list member :=
  [ Member "bitcoin-0.21.0/bin/bitcoind" (File "bitcoind 0.21.0");
    Member "bitcoin-0.21.0/bin/bitcoin-cli" (File "bitcoin-cli 0.21.0");
    Member "bitcoin-0.21.0/share/man/man1/bitcoind.1" (File "manual of bitcoind") ].

(** The server of [btc_env], with the release's programs, archive and
    signature understood. *)
Definition btc_release_env : env := {|
  home := home btc_env;
  machine := machine btc_env;
  head := head btc_env;
  get := get btc_env;
  execute := fun code _ =>
    if String.eqb code "bitcoind 0.21.0"
    then (0%Z, text ["Bitcoin Core version v0.21.0"])
    else if String.eqb code "bitcoin-cli 0.21.0"
    then (0%Z, text ["Bitcoin Core RPC client version v0.21.0"])
    else (1%Z, EmptyString);
  tar_members := fun data =>
    if String.eqb data btc_archive then Some btc_archive_members else None;
  json_field := json_field btc_env;
  gpg_verify := fun keys _ _ => existsb (String.eqb (keyId BTC)) keys;
  keys_at := keys_at btc_env;
  key_server := key_server btc_env |}.

(** Nothing installed yet; manifest and archive lie in the cache and
    the release key is in the keyring. *)
Definition btc_fresh_world : world :=
  World (list_to_map
           [ ("/home", Dir); ("/home/u", Dir); ("/home/u/tars", Dir);
             ("/home/u/opt", Dir); ("/home/u/opt/bitcoin", Dir);
             ("/home/u/opt/bitcoin/x86_64-linux-gnu", Dir);
             (manifest_path, File btc_manifest);
             (btc_archive_path, File btc_archive) ])
        [keyId BTC] [].

(** What [updateBtc] does for that first installation, in order. *)
Definition btc_install_trace : list event :=
  [ EvGet BTC_ROOT_URL None;
    EvHead (btc_checksum_url "22.0");
    EvHead (btc_checksum_url "0.21.0");
    EvRead manifest_path;
    EvRead btc_archive_path;
    EvMkdir (btc_root +:+ "bitcoin-0.21.0");
    EvRead btc_archive_path;
    EvMkdir (btc_root +:+ "bitcoin-0.21.0/bin");
    EvWrite (btc_root +:+ "bitcoin-0.21.0/bin/bitcoind") ModeWrite "bitcoind 0.21.0";
    EvWrite (btc_root +:+ "bitcoin-0.21.0/bin/bitcoin-cli") ModeWrite
            "bitcoin-cli 0.21.0";
    EvMkdir (btc_root +:+ "bitcoin-0.21.0/share");
    EvMkdir (btc_root +:+ "bitcoin-0.21.0/share/man");
    EvMkdir (btc_root +:+ "bitcoin-0.21.0/share/man/man1");
    EvWrite (btc_root +:+ "bitcoin-0.21.0/share/man/man1/bitcoind.1") ModeWrite
            "manual of bitcoind";
    EvRun [btc_root +:+ "bitcoin-0.21.0/bin/bitcoind"; "--version"];
    EvRun [btc_root +:+ "bitcoin-0.21.0/bin/bitcoin-cli"; "--version"];
    EvSync;
    EvSymlink "bitcoin-0.21.0" (btc_root +:+ "current");
    EvMkdir "/home/u/bin";
    EvSymlink (btc_root +:+ "current/bin/bitcoin-cli") "/home/u/bin/bitcoin-cli";
    EvSymlink (btc_root +:+ "current/bin/bitcoind") "/home/u/bin/bitcoind";
    EvMkdir "/home/u/.local";
    EvMkdir "/home/u/.local/share";
    EvMkdir "/home/u/.local/share/man";
    EvMkdir "/home/u/.local/share/man/man1";
    EvSymlink (btc_root +:+ "current/share/man/man1/bitcoind.1")
              "/home/u/.local/share/man/man1/bitcoind.1" ].

(** ** Where [updateBtc] installs *)

(** The link to the release in use, and the directory of a release. *)
Definition btc_install_link (E : env) : string :=
  BTC_INSTALL_PATH E +:+ getGccArch E +:+ "/" +:+ LINK_NAME +:+ "/".

Definition btc_release_dir (E : env) (version : string) : string :=
  BTC_INSTALL_PATH E +:+ getGccArch E +:+ "/" +:+ ("bitcoin-" +:+ version) +:+ "/".
(** * Properties *)

(** ** Strings *)

Lemma append_cons (c : ascii) (a b : string) :
  String c a +:+ b = String c (a +:+ b).
Proof. reflexivity. Qed.

Lemma append_nil_l (s : string) : "" +:+ s = s.
Proof. reflexivity. Qed.

Lemma append_nil_r (s : string) : s +:+ "" = s.
Proof.
  induction s as [|c s IH]; [reflexivity |].
  now rewrite append_cons, IH.
Qed.

Lemma append_assoc (a b c : string) : (a +:+ b) +:+ c = a +:+ (b +:+ c).
Proof.
  induction a as [|x a IH]; [reflexivity |].
  now rewrite !append_cons, IH.
Qed.

Lemma length_append (a b : string) :
  String.length (a +:+ b) = (String.length a + String.length b)%nat.
Proof.
  induction a as [|x a IH]; [reflexivity |].
  rewrite append_cons. simpl. now rewrite IH.
Qed.

Lemma take_append (a b : string) : take (String.length a) (a +:+ b) = a.
Proof.
  induction a as [|x a IH]; [now destruct b |].
  rewrite append_cons. simpl. now rewrite IH.
Qed.

Lemma forallb_str_append (p : ascii -> bool) (a b : string) :
  forallb_str p (a +:+ b) = forallb_str p a && forallb_str p b.
Proof.
  induction a as [|x a IH]; [reflexivity |].
  rewrite append_cons. simpl. now rewrite IH, andb_assoc.
Qed.

Lemma forallb_str_impl (p q : ascii -> bool) (s : string) :
  (forall c, p c = true -> q c = true) ->
  forallb_str p s = true -> forallb_str q s = true.
Proof.
  intros Hpq. induction s as [|c s IH]; simpl; [reflexivity |].
  intros [Hc Hs]%andb_true_iff. rewrite (Hpq _ Hc). now apply IH.
Qed.

Lemma count_char_append (c : ascii) (a b : string) :
  count_char c (a +:+ b) = (count_char c a + count_char c b)%nat.
Proof.
  induction a as [|x a IH]; [reflexivity |].
  rewrite append_cons. simpl. rewrite IH. lia.
Qed.

Lemma count_char_absent (c : ascii) (p : ascii -> bool) (s : string) :
  p c = false -> forallb_str p s = true -> count_char c s = O.
Proof.
  intros Hc. induction s as [|d s IH]; simpl; [reflexivity |].
  intros [Hd Hs]%andb_true_iff. rewrite (IH Hs).
  destruct (Ascii.eqb_spec c d) as [->|]; [congruence | reflexivity].
Qed.

(** ** The matcher *)

(** A greedy repetition takes a whole run when the rest of the pattern
    accepts what follows the run. *)
Lemma star_greedy (p : ascii -> bool) (pre rest : string) caps (k : cont) r :
  forallb_str p pre = true -> stops p rest -> k rest caps = Some r ->
  star p (pre +:+ rest) caps k = Some r.
Proof.
  intros Hpre Hstop Hk. induction pre as [|c pre IH].
  - rewrite append_nil_l.
    destruct rest as [|c rest]; simpl in *; [assumption |]. now rewrite Hstop.
  - rewrite append_cons. simpl in *.
    apply andb_true_iff in Hpre as [Hc Hpre]. rewrite Hc, (IH Hpre). reflexivity.
Qed.

Lemma strip_prefix_append (l s : string) : strip_prefix l (l +:+ s) = Some s.
Proof.
  induction l as [|c l IH]; [now destruct s |].
  rewrite append_cons. simpl. now rewrite Ascii.eqb_refl.
Qed.

Lemma consumed_append (pre rest : string) : consumed (pre +:+ rest) rest = pre.
Proof.
  unfold consumed. rewrite length_append.
  replace (String.length pre + String.length rest - String.length rest)%nat
    with (String.length pre) by lia.
  apply take_append.
Qed.

Lemma lnd_tag_match (ver commit : string) :
  forallb_str digit_or_dot ver = true ->
  forallb_str not_newline commit = true ->
  re_match lnd_tag_pattern ("v" +:+ ver +:+ "-" +:+ commit)
  = Some (EmptyString, [ver; commit]).
Proof.
  intros Hver Hcommit. unfold re_match, lnd_tag_pattern.
  rewrite append_cons, append_nil_l. simpl.
  apply star_greedy; [assumption | reflexivity |].
  rewrite append_cons, append_nil_l. simpl. rewrite consumed_append. simpl.
  rewrite <- (append_nil_r commit) at 1.
  apply star_greedy; [assumption | exact I |].
  rewrite <- (append_nil_r commit) at 1. now rewrite consumed_append.
Qed.

Lemma digit_is_digit_or_dot (c : ascii) : is_digit c = true -> digit_or_dot c = true.
Proof. unfold digit_or_dot. now intros ->. Qed.

(** ** lnd release tags *)

Lemma dotted_version (a b : string) :
  forallb_str is_digit a = true -> forallb_str is_digit b = true ->
  forallb_str digit_or_dot (a +:+ "." +:+ b) = true
  /\ count_char "." (a +:+ "." +:+ b) = 1%nat.
Proof.
  intros Ha Hb. split.
  - rewrite !forallb_str_append.
    rewrite (forallb_str_impl _ _ _ digit_is_digit_or_dot Ha).
    now rewrite (forallb_str_impl _ _ _ digit_is_digit_or_dot Hb).
  - rewrite !count_char_append.
    rewrite (count_char_absent "." is_digit a), (count_char_absent "." is_digit b);
      auto.
Qed.

(** C9: a tag vMAJOR.MINOR-COMMIT becomes MAJOR.MINOR.0-COMMIT, and a tag
    vMAJOR.MINOR.PATCH-COMMIT keeps its three segments; in both cases
    the commit suffix follows a hyphen.  MAJOR, MINOR and PATCH are
    strings of decimal digits and COMMIT is the rest of a one-line tag. *)
Theorem lndTagToVersion_three_segments (major minor patch commit : string) (w : world) :
  forallb_str is_digit major = true ->
  forallb_str is_digit minor = true ->
  forallb_str is_digit patch = true ->
  forallb_str not_newline commit = true ->
  lndTagToVersion ("v" +:+ (major +:+ "." +:+ minor) +:+ "-" +:+ commit) w
    = (Val (major +:+ "." +:+ minor +:+ ".0-" +:+ commit), w)
  /\ lndTagToVersion
       ("v" +:+ ((major +:+ "." +:+ minor) +:+ "." +:+ patch) +:+ "-" +:+ commit) w
    = (Val (major +:+ "." +:+ minor +:+ "." +:+ patch +:+ "-" +:+ commit), w).
Proof.
  intros Hmajor Hminor Hpatch Hcommit.
  destruct (dotted_version major minor Hmajor Hminor) as [Hclass Hdots].
  split; unfold lndTagToVersion.
  - rewrite lnd_tag_match by assumption.
    unfold group; simpl nth. rewrite Hdots. simpl.
    unfold mret, M_ret. now rewrite !append_assoc.
  - assert (Hclass3 : forallb_str digit_or_dot
                        ((major +:+ "." +:+ minor) +:+ "." +:+ patch) = true).
    { rewrite forallb_str_append, Hclass. simpl.
      rewrite forallb_str_append. simpl.
      exact (forallb_str_impl _ _ _ digit_is_digit_or_dot Hpatch). }
    rewrite lnd_tag_match by assumption.
    unfold group; simpl nth.
    rewrite count_char_append, Hdots, count_char_append.
    rewrite (count_char_absent "." is_digit patch) by auto. simpl.
    unfold mret, M_ret. now rewrite !append_assoc.
Qed.

Lemma lndTagToVersion_three_segments_witness :
  lndTagToVersion "v0.5-beta" (World ∅ [] []) = (Val "0.5.0-beta", World ∅ [] [])
  /\ lndTagToVersion "v0.5.1-beta" (World ∅ [] []) = (Val "0.5.1-beta", World ∅ [] []).
Proof.
  exact (lndTagToVersion_three_segments "0" "5" "1" "beta" (World ∅ [] [])
           eq_refl eq_refl eq_refl eq_refl).
Defined.

(** ** The checksum manifest *)

Lemma between_from_slice (l : list string) (i b e : nat) :
  between_from i b e l = firstn (e - Nat.max i (b + 1)) (skipn (b + 1 - i) l).
Proof.
  revert i. induction l as [|x rest IH]; intros i; simpl.
  - now rewrite skipn_nil, firstn_nil.
  - rewrite IH. destruct (Nat.ltb_spec b i) as [Hbi|Hbi]; simpl.
    + replace (b + 1 - i)%nat with O by lia.
      replace (b + 1 - S i)%nat with O by lia. simpl.
      destruct (Nat.ltb_spec i e) as [Hie|Hie].
      * replace (e - Nat.max i (b + 1))%nat with (S (e - Nat.max (S i) (b + 1))) by lia.
        reflexivity.
      * replace (e - Nat.max i (b + 1))%nat with O by lia.
        replace (e - Nat.max (S i) (b + 1))%nat with O by lia.
        reflexivity.
    + replace (b + 1 - i)%nat with (S (b + 1 - S i)) by lia.
      replace (Nat.max (S i) (b + 1)) with (Nat.max i (b + 1)) by lia.
      reflexivity.
Qed.

Lemma slice_between (l : list string) (b e : nat) :
  slice (b + 1) e l = between b e l.
Proof.
  unfold between, slice. rewrite between_from_slice.
  now rewrite Nat.max_0_l, Nat.sub_0_r.
Qed.

Lemma hashes_of_In (p : regex) (lines : list string) (l : string) m :
  In l lines -> re_match p l = Some m -> In (group 1 m) (hashes_of p lines).
Proof.
  intros Hin Hm. induction lines as [|x rest IH]; [contradiction |].
  simpl. destruct Hin as [->|Hin].
  - rewrite Hm. now left.
  - destruct (re_match p x); [right |]; now apply IH.
Qed.

Lemma agreed_Some (hashes : list string) (h x : string) :
  agreed hashes = Some h -> In x hashes -> x = h.
Proof.
  destruct hashes as [|h0 rest]; [discriminate |]. simpl.
  destruct (forallb _ rest) eqn:Hall; [|discriminate].
  intros [= <-] [->|Hin]; [reflexivity |].
  rewrite forallb_forall in Hall. now apply String.eqb_eq, Hall.
Qed.

Lemma agreed_differ (hashes : list string) (h1 h2 : string) :
  In h1 hashes -> In h2 hashes -> String.eqb h1 h2 = false -> agreed hashes = None.
Proof.
  intros H1 H2 Hne. destruct (agreed hashes) as [h|] eqn:Hag; [|reflexivity].
  rewrite (agreed_Some _ _ _ Hag H1), (agreed_Some _ _ _ Hag H2) in Hne.
  now rewrite String.eqb_refl in Hne.
Qed.

Lemma read_file_File (path data : string) (w : world) :
  stat (fs w) path = Some (File data) ->
  read_file path w
  = (Val data, World (fs w) (keyring w) (trace w ++ [EvRead path])).
Proof.
  intros Hstat. unfold read_file, get_fs, mbind, M_bind. now rewrite Hstat.
Qed.

Lemma getExpectedChecksum_File (path data fileName : string) (w : world) :
  stat (fs w) path = Some (File data) ->
  getExpectedChecksum path fileName w
  = (Val (expected_in (splitlines (universal_newlines data)) fileName),
     World (fs w) (keyring w) (trace w ++ [EvRead path])).
Proof.
  intros Hstat. unfold getExpectedChecksum, try_except, mbind, M_bind.
  now rewrite (read_file_File _ _ _ Hstat).
Qed.

(** C6: when the manifest holds both clearsign markers, at positions [b]
    and [e] of its lines, the digest comes from the lines strictly
    between the two alone; and two such lines that name the file with
    different hashes make the result [None]. *)
Theorem getExpectedChecksum_clearsigned
    (path data fileName : string) (lines : list string) (b e : nat) (w : world) :
  stat (fs w) path = Some (File data) ->
  lines = splitlines (universal_newlines data) ->
  index_of PGP_BEGIN lines = Some b ->
  index_of PGP_SIGNATURE lines = Some e ->
  getExpectedChecksum path fileName w
  = (Val (agreed (hashes_of (checksum_pattern fileName) (between b e lines))),
     World (fs w) (keyring w) (trace w ++ [EvRead path]))
  /\ forall l1 l2 m1 m2,
       In l1 (between b e lines) -> In l2 (between b e lines) ->
       re_match (checksum_pattern fileName) l1 = Some m1 ->
       re_match (checksum_pattern fileName) l2 = Some m2 ->
       String.eqb (group 1 m1) (group 1 m2) = false ->
       getExpectedChecksum path fileName w
       = (Val None, World (fs w) (keyring w) (trace w ++ [EvRead path])).
Proof.
  intros Hstat -> Hb He.
  assert (Hrun : getExpectedChecksum path fileName w
    = (Val (agreed (hashes_of (checksum_pattern fileName)
                      (between b e (splitlines (universal_newlines data))))),
       World (fs w) (keyring w) (trace w ++ [EvRead path]))).
  { rewrite (getExpectedChecksum_File _ _ _ _ Hstat).
    unfold expected_in, signed_lines. now rewrite Hb, He, slice_between. }
  split; [exact Hrun |].
  intros l1 l2 m1 m2 H1 H2 Hm1 Hm2 Hne. rewrite Hrun.
  now rewrite (agreed_differ _ _ _ (hashes_of_In _ _ _ _ H1 Hm1)
                 (hashes_of_In _ _ _ _ H2 Hm2) Hne).
Qed.

Lemma getExpectedChecksum_clearsigned_witness :
  getExpectedChecksum manifest_path btc_archive_name world_two_hashes
  = (Val None,
     World (fs world_two_hashes) (keyring world_two_hashes)
           (trace world_two_hashes ++ [EvRead manifest_path])).
Proof.
  refine (proj2 (getExpectedChecksum_clearsigned manifest_path manifest_two_hashes
                   btc_archive_name
                   (splitlines (universal_newlines manifest_two_hashes)) 0 5
                   world_two_hashes _ eq_refl _ _)
                (hash_a +:+ "  " +:+ btc_archive_name)
                (hash_b +:+ "  " +:+ btc_archive_name)
                (EmptyString, [hash_a]) (EmptyString, [hash_b]) _ _ _ _ _);
    vm_compute; auto.
Defined.

(** ** Digests *)

Ltac ascii_cases c :=
  destruct c as [[] [] [] [] [] [] [] []]; vm_compute; try discriminate; auto.

(** A hexadecimal digit in either case lowers to the digit of its value. *)
Lemma lower_hex_char (c : ascii) :
  is_hex c = true ->
  lower_char c = SHA256.hex_digit (hex_digit_value c) /\ hex_digit_value c < 16.
Proof. intros H. ascii_cases c. Qed.

Lemma hex_value_from_shift (s : string) (acc : N) :
  hex_value_from acc s = acc * 16 ^ N.of_nat (String.length s) + hex_value s.
Proof.
  unfold hex_value. revert acc. induction s as [|c s IH]; intros acc.
  - cbn. lia.
  - cbn [hex_value_from String.length].
    rewrite (IH (16 * acc + _)), (IH (16 * 0 + _)).
    rewrite Nat2N.inj_succ, N.pow_succ_r'. lia.
Qed.

Lemma hex_value_cons (c : ascii) (s : string) :
  hex_value (String c s)
  = hex_digit_value c * 16 ^ N.of_nat (String.length s) + hex_value s.
Proof.
  unfold hex_value at 1. cbn [hex_value_from].
  rewrite hex_value_from_shift. lia.
Qed.

Lemma hex_value_bound (s : string) :
  forallb_str is_hex s = true -> hex_value s < 16 ^ N.of_nat (String.length s).
Proof.
  induction s as [|c s IH]; [intros _; reflexivity |].
  cbn [forallb_str]. intros [Hc Hs]%andb_true_iff.
  rewrite hex_value_cons. cbn [String.length].
  rewrite Nat2N.inj_succ, N.pow_succ_r'.
  pose proof (proj2 (lower_hex_char c Hc)). specialize (IH Hs). nia.
Qed.

(** Two strings of hexadecimal digits of one length that denote the same
    number differ in letter case at most. *)
Lemma hex_value_inj (a b : string) :
  String.length a = String.length b ->
  forallb_str is_hex a = true -> forallb_str is_hex b = true ->
  hex_value a = hex_value b -> lower a = lower b.
Proof.
  revert b. induction a as [|c a IH]; intros [|d b]; try discriminate; [reflexivity |].
  cbn [forallb_str String.length lower].
  intros [= Hlen] [Hc Ha]%andb_true_iff [Hd Hb]%andb_true_iff.
  rewrite !hex_value_cons, <- Hlen.
  pose proof (hex_value_bound a Ha) as Hba.
  pose proof (hex_value_bound b Hb) as Hbb. rewrite <- Hlen in Hbb.
  destruct (lower_hex_char c Hc) as [-> Hvc].
  destruct (lower_hex_char d Hd) as [-> Hvd].
  intros Heq.
  set (P := 16 ^ N.of_nat (String.length a)) in *.
  assert (hex_digit_value c = hex_digit_value d) as Hdigit.
  { destruct (N.lt_trichotomy (hex_digit_value c) (hex_digit_value d))
      as [Hlt|[Heq'|Hgt]]; [| exact Heq' |].
    - assert ((hex_digit_value c + 1) * P <= hex_digit_value d * P)
        by (apply N.mul_le_mono_r; lia). lia.
    - assert ((hex_digit_value d + 1) * P <= hex_digit_value c * P)
        by (apply N.mul_le_mono_r; lia). lia. }
  rewrite Hdigit in Heq |- *.
  assert (hex_value a = hex_value b) as Hrest by lia.
  now rewrite (IH b Hlen Ha Hb Hrest).
Qed.

Lemma nibble_is_hex (i w : N) : is_hex (SHA256.nibble i w) = true.
Proof.
  unfold SHA256.nibble.
  assert (Hlt : N.land (N.shiftr w (4 * i)) 15 < 16).
  { change 15 with (N.ones 4). rewrite N.land_ones. now apply N.mod_lt. }
  destruct (N.land (N.shiftr w (4 * i)) 15) as [|p]; [reflexivity |].
  do 4 (destruct p as [p|p|]; try lia; try reflexivity).
Qed.

(** [hexdigest()] yields 64 hexadecimal digits. *)
Lemma hex_state_shape (s : SHA256.state) :
  String.length (SHA256.hex_state s) = 64%nat
  /\ forallb_str is_hex (SHA256.hex_state s) = true.
Proof.
  destruct s as [a b c d e f g h].
  unfold SHA256.hex_state, SHA256.hex_word. cbn [SHA256.ha SHA256.hb SHA256.hc SHA256.hd SHA256.he SHA256.hf SHA256.hg SHA256.hh].
  split; [reflexivity |].
  cbn [forallb_str]. now rewrite !nibble_is_hex.
Qed.

Lemma hexdigest_shape (data : string) :
  String.length (SHA256.hexdigest data) = 64%nat
  /\ forallb_str is_hex (SHA256.hexdigest data) = true.
Proof. apply hex_state_shape. Qed.

(** C10: when the expected digest is 64 hexadecimal digits and denotes the
    same number as the file's SHA-256 digest, [checkSha256] answers
    True whatever the letter case of the expected digest, both sides
    being lowered first; whereas two entries of a manifest are compared
    as they stand, so spellings of one digest that differ at all (in case
    only, say) do not agree. *)
Theorem checkSha256_ignores_case (path data expected : string) (w : world) :
  stat (fs w) path = Some (File data) ->
  String.length expected = 64%nat ->
  forallb_str is_hex expected = true ->
  hex_value expected = hex_value (SHA256.hexdigest data) ->
  checkSha256 path (Some expected) w
  = (Val true, World (fs w) (keyring w) (trace w ++ [EvRead path]))
  /\ forall spelling, String.eqb spelling expected = false ->
       agreed [expected; spelling] = None.
Proof.
  intros Hstat Hlen Hhex Hval. split.
  - destruct (hexdigest_shape data) as [Hdlen Hdhex].
    unfold checkSha256, try_except, mbind, M_bind.
    rewrite (read_file_File _ _ _ Hstat). unfold mret, M_ret.
    rewrite (hex_value_inj expected (SHA256.hexdigest data)) by congruence.
    now rewrite String.eqb_refl.
  - intros spelling Hne. simpl. now rewrite Hne.
Qed.

Lemma checkSha256_ignores_case_witness :
  checkSha256 "/home/u/tars/abc" (Some abc_digest_upper) world_abc
  = (Val true,
     World (fs world_abc) (keyring world_abc)
           (trace world_abc ++ [EvRead "/home/u/tars/abc"]))
  /\ agreed [abc_digest_upper; lower abc_digest_upper] = None.
Proof.
  destruct (checkSha256_ignores_case "/home/u/tars/abc" "abc" abc_digest_upper
              world_abc) as [Hcheck Hagree]; [vm_compute; reflexivity ..|].
  split; [exact Hcheck | apply Hagree; vm_compute; reflexivity].
Defined.

(** ** Normalised paths *)

Definition no_slash (s : string) : bool :=
  forallb_str (fun c => negb (Ascii.eqb c slash)) s.

(** A component as [normpath] keeps it. *)
Definition good_comp (s : string) : bool :=
  no_slash s && negb (String.eqb s "") && negb (String.eqb s ".").

(** A stack of [norm_comps], top first: a [..] lies only at the bottom
    of the stack of a relative path, or on another [..]. *)
Fixpoint normal_stack (rooted : bool) (st : list string) : Prop :=
  match st with
  | [] => True
  | c :: st' =>
      good_comp c = true /\ normal_stack rooted st'
      /\ (c = ".." ->
          rooted = false /\ match st' with [] => True | top :: _ => top = ".." end)
  end.

Lemma split_on_no_slash (s : string) :
  Forall (fun c => no_slash c = true) (split_on slash s).
Proof.
  induction s as [|c s IH]; simpl; [now repeat constructor |].
  destruct (Ascii.eqb_spec c slash) as [->|Hc]; [now constructor |].
  destruct (split_on slash s) as [|h t]; inversion IH; subst; constructor; auto.
  - unfold no_slash. simpl. destruct (Ascii.eqb_spec c slash); simpl; congruence.
  - unfold no_slash in *. simpl.
    destruct (Ascii.eqb_spec c slash); simpl; congruence.
Qed.

Lemma normal_stack_tl (rooted : bool) (st : list string) :
  normal_stack rooted st -> normal_stack rooted (List.tl st).
Proof. destruct st; simpl; tauto. Qed.

Lemma norm_comps_normal (rooted : bool) (comps st : list string) :
  Forall (fun c => no_slash c = true) comps ->
  normal_stack rooted st -> normal_stack rooted (norm_comps rooted comps st).
Proof.
  intros Hcomps. revert st. induction Hcomps as [|c comps Hc _ IH]; intros st Hst;
    simpl; [assumption |].
  destruct (String.eqb_spec c "") as [->|Hne]; simpl; [now apply IH |].
  destruct (String.eqb_spec c ".") as [->|Hnd]; simpl; [now apply IH |].
  assert (Hgood : good_comp c = true).
  { unfold good_comp. rewrite Hc. simpl.
    destruct (String.eqb_spec c ""), (String.eqb_spec c "."); simpl; congruence. }
  destruct (String.eqb_spec c "..") as [->|Hndd]; simpl.
  - destruct st as [|top st']; simpl.
    + destruct rooted; simpl; apply IH; simpl; auto.
    + rewrite andb_false_r. simpl.
      destruct (String.eqb_spec top "..") as [->|Htop].
      * apply IH. simpl in Hst |- *. destruct Hst as (Hg & Hst' & Hdd).
        destruct (Hdd eq_refl) as [Hroot Htop']. repeat split; auto.
      * apply IH. now apply normal_stack_tl in Hst.
  - apply IH. simpl. repeat split; auto; congruence.
Qed.

Lemma normal_stack_suffix (rooted : bool) (a st : list string) :
  normal_stack rooted (a ++ st) -> normal_stack rooted st.
Proof. induction a as [|x a IH]; simpl; [auto | tauto]. Qed.

(** On components that are normal already, [norm_comps] only pushes. *)
Lemma norm_comps_push (rooted : bool) (comps st : list string) :
  normal_stack rooted (List.rev comps ++ st) ->
  norm_comps rooted comps st = List.rev comps ++ st.
Proof.
  revert st. induction comps as [|c comps IH]; intros st Hns; [reflexivity |].
  simpl in Hns. rewrite <- app_assoc in Hns. simpl in Hns.
  pose proof (normal_stack_suffix _ _ _ Hns) as Hc. simpl in Hc.
  destruct Hc as (Hgood & Hst & Hdd).
  unfold good_comp in Hgood.
  apply andb_true_iff in Hgood as [[_ Hne]%andb_true_iff Hnd].
  simpl. apply negb_true_iff in Hne, Hnd. rewrite Hne, Hnd. simpl.
  rewrite <- app_assoc. simpl.
  destruct (String.eqb_spec c "..") as [->|Hndd]; simpl; [|now apply IH].
  destruct (Hdd eq_refl) as [-> Htop].
  destruct st as [|top st']; simpl; [now apply IH |].
  subst top. simpl. now apply IH.
Qed.

Lemma split_on_plain (a : string) : no_slash a = true -> split_on slash a = [a].
Proof.
  unfold no_slash. induction a as [|c a IH]; simpl; [reflexivity |].
  intros [Hc Ha]%andb_true_iff. apply negb_true_iff in Hc. rewrite Hc.
  now rewrite (IH Ha).
Qed.

Lemma split_on_sep (a b : string) :
  no_slash a = true -> split_on slash (a +:+ "/" +:+ b) = a :: split_on slash b.
Proof.
  unfold no_slash. induction a as [|c a IH]; [reflexivity |].
  rewrite append_cons. simpl. intros [Hc Ha]%andb_true_iff.
  apply negb_true_iff in Hc. rewrite Hc. now rewrite (IH Ha).
Qed.

Lemma split_on_join (c : string) (cs : list string) :
  Forall (fun x => no_slash x = true) (c :: cs) ->
  split_on slash (join "/" (c :: cs)) = c :: cs.
Proof.
  revert c. induction cs as [|d cs IH]; intros c Hall.
  - simpl. apply split_on_plain. now inversion Hall.
  - inversion Hall as [|? ? Hc Hrest]; subst.
    change (join "/" (c :: d :: cs)) with (c +:+ "/" +:+ join "/" (d :: cs)).
    now rewrite split_on_sep, IH.
Qed.

Lemma join_head (x : ascii) (c : string) (cs : list string) :
  exists tail, join "/" (String x c :: cs) = String x tail.
Proof.
  destruct cs as [|d cs]; [now exists c |].
  exists (c +:+ "/" +:+ join "/" (d :: cs)). reflexivity.
Qed.

Lemma normal_stack_good (rooted : bool) (st : list string) :
  normal_stack rooted st -> Forall (fun c => good_comp c = true) st.
Proof. induction st; simpl; [constructor | intros (? & ? & _); constructor; auto]. Qed.

Lemma good_comp_head (c : string) :
  good_comp c = true ->
  exists x c', c = String x c' /\ Ascii.eqb x slash = false.
Proof.
  unfold good_comp. destruct c as [|x c']; [discriminate |].
  intros [[Hns _]%andb_true_iff _]%andb_true_iff.
  unfold no_slash in Hns. cbn [forallb_str] in Hns.
  apply andb_true_iff in Hns as [Hx _].
  exists x, c'. split; [reflexivity | now apply negb_true_iff].
Qed.

Lemma good_comp_no_slash (c : string) : good_comp c = true -> no_slash c = true.
Proof.
  unfold good_comp. intros H.
  apply andb_true_iff in H as [H _]. now apply andb_true_iff in H as [H _].
Qed.

(** What [normpath] puts together: the leading slashes and the
    components that are left. *)
Definition assemble (init : string) (comps : list string) : string :=
  if String.eqb (init +:+ join "/" comps) "" then "."
  else init +:+ join "/" comps.

Definition leading_slashes (path : string) : string :=
  if startswith "/" path then
    if startswith "//" path && negb (startswith "///" path) then "//" else "/"
  else "".

Lemma normpath_assemble (p : string) :
  p <> "" ->
  normpath p
  = assemble (leading_slashes p)
             (List.rev (norm_comps (startswith "/" p) (split_on slash p) [])).
Proof.
  intros Hp. unfold normpath, assemble, leading_slashes.
  destruct (String.eqb_spec p ""); [contradiction | reflexivity].
Qed.

Lemma leading_slashes_none (x : ascii) (tail : string) :
  Ascii.eqb "/" x = false ->
  startswith "/" (String x tail) = false
  /\ leading_slashes (String x tail) = "".
Proof.
  intros Hx. unfold leading_slashes. cbn [startswith]. now rewrite Hx.
Qed.

Lemma leading_slashes_one (x : ascii) (tail : string) :
  Ascii.eqb "/" x = false ->
  startswith "/" (String "/" (String x tail)) = true
  /\ leading_slashes (String "/" (String x tail)) = "/".
Proof.
  intros Hx. unfold leading_slashes. cbn [startswith].
  now rewrite Ascii.eqb_refl, Hx.
Qed.

Lemma leading_slashes_two (x : ascii) (tail : string) :
  Ascii.eqb "/" x = false ->
  startswith "/" (String "/" (String "/" (String x tail))) = true
  /\ leading_slashes (String "/" (String "/" (String x tail))) = "//".
Proof.
  intros Hx. unfold leading_slashes. cbn [startswith].
  now rewrite Ascii.eqb_refl, Hx.
Qed.

Lemma split_on_leading_slash (s : string) :
  split_on slash (String "/" s) = EmptyString :: split_on slash s.
Proof. reflexivity. Qed.

Lemma norm_comps_skip_empty (rooted : bool) (comps st : list string) :
  norm_comps rooted (EmptyString :: comps) st = norm_comps rooted comps st.
Proof. reflexivity. Qed.

Lemma normpath_of_normal (init : string) (comps : list string) :
  init = "" \/ init = "/" \/ init = "//" ->
  normal_stack (negb (String.eqb init "")) (List.rev comps) ->
  normpath (assemble init comps) = assemble init comps.
Proof.
  intros Hinit Hns.
  destruct comps as [|c cs].
  { destruct Hinit as [->|[->| ->]]; reflexivity. }
  pose proof (normal_stack_good _ _ Hns) as Hgood.
  apply List.Forall_rev in Hgood. rewrite rev_involutive in Hgood.
  assert (Hplain : Forall (fun x => no_slash x = true) (c :: cs)).
  { eapply List.Forall_impl; [|exact Hgood]. apply good_comp_no_slash. }
  inversion Hgood as [|? ? Hc _]; subst.
  destruct (good_comp_head c Hc) as (x & c' & -> & Hx).
  assert (Hpush : norm_comps (negb (String.eqb init "")) (String x c' :: cs) []
                  = List.rev (String x c' :: cs)).
  { rewrite <- (app_nil_r (List.rev _)). apply norm_comps_push.
    now rewrite app_nil_r. }
  assert (Hx' : Ascii.eqb "/" x = false) by now rewrite Ascii.eqb_sym.
  pose proof (split_on_join _ _ Hplain) as Hsplit.
  destruct (join_head x c' cs) as [tail Htail].
  unfold assemble.
  rewrite Htail in Hsplit |- *.
  destruct Hinit as [->|[->| ->]].
  - change (normpath (String x tail) = String x tail).
    rewrite normpath_assemble by discriminate.
    destruct (leading_slashes_none x tail Hx') as [-> ->].
    simpl (negb _) in Hpush. rewrite Hsplit, Hpush, rev_involutive.
    unfold assemble. rewrite Htail. reflexivity.
  - change (normpath (String "/" (String x tail)) = String "/" (String x tail)).
    rewrite normpath_assemble by discriminate.
    destruct (leading_slashes_one x tail Hx') as [-> ->].
    rewrite split_on_leading_slash, norm_comps_skip_empty.
    simpl (negb _) in Hpush. rewrite Hsplit, Hpush, rev_involutive.
    unfold assemble. rewrite Htail. reflexivity.
  - change (normpath (String "/" (String "/" (String x tail)))
            = String "/" (String "/" (String x tail))).
    rewrite normpath_assemble by discriminate.
    destruct (leading_slashes_two x tail Hx') as [-> ->].
    rewrite !split_on_leading_slash, !norm_comps_skip_empty.
    simpl (negb _) in Hpush. rewrite Hsplit, Hpush, rev_involutive.
    unfold assemble. rewrite Htail. reflexivity.
Qed.

(** [normpath] is idempotent. *)
Lemma normpath_idem (p : string) : normpath (normpath p) = normpath p.
Proof.
  destruct (String.eqb_spec p "") as [->|Hp]; [reflexivity |].
  rewrite (normpath_assemble p Hp).
  apply normpath_of_normal.
  - unfold leading_slashes.
    destruct (startswith "/" p); [|now left].
    destruct (startswith "//" p && negb (startswith "///" p)); auto.
  - rewrite rev_involutive.
    replace (negb (String.eqb (leading_slashes p) "")) with (startswith "/" p).
    + apply norm_comps_normal; [apply split_on_no_slash | exact I].
    + unfold leading_slashes. destruct (startswith "/" p); [|reflexivity].
      now destruct (startswith "//" p && negb (startswith "///" p)).
Qed.

Lemma endswith_slash_cons (c d : ascii) (s : string) :
  endswith "/" (String c (String d s)) = endswith "/" (String d s).
Proof.
  unfold endswith. cbn [String.length Nat.leb Nat.sub andb].
  now rewrite !Nat.sub_0_r.
Qed.

Lemma endswith_slash_append (a b : string) :
  b <> "" -> endswith "/" (a +:+ b) = endswith "/" b.
Proof.
  intros Hb. induction a as [|c a IH]; [reflexivity |].
  rewrite append_cons, <- IH.
  destruct (a +:+ b) as [|d s] eqn:Hab.
  - destruct a; [now rewrite append_nil_l in Hab | now rewrite append_cons in Hab].
  - apply endswith_slash_cons.
Qed.

Lemma endswith_slash_plain (c : string) :
  no_slash c = true -> endswith "/" c = false.
Proof.
  unfold no_slash. induction c as [|x c IH]; [reflexivity |].
  cbn [forallb_str]. intros [Hx Hc]%andb_true_iff.
  destruct c as [|y c]; [|rewrite endswith_slash_cons; now apply IH].
  apply negb_true_iff in Hx. unfold endswith.
  cbn [String.length Nat.leb Nat.sub andb drop_str String.eqb].
  unfold slash in Hx. now rewrite Hx.
Qed.

Lemma join_good (c : string) (cs : list string) :
  Forall (fun x => good_comp x = true) (c :: cs) ->
  join "/" (c :: cs) <> "" /\ endswith "/" (join "/" (c :: cs)) = false.
Proof.
  revert c. induction cs as [|d cs IH]; intros c Hall;
    inversion Hall as [|? ? Hc Hrest]; subst.
  - destruct (good_comp_head c Hc) as (x & c' & -> & _).
    split; [discriminate |].
    apply endswith_slash_plain. now apply good_comp_no_slash.
  - destruct (IH d Hrest) as [Hne Hend].
    change (join "/" (c :: d :: cs)) with (c +:+ "/" +:+ join "/" (d :: cs)).
    destruct (good_comp_head c Hc) as (x & c' & -> & _).
    split; [now rewrite append_cons |].
    rewrite endswith_slash_append.
    + now rewrite endswith_slash_append.
    + now rewrite append_cons.
Qed.

(** A normalised path has no trailing slash, so [lstat] on it reads the
    entry of that name. *)
Lemma normpath_no_trailing_slash (p : string) :
  has_trailing_slash (normpath p) = false.
Proof.
  destruct (String.eqb_spec p "") as [->|Hp]; [reflexivity |].
  rewrite (normpath_assemble p Hp).
  assert (Hns : normal_stack (startswith "/" p)
                  (norm_comps (startswith "/" p) (split_on slash p) []))
    by (apply norm_comps_normal; [apply split_on_no_slash | exact I]).
  apply normal_stack_good, List.Forall_rev in Hns.
  destruct (List.rev _) as [|c cs].
  - unfold leading_slashes.
    destruct (startswith "/" p); [|reflexivity].
    now destruct (startswith "//" p && negb (startswith "///" p)).
  - destruct (join_good c cs Hns) as [Hne Hend].
    unfold assemble, has_trailing_slash.
    destruct (String.eqb_spec (leading_slashes p +:+ join "/" (c :: cs)) "");
      [reflexivity |].
    now rewrite endswith_slash_append, Hend.
Qed.

Lemma lstat_normpath (fs0 : gmap string node) (p : string) :
  lstat fs0 (normpath p) = fs0 !! normpath p.
Proof.
  unfold lstat. now rewrite normpath_no_trailing_slash, normpath_idem.
Qed.

(** ** The link switch *)

(** [makeLink] case by case on the entry found at the normalised
    destination. *)
Lemma makeLink_unfold (src dest : string) (w : world) :
  makeLink src dest w =
  let s := normpath src in
  let d := normpath dest in
  let replace_ :=
    if parent_ok (delete d (fs w)) d
    then (Val tt, after w [EvRemove d; EvSymlink s d])
    else (Exc (OSError FileNotFoundError), after w [EvRemove d]) in
  match fs w !! d with
  | Some (Symlink t) => if String.eqb t s then (Val tt, w) else replace_
  | Some (File _) => replace_
  | Some Dir => (Exc (OSError IsADirectoryError), w)
  | None =>
      if parent_ok (fs w) d then (Val tt, after w [EvSymlink s d])
      else (Exc (OSError FileNotFoundError), w)
  end.
Proof.
  destruct w as [fs0 keys tr]. cbv zeta.
  unfold makeLink, readlink, remove, symlink, islink, lexists, parent_ok, after.
  unfold mbind, M_bind, mret, M_ret, get_fs, commit, raise.
  repeat (progress (cbv beta iota; cbn [fs keyring trace apply_event];
                    rewrite ?lstat_normpath, ?normpath_idem)).
  assert (Ht : True) by exact I.
  destruct (fs0 !! normpath dest) as [[data| |t]|] eqn:Hd; cbn [negb];
    try (clear Ht; destruct (String.eqb t (normpath src)) eqn:Ht);
    repeat (progress (cbv beta iota; cbn [fs keyring trace apply_event negb];
                      rewrite ?lstat_normpath, ?normpath_idem, ?Hd,
                        ?lookup_delete_eq; try rewrite Ht));
    try reflexivity;
    destruct (_ || _);
    cbv beta iota; cbn [replay fold_left apply_event fs keyring trace];
    now rewrite <- ?app_assoc.
Qed.

Lemma makeLink_links (src dest : string) (w w1 : world) :
  makeLink src dest w = (Val tt, w1) ->
  fs w1 !! normpath dest = Some (Symlink (normpath src)).
Proof.
  rewrite makeLink_unfold. cbv zeta. unfold after.
  destruct (fs w !! normpath dest) as [[data| |t]|] eqn:Hd.
  - destruct (parent_ok _ _); intros [= <-]; cbn. apply lookup_insert_eq.
  - discriminate.
  - destruct (String.eqb_spec t (normpath src)) as [->|Hne].
    + now intros [= <-].
    + destruct (parent_ok _ _); intros [= <-]; cbn. apply lookup_insert_eq.
  - destruct (parent_ok _ _); intros [= <-]; cbn. apply lookup_insert_eq.
Qed.

(** C7: after a call of [makeLink] that returned, the same call returns
    again and leaves the world (filesystem and record of operations) as
    it was; the link is the one the first call left, pointing at the
    normalised source. *)
Theorem makeLink_twice (src dest : string) (w w1 : world) :
  makeLink src dest w = (Val tt, w1) ->
  makeLink src dest w1 = (Val tt, w1)
  /\ lstat (fs w1) (normpath dest) = Some (Symlink (normpath src)).
Proof.
  intros Hfirst. pose proof (makeLink_links _ _ _ _ Hfirst) as Hlink.
  split.
  - rewrite makeLink_unfold. cbv zeta. now rewrite Hlink, String.eqb_refl.
  - now rewrite lstat_normpath.
Qed.

Lemma makeLink_twice_witness :
  makeLink lnd_new_dir "/home/u/opt/lnd/current/"
           (after lnd_world [EvRemove lnd_link; EvSymlink lnd_new_dir lnd_link])
  = (Val tt, after lnd_world [EvRemove lnd_link; EvSymlink lnd_new_dir lnd_link])
  /\ lstat (fs (after lnd_world [EvRemove lnd_link; EvSymlink lnd_new_dir lnd_link]))
           lnd_link
     = Some (Symlink lnd_new_dir).
Proof.
  apply (makeLink_twice lnd_new_dir "/home/u/opt/lnd/current/" lnd_world).
  vm_compute. reflexivity.
Defined.

(** C2, as the code has it: a call that finds a link to another target
    and returns has removed the link and then created the new one; once
    the first of the two operations is done no entry is left under the
    link's name, and after the second the link points at the new target. *)
Theorem makeLink_remove_then_symlink (src dest old : string) (w w1 : world) :
  fs w !! normpath dest = Some (Symlink old) ->
  String.eqb old (normpath src) = false ->
  makeLink src dest w = (Val tt, w1) ->
  w1 = after w [EvRemove (normpath dest); EvSymlink (normpath src) (normpath dest)]
  /\ replay [EvRemove (normpath dest)] (fs w) !! normpath dest = None
  /\ fs w1 !! normpath dest = Some (Symlink (normpath src)).
Proof.
  intros Hold Hne Hrun. pose proof (makeLink_links _ _ _ _ Hrun) as Hlink.
  rewrite makeLink_unfold in Hrun. cbv zeta in Hrun. rewrite Hold, Hne in Hrun.
  destruct (parent_ok _ _); [|discriminate].
  injection Hrun as <-. repeat split; [|exact Hlink].
  cbn. apply lookup_delete_eq.
Qed.

Lemma makeLink_remove_then_symlink_witness :
  after lnd_world [EvRemove lnd_link; EvSymlink lnd_new_dir lnd_link]
  = after lnd_world [EvRemove lnd_link; EvSymlink lnd_new_dir lnd_link]
  /\ replay [EvRemove lnd_link] (fs lnd_world) !! lnd_link = None
  /\ fs (after lnd_world [EvRemove lnd_link; EvSymlink lnd_new_dir lnd_link])
       !! lnd_link = Some (Symlink lnd_new_dir).
Proof.
  apply (makeLink_remove_then_symlink lnd_new_dir "/home/u/opt/lnd/current/"
           lnd_old_dir lnd_world);
    vm_compute; reflexivity.
Defined.

(** C2, the claim as stated, fails: switching the lnd link from the old
    release directory to the new one is an [os.remove] followed by an
    [os.symlink], and between the two there is no link. *)
Lemma makeLink_leaves_a_gap :
  fs lnd_world !! lnd_link = Some (Symlink lnd_old_dir)
  /\ makeLink lnd_new_dir "/home/u/opt/lnd/current/" lnd_world
     = (Val tt, after lnd_world [EvRemove lnd_link; EvSymlink lnd_new_dir lnd_link])
  /\ replay [EvRemove lnd_link] (fs lnd_world) !! lnd_link = None.
Proof. vm_compute. repeat split; reflexivity. Qed.

(** ** Fetching *)

Lemma stat_File_inv (fs0 : gmap string node) (path data : string) :
  stat fs0 path = Some (File data) ->
  exists p, realpath fs0 path = Some p /\ fs0 !! p = Some (File data)
            /\ has_trailing_slash path = false.
Proof.
  unfold stat. destruct (realpath fs0 path) as [p|]; [|discriminate].
  destruct (fs0 !! p) as [[d| |t]|] eqn:Hp; try discriminate.
  destruct (has_trailing_slash path); [discriminate |].
  intros [= ->]. now exists p.
Qed.

Lemma getRemoteFileSize_run (E : env) (url : string) (w : world) :
  getRemoteFileSize E url w =
  match head E url with
  | None => (Val (-1)%Z, after w [EvHead url])
  | Some None => (Exc TypeError, after w [EvHead url])
  | Some (Some n) => (Val n, after w [EvHead url])
  end.
Proof.
  unfold getRemoteFileSize, try_except, http_head, commit, after.
  unfold mbind, M_bind, mret, M_ret, raise. cbn.
  destruct (head E url) as [[n|]|]; reflexivity.
Qed.

Lemma write_file_existing (path p old data : string) (mode : open_mode) (w : world) :
  realpath (fs w) path = Some p -> fs w !! p = Some (File old) ->
  write_file path mode data w = (Val tt, after w [EvWrite p mode data]).
Proof.
  intros Hp Hold. unfold write_file, get_fs, commit, after.
  unfold mbind, M_bind. now rewrite Hp, Hold.
Qed.

Lemma saveRemoteFile_resume (E : env) (url path data : string) (w : world) :
  stat (fs w) path = Some (File data) ->
  exists p, realpath (fs w) path = Some p /\ fs w !! p = Some (File data) /\
  saveRemoteFile E url path true w =
  match head E url with
  | Some None => (Exc TypeError, after w [EvHead url])
  | Some (Some m) =>
      if (Z.of_nat (String.length data) <? m)%Z
      then resumed_get E url p (Some (Z.of_nat (String.length data))) w
      else if (Z.of_nat (String.length data) =? m)%Z
           then (Val tt, after w [EvHead url])
           else resumed_get E url p None w
  | None => resumed_get E url p None w
  end.
Proof.
  intros Hstat. destruct (stat_File_inv _ _ _ Hstat) as (p & Hp & Hdata & Hslash).
  exists p. split; [exact Hp |]. split; [exact Hdata |].
  assert (Hwrite : forall r body,
    write_file path ModeAppend body (after w [EvHead url; EvGet url r])
    = (Val tt, after w [EvHead url; EvGet url r; EvWrite p ModeAppend body])).
  { intros r body.
    rewrite (write_file_existing path p data) by assumption.
    unfold after. cbn. now rewrite <- app_assoc. }
  assert (Hget : forall r,
    download E url path true r (after w [EvHead url])
    = match get E url with
      | None => (Exc URLError, after w [EvHead url; EvGet url r])
      | Some body =>
          (Val tt,
           after w [EvHead url; EvGet url r;
                    EvWrite p ModeAppend
                      match r with
                      | Some n => drop_str (Z.to_nat n) body
                      | None => body
                      end])
      end).
  { intros r. unfold download, urlopen.
    unfold mbind, M_bind, mret, M_ret, commit, raise.
    replace (World _ _ _) with (after w [EvHead url; EvGet url r])
      by (unfold after; cbn; now rewrite <- app_assoc).
    destruct (get E url) as [body|]; [|reflexivity].
    now rewrite Hwrite. }
  unfold saveRemoteFile, try_except, st_size, log, isfile.
  unfold mbind, M_bind, mret, M_ret, get_fs.
  cbv beta iota. cbn [andb]. rewrite !Hstat. cbv beta iota.
  rewrite getRemoteFileSize_run. unfold resumed_get.
  destruct (head E url) as [[m|]|].
  - destruct (Z.ltb_spec (Z.of_nat (String.length data)) m).
    + rewrite Hget. now destruct (get E url).
    + destruct (Z.eqb_spec (Z.of_nat (String.length data)) m); [reflexivity |].
      rewrite Hget. now destruct (get E url).
  - reflexivity.
  - destruct (Z.ltb_spec (Z.of_nat (String.length data)) (-1)); [lia |].
    destruct (Z.eqb_spec (Z.of_nat (String.length data)) (-1)); [lia |].
    rewrite Hget. now destruct (get E url).
Qed.

Lemma first_link_insert_file
    (fs0 : gmap string node) (p old data acc : string) (comps : list string) :
  fs0 !! p = Some (File old) ->
  first_link (<[p := File data]> fs0) acc comps = first_link fs0 acc comps.
Proof.
  intros Hold. revert acc. induction comps as [|c rest IH]; intros acc; [reflexivity |].
  cbn [first_link]. rewrite lookup_insert.
  destruct (decide (p = child acc c)) as [<-|Hne]; [rewrite Hold |]; now rewrite IH.
Qed.

Lemma realpath_insert_file (fs0 : gmap string node) (p old data path : string) :
  fs0 !! p = Some (File old) ->
  realpath (<[p := File data]> fs0) path = realpath fs0 path.
Proof.
  intros Hold. unfold realpath. generalize 41%nat as fuel. intros fuel. revert path.
  induction fuel as [|fuel IH]; intros path; [reflexivity |].
  cbn [realpath_fuel]. rewrite (first_link_insert_file _ _ _ _ _ _ Hold).
  destruct (first_link _ _ _) as [[t rest]|]; [apply IH | reflexivity].
Qed.

(** Appending leaves the file where it is and extends its contents. *)
Lemma stat_after_append (fs0 : gmap string node) (path p old body : string) :
  realpath fs0 path = Some p -> fs0 !! p = Some (File old) ->
  has_trailing_slash path = false ->
  stat (apply_event (EvWrite p ModeAppend body) fs0) path = Some (File (old +:+ body)).
Proof.
  intros Hp Hold Hslash. cbn [apply_event]. rewrite Hold. unfold stat.
  rewrite (realpath_insert_file _ _ _ _ _ Hold), Hp, lookup_insert_eq.
  now rewrite Hslash.
Qed.

Lemma checkSha256_File (path data expected : string) (w : world) :
  stat (fs w) path = Some (File data) ->
  checkSha256 path (Some expected) w
  = (Val (String.eqb (lower (SHA256.hexdigest data)) (lower expected)),
     after w [EvRead path]).
Proof.
  intros Hstat. unfold checkSha256, try_except, mbind, M_bind.
  now rewrite (read_file_File _ _ _ Hstat).
Qed.

Lemma after_after (w : world) (a b : list event) :
  after (after w a) b = after w (a ++ b).
Proof.
  unfold after, replay. cbn [fs keyring trace].
  now rewrite fold_left_app, <- app_assoc.
Qed.

Lemma recheck_after_get
    (E : env) (checksum path url p data : string) (r : option Z) (w : world) :
  realpath (fs w) path = Some p -> fs w !! p = Some (File data) ->
  has_trailing_slash path = false ->
  match resumed_get E url p r w with
  | (Val _, w2) => checkSha256 path (Some checksum) w2
  | (Exc e, w2) => (Exc e, w2)
  end
  = match get E url with
    | None =>
        (Exc (SystemExit (ExitMsg "##### FAILED #####")),
         after w [EvHead url; EvGet url r])
    | Some body =>
        (Val (String.eqb (lower (SHA256.hexdigest (data +:+ ranged r body)))
                         (lower checksum)),
         after w [EvHead url; EvGet url r; EvWrite p ModeAppend (ranged r body);
                  EvRead path])
    end.
Proof.
  intros Hp Hdata Hslash. unfold resumed_get.
  destruct (get E url) as [body|]; [|reflexivity].
  fold (ranged r body).
  rewrite (checkSha256_File path (data +:+ ranged r body)).
  - now rewrite after_after.
  - unfold after. cbn [fs].
    change (replay [EvHead url; EvGet url r; EvWrite p ModeAppend (ranged r body)]
                   (fs w))
      with (apply_event (EvWrite p ModeAppend (ranged r body)) (fs w)).
    now apply stat_after_append.
Qed.

Lemma Val_inj {A : Type} (a b : A) : @Val A a = Val b -> a = b.
Proof. now intros [= ->]. Qed.

(** C4, as the code has it, for a server that announces a size not below
    the cached file's.  A cached archive that does not match is fetched
    once with resume switched on, not written over: after the HEAD
    request nothing more is requested when the sizes are equal, and a
    shorter file is completed by one range request from its length on,
    whose body is appended at the file's resolved place [p].  The file
    is then read and hashed once more and the answer is that second
    comparison, so a second mismatch is False; a failed GET ends the
    script before it. *)
Theorem verifyChecksum_retry
    (E : env) (checksum path url data : string) (m : Z) (w : world) :
  stat (fs w) path = Some (File data) ->
  String.eqb (lower (SHA256.hexdigest data)) (lower checksum) = false ->
  head E url = Some (Some m) ->
  (Z.of_nat (String.length data) <= m)%Z ->
  exists p : string,
    realpath (fs w) path = Some p
    /\ verifyChecksum E (Some checksum) path url w
       = if (Z.of_nat (String.length data) =? m)%Z
         then (Val false, after w [EvRead path; EvHead url; EvRead path])
         else
           match get E url with
           | None =>
               (Exc (SystemExit (ExitMsg "##### FAILED #####")),
                after w [EvRead path; EvHead url;
                         EvGet url (Some (Z.of_nat (String.length data)))])
           | Some body =>
               (Val (String.eqb
                       (lower (SHA256.hexdigest
                                 (data +:+ drop_str (String.length data) body)))
                       (lower checksum)),
                after w [EvRead path; EvHead url;
                         EvGet url (Some (Z.of_nat (String.length data)));
                         EvWrite p ModeAppend (drop_str (String.length data) body);
                         EvRead path])
           end.
Proof.
  intros Hstat Hne Hhead Hle.
  destruct (saveRemoteFile_resume E url path data (after w [EvRead path]) Hstat)
    as (p & Hp & Hdata & Hsave).
  destruct (stat_File_inv _ _ _ Hstat) as (p' & Hp' & _ & Hslash).
  change (fs (after w [EvRead path])) with (fs w) in Hp, Hdata.
  exists p. split; [exact Hp |].
  assert (Hrun : verifyChecksum E (Some checksum) path url w
    = match saveRemoteFile E url path true (after w [EvRead path]) with
      | (Val _, w2) => checkSha256 path (Some checksum) w2
      | (Exc e, w2) => (Exc e, w2)
      end).
  { unfold verifyChecksum. unfold mbind at 1, M_bind at 1.
    rewrite (checkSha256_File _ _ _ _ Hstat), Hne. reflexivity. }
  rewrite Hrun, Hsave, Hhead. clear Hrun Hsave.
  destruct (Z.eqb_spec (Z.of_nat (String.length data)) m) as [Heq | Hneq].
  - destruct (Z.ltb_spec (Z.of_nat (String.length data)) m); [lia |].
    rewrite (checkSha256_File path data) by exact Hstat.
    now rewrite !after_after, Hne.
  - destruct (Z.ltb_spec (Z.of_nat (String.length data)) m); [| lia].
    rewrite (recheck_after_get E checksum path url p data) by assumption.
    unfold ranged. rewrite Nat2Z.id.
    destruct (get E url) as [body|]; now rewrite !after_after.
Qed.

Lemma verifyChecksum_retry_witness :
  exists p : string,
    realpath (fs (lnd_world_with lnd_partial)) lnd_archive_path = Some p
    /\ verifyChecksum lnd_env (Some (SHA256.hexdigest lnd_archive))
                      lnd_archive_path lnd_archive_url (lnd_world_with lnd_partial)
       = if (Z.of_nat (String.length lnd_partial) =? 24)%Z
         then (Val false,
               after (lnd_world_with lnd_partial)
                     [EvRead lnd_archive_path; EvHead lnd_archive_url;
                      EvRead lnd_archive_path])
         else
           match get lnd_env lnd_archive_url with
           | None =>
               (Exc (SystemExit (ExitMsg "##### FAILED #####")),
                after (lnd_world_with lnd_partial)
                      [EvRead lnd_archive_path; EvHead lnd_archive_url;
                       EvGet lnd_archive_url
                             (Some (Z.of_nat (String.length lnd_partial)))])
           | Some body =>
               (Val (String.eqb
                       (lower (SHA256.hexdigest
                                 (lnd_partial
                                  +:+ drop_str (String.length lnd_partial) body)))
                       (lower (SHA256.hexdigest lnd_archive))),
                after (lnd_world_with lnd_partial)
                      [EvRead lnd_archive_path; EvHead lnd_archive_url;
                       EvGet lnd_archive_url
                             (Some (Z.of_nat (String.length lnd_partial)));
                       EvWrite p ModeAppend
                               (drop_str (String.length lnd_partial) body);
                       EvRead lnd_archive_path])
           end.
Proof.
  apply (verifyChecksum_retry lnd_env (SHA256.hexdigest lnd_archive)
           lnd_archive_path lnd_archive_url lnd_partial 24%Z);
    vm_compute; solve [reflexivity | discriminate].
Defined.

(** C4, the claim as stated, fails: with a cached archive of the
    published length and a damaged byte, nothing is downloaded (the
    operations are a read, a HEAD request and a second read), the file
    stays as it was, and the answer is False. *)
Lemma verifyChecksum_downloads_nothing :
  verifyChecksum lnd_env (Some (SHA256.hexdigest lnd_archive))
                 lnd_archive_path lnd_archive_url (lnd_world_with lnd_damaged)
  = (Val false,
     after (lnd_world_with lnd_damaged)
           [EvRead lnd_archive_path; EvHead lnd_archive_url; EvRead lnd_archive_path])
  /\ fs (after (lnd_world_with lnd_damaged)
               [EvRead lnd_archive_path; EvHead lnd_archive_url;
                EvRead lnd_archive_path]) !! lnd_archive_path
     = Some (File lnd_damaged).
Proof. vm_compute. split; reflexivity. Qed.

(** ** The defects, each at a concrete input *)

(** C5: with resume switched on and a cached file longer than the
    published one, the whole body is requested and then appended to the
    cached bytes; the file is not overwritten. *)
Theorem saveRemoteFile_appends_whole_body :
  stat (fs (lnd_world_with lnd_overlong)) lnd_archive_path = Some (File lnd_overlong)
  /\ head lnd_env lnd_archive_url = Some (Some 24%Z)
  /\ saveRemoteFile lnd_env lnd_archive_url lnd_archive_path true
                    (lnd_world_with lnd_overlong)
     = (Val tt,
        after (lnd_world_with lnd_overlong)
              [EvHead lnd_archive_url; EvGet lnd_archive_url None;
               EvWrite lnd_archive_path ModeAppend lnd_archive])
  /\ fs (after (lnd_world_with lnd_overlong)
               [EvHead lnd_archive_url; EvGet lnd_archive_url None;
                EvWrite lnd_archive_path ModeAppend lnd_archive])
       !! lnd_archive_path
     = Some (File (lnd_overlong +:+ lnd_archive)).
Proof. vm_compute. repeat split; reflexivity. Qed.

(** C3: the signature of the manifest verifies, the manifest has no line
    for the archive, the archive is in the cache: [getExpectedChecksum]
    answers [None], and [getValidatedArchive] ends in the AttributeError
    of [None.lower()]. *)
Theorem getValidatedArchive_unlisted_raises :
  getExpectedChecksum lnd_manifest_path lnd_archive_name lnd_world_unlisted
  = (Val None, after lnd_world_unlisted [EvRead lnd_manifest_path])
  /\ getValidatedArchive lnd_env "v0.5-beta" "amd64" LND lnd_world_unlisted
     = (Exc AttributeError,
        after lnd_world_unlisted [EvRead lnd_manifest_path; EvRead lnd_archive_path]).
Proof. vm_compute. split; reflexivity. Qed.

(** C8: a file that [tarfile] cannot read as an archive makes
    [installTar] end in [tarfile.ReadError]; the target directory has
    been created and is empty. *)
Theorem installTar_propagates_ReadError :
  tar_members lnd_env lnd_damaged = None
  /\ installTar lnd_env lnd_archive_path lnd_inst_dir (lnd_world_with lnd_damaged)
     = (Exc ReadError,
        after (lnd_world_with lnd_damaged)
              [EvMkdir (lnd_root +:+ lnd_new_dir); EvRead lnd_archive_path]).
Proof. vm_compute. split; reflexivity. Qed.

(** C1: [updateLnd] installs release v0.5-beta, whose expected version
    is 0.5.0-beta.  The program it runs for the check after extraction is
    the one behind the old link; the extracted [lnd] is never run, the
    link is switched, and the binary it then leads to reports
    0.5.0-beta-rc2. *)
Theorem updateLnd_switches_without_check :
  updateLnd lnd_env lnd_world
  = (Val ("0.5.0-beta", Some "0.5.0-beta"), after lnd_world lnd_update_trace)
  /\ fs (after lnd_world lnd_update_trace) !! lnd_link = Some (Symlink lnd_new_dir)
  /\ (getInstalledLndDaemonVersion lnd_env lnd_inst_dir
        (after lnd_world lnd_update_trace)).1
     = Val (Some "0.5.0-beta-rc2").
Proof. vm_compute. repeat split; reflexivity. Qed.

(** * Further properties of the script *)

(** ** [makeLink] *)

Lemma fs_after_other (w : world) (evs : list event) (d k : string) :
  Forall (fun ev => ev = EvRemove d \/ exists t, ev = EvSymlink t d) evs ->
  k <> d -> fs (after w evs) !! k = fs w !! k.
Proof.
  unfold after. cbn [fs]. intros Hevs Hk. revert w.
  induction Hevs as [|ev evs Hev _ IH]; intros w; [reflexivity |].
  cbn [replay fold_left]. fold (replay evs (apply_event ev (fs w))).
  specialize (IH (World (apply_event ev (fs w)) (keyring w) (trace w))).
  cbn [fs] in IH. rewrite IH.
  destruct Hev as [->|[t ->]]; cbn [apply_event].
  - now apply lookup_delete_ne.
  - now apply lookup_insert_ne.
Qed.

Lemma makeLink_elsewhere (src dest k : string) (w w1 : world) (r : outcome unit) :
  makeLink src dest w = (r, w1) ->
  k <> normpath dest ->
  fs w1 !! k = fs w !! k.
Proof.
  rewrite makeLink_unfold. cbv zeta. intros Hrun Hk.
  assert (Hcase : w1 = w \/ exists evs, w1 = after w evs /\
            Forall (fun ev => ev = EvRemove (normpath dest)
                              \/ exists t, ev = EvSymlink t (normpath dest)) evs).
  { assert (Hrm : forall evs, evs = [EvRemove (normpath dest)]
               \/ evs = [EvSymlink (normpath src) (normpath dest)]
               \/ evs = [EvRemove (normpath dest);
                         EvSymlink (normpath src) (normpath dest)] ->
             Forall (fun ev => ev = EvRemove (normpath dest)
                               \/ exists t, ev = EvSymlink t (normpath dest)) evs).
    { intros evs [->|[->| ->]];
        repeat (apply List.Forall_cons; [eauto |]); apply List.Forall_nil. }
    destruct (fs w !! normpath dest) as [[data| |t]|].
    - destruct (parent_ok _ _); injection Hrun as _ <-; right; eauto 6.
    - injection Hrun as _ <-. now left.
    - destruct (String.eqb t (normpath src)); [injection Hrun as _ <-; now left |].
      destruct (parent_ok _ _); injection Hrun as _ <-; right; eauto 6.
    - destruct (parent_ok _ _); injection Hrun as _ <-; [right; eauto 6 | now left]. }
  destruct Hcase as [->|(evs & -> & Hevs)]; [reflexivity |].
  now apply (fs_after_other w evs (normpath dest)).
Qed.

(** X1: whatever [makeLink] does and however it ends, every entry of the
    filesystem other than the normalised destination stays as it was. *)
Theorem makeLink_frame (src dest k : string) (w w1 : world) (r : outcome unit) :
  makeLink src dest w = (r, w1) ->
  k <> normpath dest ->
  fs w1 !! k = fs w !! k.
Proof. exact (makeLink_elsewhere src dest k w w1 r). Qed.

Lemma makeLink_frame_witness :
  fs (after lnd_world [EvRemove lnd_link; EvSymlink lnd_new_dir lnd_link])
     !! "/home/u/bin/lnd"
  = fs lnd_world !! "/home/u/bin/lnd".
Proof.
  apply (makeLink_frame lnd_new_dir "/home/u/opt/lnd/current/" "/home/u/bin/lnd"
           lnd_world _ (Val tt)); [vm_compute; reflexivity | discriminate].
Defined.

(** X2: where nothing exists under the destination's name and its
    directory does, [makeLink] is a single [os.symlink]; where a regular
    file is in the way it is removed first; a directory in the way makes
    the call end in IsADirectoryError with nothing changed. *)
Theorem makeLink_by_entry (src dest : string) (w : world) :
  (fs w !! normpath dest = None -> parent_ok (fs w) (normpath dest) = true ->
   makeLink src dest w
   = (Val tt, after w [EvSymlink (normpath src) (normpath dest)]))
  /\ (forall data, fs w !! normpath dest = Some (File data) ->
      parent_ok (delete (normpath dest) (fs w)) (normpath dest) = true ->
      makeLink src dest w
      = (Val tt, after w [EvRemove (normpath dest);
                          EvSymlink (normpath src) (normpath dest)]))
  /\ (fs w !! normpath dest = Some Dir ->
      makeLink src dest w = (Exc (OSError IsADirectoryError), w)).
Proof.
  rewrite makeLink_unfold. cbv zeta. repeat split.
  - now intros -> ->.
  - now intros data -> ->.
  - now intros ->.
Qed.

Lemma makeLink_by_entry_witness :
  makeLink "/home/u/opt/lnd/current/lnd" "/home/u/bin/lnd-new" lnd_world
  = (Val tt, after lnd_world [EvSymlink "/home/u/opt/lnd/current/lnd"
                                        "/home/u/bin/lnd-new"])
  /\ makeLink "x" "/home/u/tars/manifest-v0.5-beta.txt" lnd_world
     = (Val tt, after lnd_world [EvRemove "/home/u/tars/manifest-v0.5-beta.txt";
                                 EvSymlink "x" "/home/u/tars/manifest-v0.5-beta.txt"])
  /\ makeLink "x" "/home/u/tars/" lnd_world = (Exc (OSError IsADirectoryError), lnd_world).
Proof.
  destruct (makeLink_by_entry "/home/u/opt/lnd/current/lnd" "/home/u/bin/lnd-new"
              lnd_world) as (Hnew & _ & _).
  destruct (makeLink_by_entry "x" "/home/u/tars/manifest-v0.5-beta.txt" lnd_world)
    as (_ & Hfile & _).
  destruct (makeLink_by_entry "x" "/home/u/tars/" lnd_world) as (_ & _ & Hdir).
  split; [apply Hnew; vm_compute; reflexivity |].
  split; [apply (Hfile lnd_manifest); vm_compute; reflexivity |].
  apply Hdir. vm_compute. reflexivity.
Defined.

(** X3: when [makeLink] returns, the destination is a symbolic link whose
    stored target is the normalised source, whatever was there before. *)
Theorem makeLink_establishes (src dest : string) (w w1 : world) :
  makeLink src dest w = (Val tt, w1) ->
  islink (fs w1) (normpath dest) = true
  /\ readlink (normpath dest) w1 = (Val (normpath src), w1).
Proof.
  intros Hrun. pose proof (makeLink_links _ _ _ _ Hrun) as Hlink.
  unfold islink, readlink, mbind, M_bind, get_fs.
  now rewrite lstat_normpath, Hlink.
Qed.

Lemma makeLink_establishes_witness :
  islink (fs (after lnd_world [EvRemove lnd_link; EvSymlink lnd_new_dir lnd_link]))
         lnd_link = true
  /\ readlink lnd_link (after lnd_world [EvRemove lnd_link; EvSymlink lnd_new_dir lnd_link])
     = (Val lnd_new_dir,
        after lnd_world [EvRemove lnd_link; EvSymlink lnd_new_dir lnd_link]).
Proof.
  apply (makeLink_establishes lnd_new_dir "/home/u/opt/lnd/current/" lnd_world).
  vm_compute. reflexivity.
Defined.

(** ** [saveRemoteFile] *)

Lemma take_drop (n : nat) (s : string) : take n s +:+ drop_str n s = s.
Proof.
  revert s. induction n as [|n IH]; intros [|c s]; try reflexivity.
  cbn [take drop_str]. now rewrite append_cons, IH.
Qed.

(** X4: in resume mode, a local file that already has the size the
    server announces is left alone: the only operation is the HEAD
    request, and the call returns. *)
Theorem saveRemoteFile_same_size (E : env) (url path data : string) (w : world) :
  stat (fs w) path = Some (File data) ->
  head E url = Some (Some (Z.of_nat (String.length data))) ->
  saveRemoteFile E url path true w = (Val tt, after w [EvHead url]).
Proof.
  intros Hstat Hhead.
  destruct (saveRemoteFile_resume E url path data w Hstat) as (p & _ & _ & ->).
  rewrite Hhead, Z.ltb_irrefl, Z.eqb_refl. reflexivity.
Qed.

Lemma saveRemoteFile_same_size_witness :
  saveRemoteFile lnd_env lnd_archive_url lnd_archive_path true lnd_world
  = (Val tt, after lnd_world [EvHead lnd_archive_url]).
Proof.
  apply (saveRemoteFile_same_size lnd_env lnd_archive_url lnd_archive_path lnd_archive);
    vm_compute; reflexivity.
Defined.

(** X5: in resume mode, a local file shorter than the announced size is
    completed by one range request from its length on, whose body is
    appended; when the local bytes are the beginning of what the server
    holds, the file ends up equal to it. *)
Theorem saveRemoteFile_completes (E : env) (url path data body : string) (m : Z)
    (w : world) :
  stat (fs w) path = Some (File data) ->
  head E url = Some (Some m) ->
  (Z.of_nat (String.length data) < m)%Z ->
  get E url = Some body ->
  exists p w',
    realpath (fs w) path = Some p
    /\ saveRemoteFile E url path true w = (Val tt, w')
    /\ w' = after w [EvHead url;
                     EvGet url (Some (Z.of_nat (String.length data)));
                     EvWrite p ModeAppend (drop_str (String.length data) body)]
    /\ stat (fs w') path
       = Some (File (data +:+ drop_str (String.length data) body))
    /\ (data = take (String.length data) body -> stat (fs w') path = Some (File body)).
Proof.
  intros Hstat Hhead Hlt Hget.
  destruct (saveRemoteFile_resume E url path data w Hstat) as (p & Hp & Hdata & Hrun).
  destruct (stat_File_inv _ _ _ Hstat) as (_ & _ & _ & Hslash).
  exists p. eexists. split; [exact Hp |].
  rewrite Hrun, Hhead. apply Z.ltb_lt in Hlt. rewrite Hlt.
  unfold resumed_get. rewrite Hget, Nat2Z.id.
  split; [reflexivity |]. split; [reflexivity |].
  assert (Hfile : stat (fs (after w [EvHead url;
                     EvGet url (Some (Z.of_nat (String.length data)));
                     EvWrite p ModeAppend (drop_str (String.length data) body)])) path
                  = Some (File (data +:+ drop_str (String.length data) body))).
  { unfold after. cbn [fs].
    change (replay _ (fs w))
      with (apply_event (EvWrite p ModeAppend (drop_str (String.length data) body))
                        (fs w)).
    now apply stat_after_append. }
  split; [exact Hfile |].
  intros Hprefix. rewrite Hfile. rewrite Hprefix at 1. now rewrite take_drop.
Qed.

Lemma saveRemoteFile_completes_witness :
  exists p w',
    realpath (fs (lnd_world_with lnd_partial)) lnd_archive_path = Some p
    /\ saveRemoteFile lnd_env lnd_archive_url lnd_archive_path true
                      (lnd_world_with lnd_partial) = (Val tt, w')
    /\ w' = after (lnd_world_with lnd_partial)
                  [EvHead lnd_archive_url;
                   EvGet lnd_archive_url (Some (Z.of_nat (String.length lnd_partial)));
                   EvWrite p ModeAppend
                           (drop_str (String.length lnd_partial) lnd_archive)]
    /\ stat (fs w') lnd_archive_path
       = Some (File (lnd_partial
                     +:+ drop_str (String.length lnd_partial) lnd_archive))
    /\ (lnd_partial = take (String.length lnd_partial) lnd_archive ->
        stat (fs w') lnd_archive_path = Some (File lnd_archive)).
Proof.
  apply (saveRemoteFile_completes lnd_env lnd_archive_url lnd_archive_path
           lnd_partial lnd_archive 24%Z); vm_compute; reflexivity.
Defined.

(** X6: without resume the file is fetched whole and written over: one
    GET without range and no HEAD request, after which the file holds
    exactly the body, whether it existed before or is new in an existing
    directory. *)
Theorem saveRemoteFile_overwrites (E : env) (url path p body : string) (w : world) :
  realpath (fs w) path = Some p ->
  (exists old, fs w !! p = Some (File old))
  \/ (fs w !! p = None /\ has_trailing_slash path = false
      /\ parent_ok (fs w) p = true) ->
  get E url = Some body ->
  saveRemoteFile E url path false w
  = (Val tt, after w [EvGet url None; EvWrite p ModeWrite body])
  /\ fs (after w [EvGet url None; EvWrite p ModeWrite body]) !! p = Some (File body).
Proof.
  intros Hp Hentry Hget. split; [|apply lookup_insert_eq].
  unfold saveRemoteFile, try_except, download, urlopen, write_file, log.
  unfold mbind, M_bind, mret, M_ret, get_fs, commit, raise.
  cbv beta iota. cbn [andb fs keyring trace apply_event]. rewrite Hget.
  cbv beta iota. cbn [fs keyring trace apply_event]. rewrite Hp.
  unfold parent_ok in Hentry.
  destruct Hentry as [[old ->]|(-> & -> & ->)];
    unfold after; cbn; now rewrite <- app_assoc.
Qed.

Lemma saveRemoteFile_overwrites_witness :
  saveRemoteFile lnd_env lnd_archive_url lnd_archive_path false
                 (lnd_world_with lnd_overlong)
  = (Val tt,
     after (lnd_world_with lnd_overlong)
           [EvGet lnd_archive_url None; EvWrite lnd_archive_path ModeWrite lnd_archive])
  /\ fs (after (lnd_world_with lnd_overlong)
               [EvGet lnd_archive_url None;
                EvWrite lnd_archive_path ModeWrite lnd_archive]) !! lnd_archive_path
     = Some (File lnd_archive).
Proof.
  apply (saveRemoteFile_overwrites lnd_env lnd_archive_url lnd_archive_path
           lnd_archive_path lnd_archive);
    [vm_compute; reflexivity | left; exists lnd_overlong; vm_compute; reflexivity
    | vm_compute; reflexivity].
Defined.

(** X7: when the GET fails, [saveRemoteFile] does not return to its
    caller: the URLError is caught and [log] leaves the script with
    the FAILED message.  The filesystem is as before. *)
Theorem saveRemoteFile_failure_exits (E : env) (url path : string) (resume : bool)
    (w : world) :
  resume && isfile (fs w) path = false ->
  get E url = None ->
  saveRemoteFile E url path resume w
  = (Exc (SystemExit (ExitMsg "##### FAILED #####")), after w [EvGet url None]).
Proof.
  intros Hmode Hget.
  unfold saveRemoteFile, try_except, download, urlopen, log.
  unfold mbind, M_bind, mret, M_ret, get_fs, commit, raise.
  cbv beta iota. rewrite Hmode. cbv beta iota. rewrite Hget. reflexivity.
Qed.

Lemma saveRemoteFile_failure_exits_witness :
  saveRemoteFile lnd_env "https://example.invalid/x" lnd_archive_path false lnd_world
  = (Exc (SystemExit (ExitMsg "##### FAILED #####")),
     after lnd_world [EvGet "https://example.invalid/x" None]).
Proof.
  apply saveRemoteFile_failure_exits; vm_compute; reflexivity.
Defined.

(** ** [checkSha256] and [verifyChecksum] *)

Lemma pair_inv {A B : Type} (a a' : A) (b b' : B) :
  (a, b) = (a', b') -> a = a' /\ b = b'.
Proof. now intros [= -> ->]. Qed.

Lemma checkSha256_cases (path : string) (sha256sum : option string) (w : world) :
  checkSha256 path sha256sum w =
  match stat (fs w) path, sha256sum with
  | Some (File data), Some s =>
      (Val (String.eqb (lower (SHA256.hexdigest data)) (lower s)),
       after w [EvRead path])
  | Some (File data), None => (Exc AttributeError, after w [EvRead path])
  | _, _ => (Val false, w)
  end.
Proof.
  unfold checkSha256, try_except, read_file, after.
  unfold mbind, M_bind, mret, M_ret, get_fs, commit, raise. cbv beta iota.
  destruct (stat (fs w) path) as [[data| |t]|]; try reflexivity.
  now destruct sha256sum.
Qed.

(** X8: a file that cannot be read as a regular file (missing, or a
    directory) makes [checkSha256] answer False, whatever the expected
    digest is, [None] included, and nothing is recorded or changed. *)
Theorem checkSha256_unreadable (path : string) (sha256sum : option string) (w : world) :
  isfile (fs w) path = false ->
  checkSha256 path sha256sum w = (Val false, w).
Proof.
  unfold isfile. intros Hfile. rewrite checkSha256_cases.
  now destruct (stat (fs w) path) as [[data| |t]|].
Qed.

Lemma checkSha256_unreadable_witness :
  checkSha256 "/home/u/tars/missing.tar.gz" None lnd_world = (Val false, lnd_world).
Proof. apply checkSha256_unreadable. vm_compute. reflexivity. Defined.

(** X9: a cached archive whose digest matches is accepted at once:
    [verifyChecksum] answers True after reading the file, without any
    request to the server. *)
Theorem verifyChecksum_accepts_cache (E : env) (checksum path url data : string)
    (w : world) :
  stat (fs w) path = Some (File data) ->
  String.eqb (lower (SHA256.hexdigest data)) (lower checksum) = true ->
  verifyChecksum E (Some checksum) path url w = (Val true, after w [EvRead path]).
Proof.
  intros Hstat Heq. unfold verifyChecksum, mbind, M_bind.
  now rewrite checkSha256_cases, Hstat, Heq.
Qed.

Lemma verifyChecksum_accepts_cache_witness :
  verifyChecksum lnd_env (Some (SHA256.hexdigest lnd_archive)) lnd_archive_path
                 lnd_archive_url lnd_world
  = (Val true, after lnd_world [EvRead lnd_archive_path]).
Proof.
  apply (verifyChecksum_accepts_cache lnd_env _ _ _ lnd_archive);
    vm_compute; reflexivity.
Defined.

Lemma checkSha256_true (path : string) (sha256sum : option string) (w w' : world) :
  checkSha256 path sha256sum w = (Val true, w') ->
  exists h content,
    sha256sum = Some h
    /\ stat (fs w) path = Some (File content)
    /\ lower (SHA256.hexdigest content) = lower h
    /\ fs w' = fs w.
Proof.
  rewrite checkSha256_cases.
  destruct (stat (fs w) path) as [[data| |t]|]; try discriminate.
  destruct sha256sum as [h|]; [|discriminate].
  intros Hrun. apply pair_inv in Hrun as [Hval <-].
  apply Val_inj in Hval. exists h, data.
  repeat split; [now apply String.eqb_eq].
Qed.

Lemma verifyChecksum_true (E : env) (checksum : option string) (path url : string)
    (w w' : world) :
  verifyChecksum E checksum path url w = (Val true, w') ->
  exists h content,
    checksum = Some h
    /\ stat (fs w') path = Some (File content)
    /\ lower (SHA256.hexdigest content) = lower h.
Proof.
  unfold verifyChecksum. unfold mbind at 1, M_bind at 1.
  destruct (checkSha256 path checksum w) as [[[|]|e] w1] eqn:Hfirst.
  - intros Hrun. apply pair_inv in Hrun as [_ <-].
    destruct (checkSha256_true _ _ _ _ Hfirst) as (h & content & -> & Hstat & Hd & Hfs).
    exists h, content. now rewrite Hfs.
  - unfold mbind, M_bind.
    destruct (saveRemoteFile E url path true w1) as [[[]|e] w2]; [|discriminate].
    intros Hsecond.
    destruct (checkSha256_true _ _ _ _ Hsecond) as (h & content & -> & Hstat & Hd & Hfs).
    exists h, content. now rewrite Hfs.
  - discriminate.
Qed.

(** X10: [verifyChecksum] answers True only for a digest that is there
    and that the file, as it lies in the cache when the call returns,
    has: the SHA-256 of its contents equals the expected digest up to
    letter case. *)
Theorem verifyChecksum_sound (E : env) (checksum : option string) (path url : string)
    (w w' : world) :
  verifyChecksum E checksum path url w = (Val true, w') ->
  exists h content,
    checksum = Some h
    /\ stat (fs w') path = Some (File content)
    /\ lower (SHA256.hexdigest content) = lower h.
Proof. apply verifyChecksum_true. Qed.

Lemma verifyChecksum_sound_witness :
  exists h content,
    Some (SHA256.hexdigest lnd_archive) = Some h
    /\ stat (fs (after (lnd_world_with lnd_partial)
                       [EvRead lnd_archive_path; EvHead lnd_archive_url;
                        EvGet lnd_archive_url (Some 10%Z);
                        EvWrite lnd_archive_path ModeAppend " lnd v0.5-beta";
                        EvRead lnd_archive_path])) lnd_archive_path
       = Some (File content)
    /\ lower (SHA256.hexdigest content) = lower h.
Proof.
  apply (verifyChecksum_sound lnd_env (Some (SHA256.hexdigest lnd_archive))
           lnd_archive_path lnd_archive_url (lnd_world_with lnd_partial)).
  vm_compute. reflexivity.
Defined.

(** ** The keyring *)

Lemma for_each_import (keys : list string) (w : world) :
  exists w1, for_each keys import_key w = (Val tt, w1) /\ fs w1 = fs w.
Proof.
  revert w. induction keys as [|k keys IH]; intros w; [now exists w |].
  cbn [for_each]. unfold mbind, M_bind. unfold import_key at 1.
  destruct (IH (World (fs w) (k :: keyring w) (trace w ++ [EvImportKey k])))
    as (w1 & -> & Hfs).
  now exists w1.
Qed.

(** X11: [retrievePublicKey] returns only with the key in the keyring;
    when neither the URL nor the key server provides it, the script is
    left with the FAILED message.  Files are not touched either way. *)
Theorem retrievePublicKey_outcome (E : env) (keyId : string) (keyUrl : option string)
    (w : world) :
  exists r w',
    retrievePublicKey E keyId keyUrl w = (r, w')
    /\ fs w' = fs w
    /\ ((r = Val tt /\ existsb (String.eqb keyId) (keyring w') = true)
        \/ (r = Exc (SystemExit (ExitMsg "##### FAILED #####"))
            /\ existsb (String.eqb keyId) (keyring w') = false)).
Proof.
  unfold retrievePublicKey, haveKey, log, sys_exit.
  unfold mbind, M_bind, mret, M_ret, get_keyring, raise. cbv beta iota.
  destruct (existsb (String.eqb keyId) (keyring w)) eqn:Hhave.
  { exists (Val tt), w. auto. }
  assert (Hserver : forall w1, fs w1 = fs w ->
    exists r w',
      (let (o, w2) := (if key_server E keyId
                       then import_key keyId
                       else fun w0 => (Val tt, w0)) w1 in
       match o with
       | Val _ =>
           (if existsb (String.eqb keyId) (keyring w2)
            then fun w0 => (Val tt, w0)
            else fun w0 => (Exc (SystemExit (ExitMsg "##### FAILED #####")), w0)) w2
       | Exc e => (Exc e, w2)
       end) = (r, w')
      /\ fs w' = fs w
      /\ ((r = Val tt /\ existsb (String.eqb keyId) (keyring w') = true)
          \/ (r = Exc (SystemExit (ExitMsg "##### FAILED #####"))
              /\ existsb (String.eqb keyId) (keyring w') = false))).
  { intros w1 Hfs. destruct (key_server E keyId); unfold import_key; cbv beta iota.
    - cbn [keyring existsb]. rewrite String.eqb_refl. cbn [orb].
      eexists _, _. split; [reflexivity |]. split; [exact Hfs | left].
      split; [reflexivity |]. cbn [keyring existsb].
      now rewrite String.eqb_refl.
    - destruct (existsb (String.eqb keyId) (keyring w1)) eqn:H1;
        eexists _, _; (split; [reflexivity |]); (split; [exact Hfs |]); auto. }
  destruct keyUrl as [url|]; [|now apply Hserver].
  destruct (for_each_import (keys_at E url) w) as (w1 & -> & Hfs).
  destruct (existsb (String.eqb keyId) (keyring w1)) eqn:H1.
  - exists (Val tt), w1. auto.
  - now apply Hserver.
Qed.

(** ** [getValidatedArchive] *)

Lemma verifyGPG_run (E : env) (sigPath dataPath : string) (w : world) :
  exists b, verifyGPG E sigPath dataPath w = (Val b, w)
  /\ (b = true ->
      exists signature,
        file_data (fs w) sigPath = Some signature
        /\ if String.eqb sigPath dataPath
           then gpg_verify E (keyring w) signature None = true
           else exists manifest,
                  file_data (fs w) dataPath = Some manifest
                  /\ gpg_verify E (keyring w) signature (Some manifest) = true).
Proof.
  unfold verifyGPG, mbind, M_bind, mret, M_ret, get_fs, get_keyring. cbv beta iota.
  destruct (file_data (fs w) sigPath) as [signature|];
    [|exists false; split; [reflexivity | discriminate]].
  destruct (String.eqb sigPath dataPath).
  - eexists. split; [reflexivity |]. intros Hb. exists signature. auto.
  - destruct (file_data (fs w) dataPath) as [manifest|];
      [|exists false; split; [reflexivity | discriminate]].
    eexists. split; [reflexivity |]. intros Hb. exists signature. eauto.
Qed.

Lemma getExpectedChecksum_cases (path fileName : string) (w : world) :
  getExpectedChecksum path fileName w =
  match stat (fs w) path with
  | Some (File data) =>
      (Val (expected_in (splitlines (universal_newlines data)) fileName),
       after w [EvRead path])
  | Some _ => (Exc (OSError IsADirectoryError), w)
  | None => (Exc (OSError FileNotFoundError), w)
  end.
Proof.
  unfold getExpectedChecksum, try_except, read_file, after.
  unfold mbind, M_bind, mret, M_ret, get_fs, commit, raise. cbv beta iota.
  now destruct (stat (fs w) path) as [[data| |t]|].
Qed.

(** The last steps of [getValidatedArchive]: digest from the manifest,
    then the check of the archive. *)
Lemma validate_sound (E : env) (sigData fileName path url p' : string) (wv w' : world) :
  (checksum ← getExpectedChecksum sigData fileName;
   ok ← verifyChecksum E checksum path url;
   if ok : bool then mret (Some path) else mret None) wv = (Val (Some p'), w') ->
  p' = path
  /\ exists manifest h content,
       file_data (fs wv) sigData = Some manifest
       /\ expected_in (splitlines (universal_newlines manifest)) fileName = Some h
       /\ stat (fs w') path = Some (File content)
       /\ lower (SHA256.hexdigest content) = lower h.
Proof.
  unfold mbind at 1, M_bind at 1. rewrite getExpectedChecksum_cases.
  unfold file_data.
  destruct (stat (fs wv) sigData) as [[manifest| |t]|]; try discriminate.
  unfold mbind, M_bind.
  destruct (verifyChecksum E _ path url _) as [[[|]|e] w2] eqn:Hverify;
    try discriminate.
  unfold mret, M_ret. intros Hrun. apply pair_inv in Hrun as [Hval <-].
  apply Val_inj in Hval. injection Hval as <-.
  destruct (verifyChecksum_true _ _ _ _ _ _ Hverify) as (h & content & Hh & Hstat & Hd).
  split; [reflexivity |]. exists manifest, h, content. auto.
Qed.


(** ** More on the manifest *)

Lemma star_sound (p : ascii -> bool) (s : string) caps (k : cont) r :
  star p s caps k = Some r ->
  exists pre rest, s = pre +:+ rest /\ forallb_str p pre = true /\ k rest caps = Some r.
Proof.
  induction s as [|c s IH]; cbn [star].
  - intros Hk. now exists EmptyString, EmptyString.
  - destruct (p c) eqn:Hc.
    + destruct (star p s caps k) as [r'|] eqn:Hinner.
      * intros [= <-]. destruct (IH eq_refl) as (pre & rest & -> & Hpre & Hk).
        exists (String c pre), rest. cbn [forallb_str]. now rewrite Hc, Hpre.
      * intros Hk. now exists EmptyString, (String c s).
    + intros Hk. now exists EmptyString, (String c s).
Qed.

Lemma star_complete (p : ascii -> bool) (pre rest : string) caps (k : cont) r :
  forallb_str p pre = true -> k rest caps = Some r ->
  exists r', star p (pre +:+ rest) caps k = Some r'.
Proof.
  intros Hpre Hk. induction pre as [|c pre IH].
  - rewrite append_nil_l. destruct rest as [|c rest]; cbn [star]; [eauto |].
    destruct (p c); [|eauto]. destruct (star p rest caps k); eauto.
  - rewrite append_cons. cbn [star forallb_str] in *.
    apply andb_true_iff in Hpre as [-> Hpre].
    destruct (IH Hpre) as [r' ->]. eauto.
Qed.

Lemma strip_class_sound (n : nat) (p : ascii -> bool) (s s' : string) :
  strip_class n p s = Some s' ->
  exists pre, s = pre +:+ s' /\ String.length pre = n /\ forallb_str p pre = true.
Proof.
  revert s. induction n as [|n IH]; intros s; cbn [strip_class].
  - intros [= ->]. now exists EmptyString.
  - destruct s as [|c s]; [discriminate |]. destruct (p c) eqn:Hc; [|discriminate].
    intros Hs. destruct (IH _ Hs) as (pre & -> & Hlen & Hpre).
    exists (String c pre). cbn [String.length forallb_str].
    now rewrite Hc, Hpre, Hlen.
Qed.

Lemma strip_class_complete (p : ascii -> bool) (pre s' : string) :
  forallb_str p pre = true -> strip_class (String.length pre) p (pre +:+ s') = Some s'.
Proof.
  induction pre as [|c pre IH]; [reflexivity |].
  cbn [forallb_str String.length]. intros [Hc Hpre]%andb_true_iff.
  rewrite append_cons. cbn [strip_class]. now rewrite Hc, IH.
Qed.

Lemma strip_prefix_sound (l s s' : string) :
  strip_prefix l s = Some s' -> s = l +:+ s'.
Proof.
  revert s. induction l as [|a l IH]; intros s; cbn [strip_prefix].
  - now intros [= ->].
  - destruct s as [|b s]; [discriminate |].
    destruct (Ascii.eqb_spec a b) as [->|]; [|discriminate].
    intros Hs. now rewrite (IH _ Hs).
Qed.

Lemma all_spaces (s : string) :
  forallb_str is_space s = true -> s = spaces (String.length s).
Proof.
  induction s as [|c s IH]; [reflexivity |].
  cbn [forallb_str String.length spaces]. intros [Hc Hs]%andb_true_iff.
  apply Ascii.eqb_eq in Hc. now rewrite Hc, <- IH.
Qed.

Lemma spaces_are_spaces (n : nat) : forallb_str is_space (spaces n) = true.
Proof. induction n; [reflexivity | exact IHn]. Qed.

(** X13: the lines of a manifest that name a file are exactly those made
    of 64 hexadecimal digits, one or more spaces and the file name, the
    name taken literally (a line break may follow); group 1 is the run
    of digits. *)
Theorem checksum_pattern_matches (fileName : string) :
  (forall line m,
     re_match (checksum_pattern fileName) line = Some m ->
     exists k tail,
       line = group 1 m +:+ spaces (S k) +:+ fileName +:+ tail
       /\ String.length (group 1 m) = 64%nat
       /\ forallb_str is_hex (group 1 m) = true
       /\ (tail = EmptyString \/ tail = String newline EmptyString))
  /\ (forall h k,
        String.length h = 64%nat -> forallb_str is_hex h = true ->
        exists m,
          re_match (checksum_pattern fileName) (h +:+ spaces (S k) +:+ fileName)
          = Some m
          /\ group 1 m = h).
Proof.
  split.
  - intros line m. unfold re_match, checksum_pattern. cbn [run].
    destruct (strip_class 64 is_hex line) as [s1|] eqn:Hhex; [|discriminate].
    destruct (strip_class_sound _ _ _ _ Hhex) as (h & -> & Hlen & Hh).
    rewrite consumed_append. cbn [app].
    destruct s1 as [|c s1]; [discriminate |].
    destruct (is_space c) eqn:Hc; [|discriminate].
    intros Hstar. apply star_sound in Hstar as (sp & rest & -> & Hsp & Hk).
    destruct (strip_prefix fileName rest) as [tail|] eqn:Hname; [|discriminate].
    apply strip_prefix_sound in Hname as ->.
    assert (Hm : m = (tail, [h]) /\ (tail = EmptyString \/ tail = String newline EmptyString)).
    { destruct tail as [|d [|d' tail]]; cbv beta iota in Hk.
      - injection Hk as <-. auto.
      - destruct (Ascii.eqb d newline) eqn:Hd; [|discriminate].
        apply Ascii.eqb_eq in Hd. subst d. injection Hk as <-. auto.
      - discriminate. }
    destruct Hm as [-> Htail]. exists (String.length sp), tail.
    unfold group. cbn [snd nth Nat.sub].
    apply Ascii.eqb_eq in Hc. subst c.
    rewrite (all_spaces sp Hsp) at 1. cbn [spaces].
    now rewrite !append_cons.
  - intros h k Hlen Hh. unfold re_match, checksum_pattern. cbn [run].
    rewrite <- Hlen, strip_class_complete by assumption.
    rewrite consumed_append. cbn [app spaces]. rewrite append_cons.
    cbn [is_space]. change (is_space " ") with true. cbv iota.
    destruct (star_complete is_space (spaces k) fileName [h]
                (fun s' caps' =>
                   match strip_prefix fileName s' with
                   | Some s'0 =>
                       match s'0 with
                       | EmptyString => Some (s'0, caps')
                       | String c EmptyString =>
                           if Ascii.eqb c newline then Some (s'0, caps') else None
                       | String c (String _ _) => None
                       end
                   | None => None
                   end)
                (EmptyString, [h])) as [r' Hr'].
    + apply spaces_are_spaces.
    + rewrite <- (append_nil_r fileName) at 2. now rewrite strip_prefix_append.
    + exists r'. split; [exact Hr' |].
      apply star_sound in Hr' as (sp & rest & _ & _ & Hk).
      destruct (strip_prefix fileName rest) as [[|d [|d' tail]]|]; try discriminate.
      * now injection Hk as <-.
      * destruct (Ascii.eqb d newline); [|discriminate]. now injection Hk as <-.
Qed.

(** X14: the clearsign markers count only as a pair in order.  When
    either marker is missing every line of the file is looked at, the
    lines outside a lone marker included; when the signature marker does
    not come after the begin marker no line is looked at and the answer
    is [None]. *)
Theorem getExpectedChecksum_markers
    (path data fileName : string) (lines : list string) (w : world) :
  stat (fs w) path = Some (File data) ->
  lines = splitlines (universal_newlines data) ->
  (index_of PGP_BEGIN lines = None \/ index_of PGP_SIGNATURE lines = None ->
   getExpectedChecksum path fileName w
   = (Val (agreed (hashes_of (checksum_pattern fileName) lines)),
      after w [EvRead path]))
  /\ (forall b e,
        index_of PGP_BEGIN lines = Some b -> index_of PGP_SIGNATURE lines = Some e ->
        (e <= b)%nat ->
        getExpectedChecksum path fileName w = (Val None, after w [EvRead path])).
Proof.
  intros Hstat ->. rewrite getExpectedChecksum_cases, Hstat.
  unfold expected_in, signed_lines. split.
  - intros [-> | Hsig]; [reflexivity |].
    destruct (index_of PGP_BEGIN _); now rewrite ?Hsig.
  - intros b e -> -> Hle. unfold slice.
    replace (e - (b + 1))%nat with O by lia. reflexivity.
Qed.

Lemma getExpectedChecksum_markers_witness :
  (index_of PGP_BEGIN (splitlines (universal_newlines lnd_manifest)) = None
   \/ index_of PGP_SIGNATURE (splitlines (universal_newlines lnd_manifest)) = None ->
   getExpectedChecksum lnd_manifest_path lnd_archive_name lnd_world
   = (Val (agreed (hashes_of (checksum_pattern lnd_archive_name)
                             (splitlines (universal_newlines lnd_manifest)))),
      after lnd_world [EvRead lnd_manifest_path]))
  /\ (forall b e,
        index_of PGP_BEGIN (splitlines (universal_newlines lnd_manifest)) = Some b ->
        index_of PGP_SIGNATURE (splitlines (universal_newlines lnd_manifest)) = Some e ->
        (e <= b)%nat ->
        getExpectedChecksum lnd_manifest_path lnd_archive_name lnd_world
        = (Val None, after lnd_world [EvRead lnd_manifest_path])).
Proof.
  apply (getExpectedChecksum_markers lnd_manifest_path lnd_manifest);
    vm_compute; reflexivity.
Defined.

(** X15: a manifest that is not there is not one of the failures
    [getExpectedChecksum] turns into [None]: the FileNotFoundError of
    [open] leaves the function, only IndexError being caught. *)
Theorem getExpectedChecksum_missing (path fileName : string) (w : world) :
  stat (fs w) path = None ->
  getExpectedChecksum path fileName w = (Exc (OSError FileNotFoundError), w).
Proof. intros Hstat. now rewrite getExpectedChecksum_cases, Hstat. Qed.

Lemma getExpectedChecksum_missing_witness :
  getExpectedChecksum "/home/u/tars/SHA256SUMS-0.21.0.asc" btc_archive_name lnd_world
  = (Exc (OSError FileNotFoundError), lnd_world).
Proof. apply getExpectedChecksum_missing. vm_compute. reflexivity. Defined.

(** ** More on lnd tags *)

Lemma lnd_tag_match_inv (tag : string) m :
  re_match lnd_tag_pattern tag = Some m ->
  exists ver rest, tag = "v" +:+ ver +:+ "-" +:+ rest.
Proof.
  unfold re_match, lnd_tag_pattern. cbn [run].
  destruct (strip_prefix "v" tag) as [s1|] eqn:Hv; [|discriminate].
  apply strip_prefix_sound in Hv as ->.
  intros Hstar. apply star_sound in Hstar as (ver & rest & -> & _ & Hk).
  destruct (strip_prefix "-" rest) as [s2|] eqn:Hh; [|discriminate].
  apply strip_prefix_sound in Hh as ->. now exists ver, s2.
Qed.

(** X16: a tag that does not begin with the letter v, or that holds no
    hyphen at all, is refused: the script is left with the message that
    quotes the tag. *)
Theorem lndTagToVersion_refuses (tag : string) (w : world) :
  startswith "v" tag = false \/ count_char "-" tag = O ->
  lndTagToVersion tag w
  = (Exc (SystemExit (ExitMsg ("##### Error parsing lnd tag '" +:+ tag +:+ "'"))), w).
Proof.
  intros Hbad. unfold lndTagToVersion.
  destruct (re_match lnd_tag_pattern tag) as [m|] eqn:Hm; [|reflexivity].
  exfalso. destruct (lnd_tag_match_inv _ _ Hm) as (ver & rest & ->).
  destruct Hbad as [Hv|Hh].
  - rewrite append_cons in Hv. cbn in Hv. discriminate.
  - rewrite !count_char_append in Hh. cbn in Hh. lia.
Qed.

Lemma lndTagToVersion_refuses_witness :
  lndTagToVersion "0.5-beta" lnd_world
  = (Exc (SystemExit (ExitMsg ("##### Error parsing lnd tag '" +:+ "0.5-beta" +:+ "'"))),
     lnd_world).
Proof. apply lndTagToVersion_refuses. left. reflexivity. Defined.

(** X17: on a tag made of v, a run of digits and dots, a hyphen and a
    one-line suffix, the run is kept when it has two dots or more, and
    gets exactly one [.0] otherwise; so a tag with a single number, as
    in v1-beta, yields a version of two segments. *)
Theorem lndTagToVersion_appends_one_zero (ver commit : string) (w : world) :
  forallb_str digit_or_dot ver = true ->
  forallb_str not_newline commit = true ->
  lndTagToVersion ("v" +:+ ver +:+ "-" +:+ commit) w
  = (Val (ver +:+ (if (1 <? count_char "." ver)%nat then "-" else ".0-") +:+ commit), w).
Proof.
  intros Hver Hcommit. unfold lndTagToVersion.
  now rewrite lnd_tag_match.
Qed.

Lemma lndTagToVersion_appends_one_zero_witness :
  lndTagToVersion "v1-beta" lnd_world = (Val "1.0-beta", lnd_world).
Proof.
  exact (lndTagToVersion_appends_one_zero "1" "beta" lnd_world eq_refl eq_refl).
Defined.

(** ** [getInstalledVersion] *)

Lemma split_on_without (sep : ascii) (a : string) :
  without sep a = true -> split_on sep a = [a].
Proof.
  unfold without. induction a as [|c a IH]; [reflexivity |].
  cbn [forallb_str split_on]. intros [Hc Ha]%andb_true_iff.
  apply negb_true_iff in Hc. now rewrite Hc, (IH Ha).
Qed.

Lemma split_on_at (sep : ascii) (a b : string) :
  without sep a = true -> split_on sep (a +:+ String sep b) = a :: split_on sep b.
Proof.
  unfold without. induction a as [|c a IH].
  - intros _. rewrite append_nil_l. cbn [split_on]. now rewrite Ascii.eqb_refl.
  - rewrite append_cons. cbn [forallb_str split_on]. intros [Hc Ha]%andb_true_iff.
    apply negb_true_iff in Hc. now rewrite Hc, (IH Ha).
Qed.

Lemma shlex_split_version (path : string) :
  without " " path = true -> path <> "" ->
  shlex_split (path +:+ " --version") = [path; "--version"].
Proof.
  intros Hpath Hne. unfold shlex_split.
  change (path +:+ " --version") with (path +:+ String " " "--version").
  rewrite split_on_at by assumption.
  change (split_on " " "--version") with ["--version"].
  cbn [List.filter]. destruct (String.eqb_spec path ""); [contradiction | reflexivity].
Qed.

(** X18: for a program path without spaces.  A program that is not there
    gives [None] and nothing is run.  A program that is there is run
    once with [--version]; a non-zero status and an output the pattern
    does not match each end the script with their own message, and a
    matching output gives group 1. *)
Theorem getInstalledVersion_cases (E : env) (path : string) (rexp : regex) (w : world) :
  without " " path = true -> path <> "" ->
  (stat (fs w) path = None ->
   exists_ (fs w) (dirname path) && negb (isdir (fs w) (dirname path)) = false ->
   getInstalledVersion E path rexp w = (Val None, w))
  /\ (forall code,
        stat (fs w) path = Some (File code) ->
        getInstalledVersion E path rexp w
        = (if negb ((execute E code ["--version"]).1 =? 0)%Z
           then Exc (SystemExit
                       (ExitMsg ("##### Error getting version of command " +:+ path)))
           else match re_match rexp (execute E code ["--version"]).2 with
                | None =>
                    Exc (SystemExit
                           (ExitMsg ("##### Error parsing output of command " +:+ path)))
                | Some m => Val (Some (group 1 m))
                end,
           after w [EvRun [path; "--version"]])).
Proof.
  intros Hpath Hne.
  unfold getInstalledVersion, try_except, sh, sys_exit, after.
  unfold mbind, M_bind, mret, M_ret, get_fs, commit, raise.
  rewrite (shlex_split_version path Hpath Hne). cbv beta iota. split.
  - intros -> ->. reflexivity.
  - intros code ->. cbv beta iota. cbn [fst snd].
    destruct (negb _); [reflexivity |].
    now destruct (re_match rexp _).
Qed.

Lemma getInstalledVersion_cases_witness :
  (stat (fs lnd_world) "/home/u/opt/lnd/current/lnd" = None ->
   exists_ (fs lnd_world) (dirname "/home/u/opt/lnd/current/lnd")
   && negb (isdir (fs lnd_world) (dirname "/home/u/opt/lnd/current/lnd")) = false ->
   getInstalledVersion lnd_env "/home/u/opt/lnd/current/lnd" lnd_daemon_banner lnd_world
   = (Val None, lnd_world))
  /\ (forall code,
        stat (fs lnd_world) "/home/u/opt/lnd/current/lnd" = Some (File code) ->
        getInstalledVersion lnd_env "/home/u/opt/lnd/current/lnd" lnd_daemon_banner
                            lnd_world
        = (if negb ((execute lnd_env code ["--version"]).1 =? 0)%Z
           then Exc (SystemExit
                       (ExitMsg ("##### Error getting version of command "
                                 +:+ "/home/u/opt/lnd/current/lnd")))
           else match re_match lnd_daemon_banner
                               (execute lnd_env code ["--version"]).2 with
                | None =>
                    Exc (SystemExit
                           (ExitMsg ("##### Error parsing output of command "
                                     +:+ "/home/u/opt/lnd/current/lnd")))
                | Some m => Val (Some (group 1 m))
                end,
           after lnd_world [EvRun ["/home/u/opt/lnd/current/lnd"; "--version"]])).
Proof.
  apply getInstalledVersion_cases; [reflexivity | discriminate].
Defined.

(** ** The version banners *)

Lemma rest_of_line_eol (ver rest : string) caps :
  forallb_str not_newline ver = true ->
  run (Cat rest_of_line eol) (ver +:+ nl +:+ rest) caps
      (fun s' caps' => Some (s', caps'))
  = Some (rest, caps ++ [ver]).
Proof.
  intros Hver. unfold rest_of_line, eol. cbn [run].
  apply star_greedy; [assumption | reflexivity |].
  rewrite consumed_append.
  change (nl +:+ rest) with (String newline rest). cbn [strip_prefix].
  now rewrite Ascii.eqb_refl.
Qed.

(** X19: [bitcoind --version] is understood with and without the word
    Daemon in its first line, and [bitcoin-cli --version] by its own
    banner: the version is what follows the letter v up to the end of
    the first line. *)
Theorem btc_banners (ver rest : string) :
  forallb_str not_newline ver = true ->
  re_match btc_daemon_banner ("Bitcoin Core Daemon version v" +:+ ver +:+ nl +:+ rest)
  = Some (rest, [ver])
  /\ re_match btc_daemon_banner ("Bitcoin Core version v" +:+ ver +:+ nl +:+ rest)
     = Some (rest, [ver])
  /\ re_match btc_client_banner
              ("Bitcoin Core RPC client version v" +:+ ver +:+ nl +:+ rest)
     = Some (rest, [ver]).
Proof.
  intros Hver. unfold re_match, btc_daemon_banner, btc_client_banner.
  pose proof (rest_of_line_eol ver rest [] Hver) as Htail.
  cbn [run app] in Htail.
  repeat split.
  - change ("Bitcoin Core Daemon version v" +:+ ver +:+ nl +:+ rest)
      with ("Bitcoin Core " +:+ "Daemon " +:+ "version v" +:+ ver +:+ nl +:+ rest).
    cbn [run]. rewrite !strip_prefix_append. now rewrite Htail.
  - change ("Bitcoin Core version v" +:+ ver +:+ nl +:+ rest)
      with ("Bitcoin Core " +:+ "version v" +:+ ver +:+ nl +:+ rest).
    cbn [run]. rewrite strip_prefix_append.
    change (strip_prefix "Daemon " ("version v" +:+ ver +:+ nl +:+ rest))
      with (@None string).
    rewrite strip_prefix_append. exact Htail.
  - cbn [run]. rewrite strip_prefix_append. exact Htail.
Qed.

Lemma btc_banners_witness :
  re_match btc_daemon_banner ("Bitcoin Core Daemon version v" +:+ "0.21.0" +:+ nl +:+ "")
  = Some (EmptyString, ["0.21.0"])
  /\ re_match btc_daemon_banner ("Bitcoin Core version v" +:+ "0.21.0" +:+ nl +:+ "")
     = Some (EmptyString, ["0.21.0"])
  /\ re_match btc_client_banner
              ("Bitcoin Core RPC client version v" +:+ "0.21.0" +:+ nl +:+ "")
     = Some (EmptyString, ["0.21.0"]).
Proof. apply btc_banners. reflexivity. Defined.

Lemma star_prepend (p : ascii -> bool) (pre s : string) caps (k : cont) r :
  forallb_str p pre = true -> star p s caps k = Some r ->
  star p (pre +:+ s) caps k = Some r.
Proof.
  intros Hpre Hs. induction pre as [|c pre IH]; [assumption |].
  rewrite append_cons. cbn [star forallb_str] in *.
  apply andb_true_iff in Hpre as [-> Hpre]. now rewrite (IH Hpre).
Qed.

Lemma star_all_fail (p : ascii -> bool) (rest : string) caps (k : cont)
    (s2 s1 : string) :
  forallb_str p s2 = true -> stops p rest -> s1 <> "" ->
  (forall t1 t2, s1 +:+ s2 = t1 +:+ t2 -> t1 <> "" -> k (t2 +:+ rest) caps = None) ->
  star p (s2 +:+ rest) caps k = None.
Proof.
  intros Hs2 Hstop. revert s1.
  induction s2 as [|c s2 IH]; intros s1 Hs1 Hfail.
  - rewrite append_nil_l.
    pose proof (Hfail s1 EmptyString eq_refl Hs1) as Hend.
    rewrite append_nil_l in Hend.
    destruct rest as [|c rest]; cbn [star]; [exact Hend |].
    cbn in Hstop. now rewrite Hstop.
  - rewrite append_cons. cbn [star forallb_str] in *.
    apply andb_true_iff in Hs2 as [-> Hs2].
    rewrite (IH Hs2 (s1 +:+ String c EmptyString)).
    + pose proof (Hfail s1 (String c s2) eq_refl Hs1) as Hhere.
      now rewrite append_cons in Hhere.
    + destruct s1; discriminate.
    + intros t1 t2 Heq Ht1. apply (Hfail t1 t2); [|exact Ht1].
      rewrite <- Heq. now rewrite append_assoc.
Qed.

(** A greedy repetition gives back what it must: when the rest of the
    pattern fails wherever the run [mid] is cut short, and accepts
    [mid] whole with what follows, the match is the one that leaves
    [mid]. *)
Lemma star_gives_back (p : ascii -> bool) (mid rest : string) caps (k : cont) r :
  forallb_str p mid = true -> stops p rest ->
  (forall s1 s2, mid = s1 +:+ s2 -> s1 <> "" -> k (s2 +:+ rest) caps = None) ->
  k (mid +:+ rest) caps = Some r ->
  star p (mid +:+ rest) caps k = Some r.
Proof.
  intros Hmid Hstop Hfail Hk.
  destruct mid as [|c mid].
  - rewrite append_nil_l in *. destruct rest as [|c rest]; cbn [star]; [exact Hk |].
    cbn in Hstop. now rewrite Hstop.
  - rewrite append_cons in *. cbn [star forallb_str] in *.
    apply andb_true_iff in Hmid as [-> Hmid].
    now rewrite (star_all_fail p rest caps k mid (String c EmptyString) Hmid Hstop
                   ltac:(discriminate) Hfail).
Qed.

(** X20: [lnd --version] is understood whatever stands between the
    words lnd version and commit=v on its first line; the version is
    what follows commit=v up to the end of that line. *)
Theorem lnd_banner (build ver rest : string) :
  forallb_str not_newline build = true ->
  forallb_str not_newline ver = true ->
  without " " ver = true ->
  re_match lnd_daemon_banner
           ("lnd version " +:+ build +:+ " commit=v" +:+ ver +:+ nl +:+ rest)
  = Some (rest, [ver]).
Proof.
  intros Hbuild Hver Hsp. unfold re_match, lnd_daemon_banner.
  cbn [run]. rewrite strip_prefix_append.
  apply star_prepend; [exact Hbuild |].
  rewrite <- (append_assoc " commit=v" ver (nl +:+ rest)).
  apply star_gives_back.
  - rewrite forallb_str_append, Hver. reflexivity.
  - reflexivity.
  - intros s1 s2 Heq Hs1.
    assert (Hs2 : without " " s2 = true).
    { destruct s1 as [|c s1]; [congruence |].
      rewrite append_cons in Heq.
      change (" commit=v" +:+ ver) with (String " " ("commit=v" +:+ ver)) in Heq.
      injection Heq as _ Heq.
      assert (Hall : without " " (s1 +:+ s2) = true).
      { rewrite <- Heq. unfold without in *. rewrite forallb_str_append, Hsp.
        reflexivity. }
      unfold without in *. rewrite forallb_str_append in Hall.
      now apply andb_true_iff in Hall as [_ Hall]. }
    destruct s2 as [|c s2]; [reflexivity |].
    rewrite append_cons. unfold without in Hs2. cbn [forallb_str] in Hs2.
    apply andb_true_iff in Hs2 as [Hc _].
    cbn [strip_prefix]. rewrite Ascii.eqb_sym.
    now apply negb_true_iff in Hc as ->.
  - rewrite append_assoc, strip_prefix_append.
    pose proof (rest_of_line_eol ver rest [] Hver) as Htail.
    cbn [run app] in Htail. exact Htail.
Qed.

Lemma lnd_banner_witness :
  re_match lnd_daemon_banner
           ("lnd version " +:+ "0.12.0-beta" +:+ " commit=v" +:+ "0.12.0-beta"
            +:+ nl +:+ "")
  = Some (EmptyString, ["0.12.0-beta"]).
Proof. apply lnd_banner; reflexivity. Defined.


(** ** Member names *)

Lemma split_on_nonempty (sep : ascii) (s : string) : split_on sep s <> [].
Proof.
  induction s as [|c s IH]; cbn [split_on]; [discriminate |].
  destruct (Ascii.eqb c sep); [discriminate |].
  destruct (split_on sep s); [contradiction | discriminate].
Qed.

Lemma join_split_on (sep : ascii) (s : string) :
  join (String sep EmptyString) (split_on sep s) = s.
Proof.
  induction s as [|c s IH]; [reflexivity |].
  cbn [split_on]. destruct (Ascii.eqb_spec c sep) as [-> | Hc].
  - pose proof (split_on_nonempty sep s) as Hne.
    destruct (split_on sep s) as [|h t]; [contradiction |].
    change (join (String sep EmptyString) (EmptyString :: h :: t))
      with (EmptyString +:+ String sep EmptyString
            +:+ join (String sep EmptyString) (h :: t)).
    rewrite IH. reflexivity.
  - pose proof (split_on_nonempty sep s) as Hne.
    destruct (split_on sep s) as [|h t]; [contradiction |].
    destruct t as [|h' t].
    + cbn [join] in *. now rewrite IH.
    + change (join (String sep EmptyString) (String c h :: h' :: t))
        with (String c (h +:+ String sep EmptyString
                        +:+ join (String sep EmptyString) (h' :: t))).
      change (join (String sep EmptyString) (h :: h' :: t))
        with (h +:+ String sep EmptyString
              +:+ join (String sep EmptyString) (h' :: t)) in IH.
      now rewrite IH.
Qed.

Lemma after_last_absent (c : ascii) (s : string) :
  without c s = true -> after_last c s = 0%nat.
Proof.
  unfold without. induction s as [|d s IH]; [reflexivity |].
  cbn [forallb_str after_last]. intros [Hd Hs]%andb_true_iff.
  rewrite (IH Hs), Ascii.eqb_sym. now apply negb_true_iff in Hd as ->.
Qed.

Lemma after_last_present (c : ascii) (a b : string) :
  exists n, after_last c (a +:+ String c b) = S n
            /\ take (S n) (a +:+ String c b)
               = a +:+ String c (take (n - String.length a) b)
            /\ (String.length a <= n)%nat.
Proof.
  induction a as [|d a (n & Hn & Htake & Hlen)].
  - rewrite append_nil_l. cbn [after_last].
    destruct (after_last c b) as [|m] eqn:Hb.
    + rewrite Ascii.eqb_refl. exists 0%nat.
      split; [reflexivity |]. split; [| cbn; lia].
      cbn. now destruct b.
    + exists (S m). split; [reflexivity |]. split; [| cbn; lia].
      rewrite append_nil_l. cbn [take String.length]. now rewrite Nat.sub_0_r.
  - rewrite append_cons. cbn [after_last]. rewrite Hn.
    exists (S n). split; [reflexivity |]. split; [| cbn; lia].
    change (take (S (S n)) (String d (a +:+ String c b)))
      with (String d (take (S n) (a +:+ String c b))).
    rewrite Htake. now rewrite append_cons.
Qed.

Lemma forallb_str_list (p : ascii -> bool) (s : string) :
  forallb_str p s = forallb p (list_ascii_of_string s).
Proof. induction s as [|c s IH]; [reflexivity |]. cbn. now rewrite IH. Qed.

Lemma rstrip_slash_rev_nil (r : list ascii) :
  rstrip_slash_rev r = [] -> forallb (Ascii.eqb slash) r = true.
Proof.
  induction r as [|c r IH]; [reflexivity |]. cbn [rstrip_slash_rev forallb].
  rewrite (Ascii.eqb_sym slash c).
  destruct (Ascii.eqb c slash); [exact IH | discriminate].
Qed.

Lemma rstrip_slash_empty (s : string) :
  rstrip_slash s = "" -> forallb_str (Ascii.eqb slash) s = true.
Proof.
  unfold rstrip_slash. intros H.
  assert (Hnil : rstrip_slash_rev (List.rev (list_ascii_of_string s)) = []).
  { destruct (rstrip_slash_rev (List.rev (list_ascii_of_string s))) as [|c r] eqn:Hr;
      [reflexivity |].
    apply (f_equal list_ascii_of_string) in H.
    rewrite list_ascii_of_string_of_list_ascii in H.
    apply (f_equal (@List.length ascii)) in H.
    rewrite List.length_rev in H. discriminate. }
  apply rstrip_slash_rev_nil in Hnil.
  rewrite forallb_str_list. rewrite List.forallb_forall in *.
  intros x Hx. apply Hnil. now apply List.in_rev in Hx.
Qed.

Lemma dirname_plain (name : string) : without slash name = true -> dirname name = "".
Proof. intros H. unfold dirname. now rewrite (after_last_absent _ _ H). Qed.

Lemma dirname_nested (top rest : string) : dirname (top +:+ String slash rest) <> "".
Proof.
  unfold dirname. cbv zeta.
  destruct (after_last_present slash top rest) as (n & -> & -> & _).
  destruct (forallb_str _ _) eqn:Hall.
  - destruct top; discriminate.
  - intros Hempty. apply rstrip_slash_empty in Hempty. congruence.
Qed.


(** ** The functions that only look *)

Lemma looks_only_ret {A : Type} (a : A) : looks_only (mret a).
Proof. intros w. split; reflexivity. Qed.

Lemma looks_only_raise {A : Type} (e : exn) : looks_only (@raise A e).
Proof. intros w. split; reflexivity. Qed.

Lemma looks_only_get_fs : looks_only get_fs.
Proof. intros w. split; reflexivity. Qed.

Lemma looks_only_get_keyring : looks_only get_keyring.
Proof. intros w. split; reflexivity. Qed.

Lemma looks_only_commit (ev : event) : harmless ev = true -> looks_only (commit ev).
Proof. intros Hev w. destruct ev; try discriminate; split; reflexivity. Qed.

Lemma looks_only_bind {A B : Type} (m : M A) (k : A -> M B) :
  looks_only m -> (forall a, looks_only (k a)) -> looks_only (m ≫= k).
Proof.
  intros Hm Hk w. unfold mbind, M_bind. specialize (Hm w).
  destruct (m w) as [[a|e] w1]; cbn [snd] in *; [| exact Hm].
  destruct Hm as [Hfs1 Hkeys1]. destruct (Hk a w1) as [Hfs Hkeys]. split; congruence.
Qed.

Lemma looks_only_try {A : Type} (body handler : M A) (caught : exn -> bool) :
  looks_only body -> looks_only handler -> looks_only (try_except body caught handler).
Proof.
  intros Hb Hh w. unfold try_except. specialize (Hb w).
  destruct (body w) as [[a|e] w1]; cbn [snd] in *; [exact Hb |].
  destruct (caught e); cbn [snd]; [| exact Hb].
  destruct Hb as [Hfs1 Hkeys1]. destruct (Hh w1) as [Hfs Hkeys]. split; congruence.
Qed.

Ltac look_step :=
  first
    [ apply looks_only_ret
    | apply looks_only_raise
    | apply looks_only_get_fs
    | apply looks_only_get_keyring
    | apply looks_only_commit; reflexivity
    | apply looks_only_try
    | apply looks_only_bind; [| intros ? ] ].

Lemma looks_only_sys_exit {A : Type} (msg : string) : looks_only (@sys_exit A msg).
Proof. apply looks_only_raise. Qed.

Lemma looks_only_log (desc : string) (value : log_value) : looks_only (log desc value).
Proof. destruct value as [s|[|]]; cbn [log]; first [look_step | apply looks_only_sys_exit]. Qed.

Lemma looks_only_read_file (path : string) : looks_only (read_file path).
Proof.
  unfold read_file. look_step; [look_step |].
  destruct (stat a path) as [[| |]|]; repeat look_step.
Qed.

Lemma looks_only_getRemoteFileSize (E : env) (url : string) :
  looks_only (getRemoteFileSize E url).
Proof.
  unfold getRemoteFileSize, http_head. repeat look_step.
  - destruct (head E url); look_step.
  - destruct a; look_step.
Qed.

Lemma looks_only_urlopen (E : env) (url : string) (range_from : option Z) :
  looks_only (urlopen E url range_from).
Proof. unfold urlopen. repeat look_step. destruct (get E url); look_step. Qed.

Lemma looks_only_sh (E : env) (cmd : string) : looks_only (sh E cmd).
Proof.
  unfold sh. destruct (shlex_split cmd) as [|prog args]; [look_step |].
  look_step; [look_step |].
  destruct (stat a prog) as [[| |]|]; repeat look_step.
  destruct (_ && _); look_step.
Qed.

Lemma looks_only_getInstalledVersion (E : env) (path : string) (rexp : regex) :
  looks_only (getInstalledVersion E path rexp).
Proof.
  unfold getInstalledVersion. look_step; [| look_step].
  look_step; [| apply looks_only_sys_exit].
  look_step; [apply looks_only_sh |].
  destruct (negb _); [apply looks_only_sys_exit |].
  destruct (re_match rexp _); [look_step | apply looks_only_sys_exit].
Qed.

Lemma looks_only_first_published (E : env) (vers : list string) :
  looks_only (first_published E vers).
Proof.
  induction vers as [|v vers IH]; cbn [first_published]; [look_step |].
  look_step; [apply looks_only_getRemoteFileSize |].
  destruct (0 <? a)%Z; [look_step | exact IH].
Qed.

Lemma looks_only_getLatestBtc (E : env) : looks_only (getLatestBtc E).
Proof.
  unfold getLatestBtc. look_step; [| apply looks_only_sys_exit].
  look_step; [apply looks_only_urlopen |].
  destruct (keyed _); [apply looks_only_first_published | look_step].
Qed.

Lemma looks_only_getLatestLndTag (E : env) : looks_only (getLatestLndTag E).
Proof.
  unfold getLatestLndTag. look_step; [| apply looks_only_sys_exit].
  look_step; [apply looks_only_urlopen |].
  destruct (json_field E a _); look_step.
Qed.

Lemma looks_only_lndTagToVersion (tag : string) : looks_only (lndTagToVersion tag).
Proof.
  unfold lndTagToVersion.
  destruct (re_match lnd_tag_pattern tag); [look_step | apply looks_only_sys_exit].
Qed.

Lemma looks_only_getExpectedChecksum (path fileName : string) :
  looks_only (getExpectedChecksum path fileName).
Proof.
  unfold getExpectedChecksum. look_step; [| look_step].
  look_step; [apply looks_only_read_file | look_step].
Qed.

Lemma looks_only_checkSha256 (path : string) (sum : option string) :
  looks_only (checkSha256 path sum).
Proof.
  unfold checkSha256. look_step; [| look_step].
  look_step; [apply looks_only_read_file |].
  cbv zeta. destruct sum; look_step.
Qed.

Lemma looks_only_verifyGPG (E : env) (sigPath dataPath : string) :
  looks_only (verifyGPG E sigPath dataPath).
Proof.
  unfold verifyGPG. repeat look_step.
  destruct (file_data a sigPath); [| look_step].
  destruct (String.eqb sigPath dataPath); [look_step |].
  destruct (file_data a dataPath); look_step.
Qed.

(** X23: finding out about versions, sizes, checksums and signatures
    changes no file and no key: [getRemoteFileSize],
    [getInstalledVersion], [getLatestBtc], [getLatestLndTag],
    [getExpectedChecksum], [checkSha256] and [verifyGPG] leave both as
    they found them, whether they answer or raise. *)
Theorem lookups_change_nothing (E : env) :
  (forall url, looks_only (getRemoteFileSize E url))
  /\ (forall path rexp, looks_only (getInstalledVersion E path rexp))
  /\ looks_only (getLatestBtc E)
  /\ looks_only (getLatestLndTag E)
  /\ (forall path fileName, looks_only (getExpectedChecksum path fileName))
  /\ (forall path sum, looks_only (checkSha256 path sum))
  /\ (forall sigPath dataPath, looks_only (verifyGPG E sigPath dataPath)).
Proof.
  repeat match goal with |- _ /\ _ => split end; intros.
  all: first [ apply looks_only_getRemoteFileSize
             | apply looks_only_getInstalledVersion
             | apply looks_only_getLatestBtc
             | apply looks_only_getLatestLndTag
             | apply looks_only_getExpectedChecksum
             | apply looks_only_checkSha256
             | apply looks_only_verifyGPG ].
Qed.

(** ** The order of versions *)

Lemma list_ltb_irrefl (a : list Z) : list_ltb a a = false.
Proof.
  induction a as [|x a IH]; [reflexivity |]. cbn [list_ltb].
  now rewrite Z.ltb_irrefl, Z.eqb_refl, IH.
Qed.

Lemma list_ltb_asym (a b : list Z) : list_ltb a b = true -> list_ltb b a = false.
Proof.
  revert b. induction a as [|x a IH]; intros [|y b]; cbn [list_ltb]; try easy.
  intros H. apply orb_true_iff in H as [H | [Hxy H]%andb_true_iff].
  - apply Z.ltb_lt in H.
    destruct (Z.ltb_spec y x); [lia |]. destruct (Z.eqb_spec y x); [lia | reflexivity].
  - apply Z.eqb_eq in Hxy as ->. rewrite Z.ltb_irrefl, Z.eqb_refl. cbn.
    now apply IH.
Qed.

Lemma list_geb_trans (a b c : list Z) :
  list_ltb a b = false -> list_ltb b c = false -> list_ltb a c = false.
Proof.
  revert b c. induction a as [|x a IH]; intros [|y b] [|z c]; cbn [list_ltb];
    try easy.
  intros Hab Hbc.
  apply orb_false_iff in Hab as [Hxy Hab]. apply orb_false_iff in Hbc as [Hyz Hbc].
  apply Z.ltb_ge in Hxy, Hyz.
  destruct (Z.ltb_spec x z) as [Hlt | Hge]; [lia |]. cbn [orb].
  destruct (Z.eqb_spec x z) as [-> | Hne]; [| reflexivity]. cbn [andb].
  assert (y = z) as -> by lia.
  rewrite Z.eqb_refl in Hab, Hbc. cbn [andb] in Hab, Hbc. exact (IH _ _ Hab Hbc).
Qed.

Lemma insert_desc_In (x y : list Z * string) (l : list (list Z * string)) :
  In y (insert_desc x l) <-> y = x \/ In y l.
Proof.
  induction l as [|z l IH]; cbn [insert_desc].
  - cbn. intuition congruence.
  - destruct (list_ltb x.1 z.1); cbn [In]; [rewrite IH |]; intuition congruence.
Qed.

Lemma insert_desc_descending (x : list Z * string) (l : list (list Z * string)) :
  descending l -> descending (insert_desc x l).
Proof.
  induction l as [|z l IH]; cbn [insert_desc descending]; [now split |].
  intros [Hz Hl]. destruct (list_ltb x.1 z.1) eqn:Hxz; cbn [descending].
  - split; [| exact (IH Hl)].
    apply List.Forall_forall. intros y [-> | Hy]%insert_desc_In.
    + now apply list_ltb_asym.
    + rewrite List.Forall_forall in Hz. now apply Hz.
  - repeat split; [| exact Hz | exact Hl].
    apply List.Forall_cons; [exact Hxz |].
    rewrite List.Forall_forall in *. intros y Hy.
    exact (list_geb_trans _ _ _ Hxz (Hz y Hy)).
Qed.

Lemma sorted_desc_In (y : list Z * string) (items : list (list Z * string)) :
  In y (sorted_desc items) <-> In y items.
Proof.
  unfold sorted_desc. induction items as [|x items IH]; [reflexivity |].
  cbn [fold_right In]. rewrite insert_desc_In, IH. intuition congruence.
Qed.

Lemma sorted_desc_descending (items : list (list Z * string)) :
  descending (sorted_desc items).
Proof.
  unfold sorted_desc. induction items as [|x items IH]; [exact I |].
  cbn [fold_right]. now apply insert_desc_descending.
Qed.

Lemma find_descending (p : list Z * string -> bool) (l : list (list Z * string)) :
  descending l ->
  match List.find p l with
  | Some x => In x l /\ p x = true
              /\ forall y, In y l -> p y = true -> list_ltb x.1 y.1 = false
  | None => forall y, In y l -> p y = false
  end.
Proof.
  induction l as [|a l IH]; cbn [descending List.find]; [intros _ y [] |].
  intros [Ha Hl]. destruct (p a) eqn:Hpa.
  - split; [now left |]. split; [exact Hpa |].
    intros y [<- | Hy] _; [apply list_ltb_irrefl |].
    rewrite List.Forall_forall in Ha. now apply Ha.
  - specialize (IH Hl). destruct (List.find p l) as [x|].
    + destruct IH as (Hx & Hpx & Hmax). split; [now right |]. split; [exact Hpx |].
      intros y [<- | Hy] Hpy; [congruence | now apply Hmax].
    + intros y [<- | Hy]; [exact Hpa | now apply IH].
Qed.

Lemma find_map_snd (p : string -> bool) (l : list (list Z * string)) :
  List.find p (List.map snd l) = option_map snd (List.find (fun kv => p kv.2) l).
Proof.
  induction l as [|a l IH]; [reflexivity |]. cbn [List.map List.find].
  now destruct (p a.2).
Qed.

Lemma keyed_items (vers : list string) (items : list (list Z * string)) :
  keyed vers = Some items ->
  List.map snd items = vers
  /\ forall k v, In (k, v) items -> version_key v = Some k.
Proof.
  revert items. induction vers as [|v vers IH]; cbn [keyed]; intros items.
  - intros [= <-]. split; [reflexivity | intros k v []].
  - destruct (version_key v) as [k|] eqn:Hk; [| discriminate].
    destruct (keyed vers) as [ks|]; [| discriminate].
    intros [= <-]. destruct (IH ks eq_refl) as [Hmap Hkeys].
    split; [cbn; now rewrite Hmap |].
    intros k' v' [[= <- <-] | Hin]; [exact Hk | now apply Hkeys].
Qed.

Lemma first_published_run (E : env) (vers : list string) (w : world) :
  forallb (sized E) vers = true ->
  first_published E vers w
  = (Val (List.find (published E) vers), after w (probes (upto (published E) vers))).
Proof.
  revert w. induction vers as [|v vers IH]; intros w Hsized.
  - cbn. unfold after, replay. cbn. rewrite app_nil_r. now destruct w.
  - cbn [forallb] in Hsized. apply andb_true_iff in Hsized as [Hv Hrest].
    cbn [first_published List.find upto]. unfold mbind, M_bind.
    change (BTC_ROOT_URL +:+ BTC_WEB_PREFIX +:+ v +:+ "/" +:+ checksumFilePat BTC)
      with (btc_checksum_url v).
    rewrite getRemoteFileSize_run. unfold sized in Hv. unfold published at 1 3.
    destruct (head E (btc_checksum_url v)) as [[n|]|]; [| discriminate |].
    + destruct (0 <? n)%Z; [reflexivity |].
      rewrite (IH _ Hrest), after_after. reflexivity.
    + change (0 <? -1)%Z with false. cbv iota.
      rewrite (IH _ Hrest), after_after. reflexivity.
Qed.

(** X24: when the index page is served and every release it lists gets
    a reply, [getLatestBtc] answers with a published release that no
    other published release of the page exceeds in the order of the
    numbers between the dots, or with None when none is published.
    It asks for the checksum files from the greatest release downwards
    and stops at the first it finds. *)
Theorem getLatestBtc_greatest_published
    (E : env) (page : string) (items : list (list Z * string)) (w : world) :
  get E BTC_ROOT_URL = Some page ->
  keyed (findall btc_index_pattern page) = Some items ->
  forallb (sized E) (findall btc_index_pattern page) = true ->
  exists r,
    getLatestBtc E w
    = (Val r, after w (EvGet BTC_ROOT_URL None
                         :: probes (upto (published E)
                                         (List.map snd (sorted_desc items)))))
    /\ match r with
       | Some v =>
           In v (findall btc_index_pattern page) /\ published E v = true
           /\ forall v' k k',
                In v' (findall btc_index_pattern page) -> published E v' = true ->
                version_key v = Some k -> version_key v' = Some k' ->
                list_ltb k k' = false
       | None => forall v, In v (findall btc_index_pattern page) -> published E v = false
       end.
Proof.
  intros Hget Hkeyed Hsized.
  destruct (keyed_items _ _ Hkeyed) as [Hmap Hkeys].
  assert (Hsorted : forallb (sized E) (List.map snd (sorted_desc items)) = true).
  { rewrite List.forallb_forall in *. intros v Hv.
    apply List.in_map_iff in Hv as ([k v'] & <- & Hin).
    apply (proj1 (sorted_desc_In _ _)) in Hin. apply Hsized. rewrite <- Hmap.
    apply List.in_map_iff. exists (k, v'). split; [reflexivity | exact Hin]. }
  exists (List.find (published E) (List.map snd (sorted_desc items))). split.
  - unfold getLatestBtc, try_except, urlopen, commit.
    unfold mbind, M_bind, mret, M_ret. rewrite Hget. cbv beta iota. rewrite Hkeyed.
    rewrite (first_published_run E _ _ Hsorted).
    unfold after, replay. cbn [fs keyring trace fold_left apply_event].
    now rewrite <- app_assoc.
  - rewrite find_map_snd.
    pose proof (find_descending (fun kv => published E kv.2) _
                  (sorted_desc_descending items)) as Hfind.
    destruct (List.find _ (sorted_desc items)) as [[k v]|]; cbn [option_map snd] in *.
    + destruct Hfind as (Hin & Hpub & Hmax). apply (proj1 (sorted_desc_In _ _)) in Hin.
      split; [rewrite <- Hmap; apply List.in_map_iff; now exists (k, v) |].
      split; [exact Hpub |].
      intros v' k0 k' Hv' Hpub' Hk0 Hk'.
      rewrite (Hkeys _ _ Hin) in Hk0. injection Hk0 as <-.
      rewrite <- Hmap in Hv'. apply List.in_map_iff in Hv' as ([k1 v1] & Heq & Hin').
      cbn in Heq. subst v1. rewrite (Hkeys _ _ Hin') in Hk'. injection Hk' as <-.
      apply (Hmax (k1, v')); [now apply (proj2 (sorted_desc_In _ _)) | exact Hpub'].
    + intros v Hv. rewrite <- Hmap in Hv.
      apply List.in_map_iff in Hv as ([k1 v1] & Heq & Hin'). cbn in Heq. subst v1.
      apply (Hfind (k1, v)). now apply (proj2 (sorted_desc_In _ _)).
Qed.

Lemma getLatestBtc_greatest_published_witness :
  exists r,
    getLatestBtc btc_env empty_world
    = (Val r, after empty_world
                (EvGet BTC_ROOT_URL None
                   :: probes (upto (published btc_env)
                                   (List.map snd (sorted_desc btc_index_items)))))
    /\ match r with
       | Some v =>
           In v (findall btc_index_pattern btc_index) /\ published btc_env v = true
           /\ forall v' k k',
                In v' (findall btc_index_pattern btc_index) ->
                published btc_env v' = true ->
                version_key v = Some k -> version_key v' = Some k' ->
                list_ltb k k' = false
       | None =>
           forall v, In v (findall btc_index_pattern btc_index) ->
                     published btc_env v = false
       end.
Proof.
  apply (getLatestBtc_greatest_published btc_env btc_index btc_index_items empty_world);
    vm_compute; reflexivity.
Defined.

Lemma version_key_of_empty_piece (pieces : list string) :
  In EmptyString pieces -> version_key_of pieces = None.
Proof.
  induction pieces as [|x pieces IH]; [intros [] |].
  intros [-> | Hin]; cbn [version_key_of].
  - reflexivity.
  - rewrite (IH Hin). now destruct (parse_int x).
Qed.

Lemma keyed_unkeyed (vers : list string) (v : string) :
  In v vers -> version_key v = None -> keyed vers = None.
Proof.
  intros Hin Hv. induction vers as [|x vers IH]; [destruct Hin |].
  cbn [keyed]. destruct Hin as [-> | Hin].
  - now rewrite Hv.
  - rewrite (IH Hin). now destruct (version_key x).
Qed.

(** X25: a link on the index page whose version has nothing between
    two dots, or before the first or after the last, makes
    [getLatestBtc] raise ValueError, whatever else the page lists; no
    release is asked for. *)
Theorem getLatestBtc_empty_number (E : env) (page v : string) (w : world) :
  get E BTC_ROOT_URL = Some page ->
  In v (findall btc_index_pattern page) ->
  In EmptyString (split_on "." v) ->
  getLatestBtc E w = (Exc ValueError, after w [EvGet BTC_ROOT_URL None]).
Proof.
  intros Hget Hin Hempty.
  unfold getLatestBtc, try_except, urlopen, commit.
  unfold mbind, M_bind, mret, M_ret. rewrite Hget. cbv beta iota.
  rewrite (keyed_unkeyed _ v Hin (version_key_of_empty_piece _ Hempty)).
  reflexivity.
Qed.

Lemma getLatestBtc_empty_number_witness :
  getLatestBtc (btc_server "x86_64" btc_index_odd) empty_world
  = (Exc ValueError, after empty_world [EvGet BTC_ROOT_URL None]).
Proof.
  apply (getLatestBtc_empty_number (btc_server "x86_64" btc_index_odd) btc_index_odd "0.21.").
  - reflexivity.
  - vm_compute. right. left. reflexivity.
  - vm_compute. right. right. left. reflexivity.
Defined.

(** ** The updates as a whole *)

Lemma eqb_opt_eq (a b : option string) : eqb_opt a b = true -> a = b.
Proof.
  destruct a as [x|], b as [y|]; cbn; try easy.
  intros H. apply String.eqb_eq in H. now subst.
Qed.

Lemma eqb_opt_refl (a : option string) : eqb_opt a a = true.
Proof. destruct a as [x|]; cbn; [apply String.eqb_refl | reflexivity]. Qed.


(** X27: when the installed bitcoind reports the version that
    [getLatestBtc] finds, also when both are None, [updateBtc] goes on
    to the restart with every file and key as it was. *)
Theorem updateBtc_up_to_date
    (E : env) (runTests : bool) (w w1 w2 : world) (ver : option string) :
  getInstalledBtcDaemonVersion E
    (BTC_INSTALL_PATH E +:+ getGccArch E +:+ "/" +:+ LINK_NAME +:+ "/") w
  = (Val ver, w1) ->
  getLatestBtc E w1 = (Val ver, w2) ->
  updateBtc E runTests w = (Val (ver, ver), w2)
  /\ fs w2 = fs w /\ keyring w2 = keyring w.
Proof.
  intros Hinst Hlatest. split.
  - unfold updateBtc. cbv zeta. unfold mbind, M_bind.
    rewrite Hinst, Hlatest, eqb_opt_refl. reflexivity.
  - pose proof (looks_only_getInstalledVersion E
                  ((BTC_INSTALL_PATH E +:+ getGccArch E +:+ "/" +:+ LINK_NAME +:+ "/")
                   +:+ "bin/" +:+ BTC_DAEMON_BIN) btc_daemon_banner w) as H1.
    pose proof (looks_only_getLatestBtc E w1) as H2.
    unfold getInstalledBtcDaemonVersion in Hinst. rewrite Hinst in H1.
    rewrite Hlatest in H2. cbn [snd] in *.
    destruct H1, H2. split; congruence.
Qed.

Lemma updateBtc_up_to_date_witness :
  updateBtc btc_env false btc_world
  = (Val (Some "0.21.0", Some "0.21.0"), after btc_world btc_lookup_trace)
  /\ fs (after btc_world btc_lookup_trace) = fs btc_world
  /\ keyring (after btc_world btc_lookup_trace) = keyring btc_world.
Proof.
  apply (updateBtc_up_to_date btc_env false btc_world
           (after btc_world [EvRun [btc_root +:+ "current/bin/bitcoind"; "--version"]])).
  - vm_compute. reflexivity.
  - vm_compute. reflexivity.
Defined.

(** X28: when the installed lnd reports the version that stands for the
    latest tag, [updateLnd] goes on to the restart with every file and
    key as it was. *)
Theorem updateLnd_up_to_date (E : env) (w w1 w2 w3 : world) (tag ver : string) :
  getLatestLndTag E w = (Val tag, w1) ->
  getInstalledLndDaemonVersion E (LND_INSTALL_PATH E +:+ LINK_NAME +:+ "/") w1
  = (Val (Some ver), w2) ->
  lndTagToVersion tag w2 = (Val ver, w3) ->
  updateLnd E w = (Val (ver, Some ver), w3)
  /\ fs w3 = fs w /\ keyring w3 = keyring w.
Proof.
  intros Htag Hinst Hver. split.
  - unfold updateLnd. cbv zeta. unfold mbind, M_bind.
    rewrite Htag, Hinst, Hver. cbn [eqb_opt]. rewrite String.eqb_refl. reflexivity.
  - pose proof (looks_only_getLatestLndTag E w) as H1.
    pose proof (looks_only_getInstalledVersion E
                  ((LND_INSTALL_PATH E +:+ LINK_NAME +:+ "/") +:+ LND_DAEMON_BIN)
                  lnd_daemon_banner w1) as H2.
    pose proof (looks_only_lndTagToVersion tag w2) as H3.
    unfold getInstalledLndDaemonVersion in Hinst.
    rewrite Htag in H1. rewrite Hinst in H2. rewrite Hver in H3. cbn [snd] in *.
    destruct H1, H2, H3. split; congruence.
Qed.

Lemma updateLnd_up_to_date_witness :
  updateLnd lnd_env_current lnd_world_current
  = (Val ("0.5.0-beta", Some "0.5.0-beta"), after lnd_world_current lnd_lookup_trace)
  /\ fs (after lnd_world_current lnd_lookup_trace) = fs lnd_world_current
  /\ keyring (after lnd_world_current lnd_lookup_trace) = keyring lnd_world_current.
Proof.
  apply (updateLnd_up_to_date lnd_env_current lnd_world_current
           (after lnd_world_current [EvGet LND_API_URL None])
           (after lnd_world_current lnd_lookup_trace)
           (after lnd_world_current lnd_lookup_trace) "v0.5-beta").
  - vm_compute. reflexivity.
  - vm_compute. reflexivity.
  - vm_compute. reflexivity.
Defined.

(** ** Architectures *)

Lemma take3_arm (m : string) :
  String.eqb (take 3 m) "arm" = true -> exists rest, m = "arm" +:+ rest.
Proof.
  intros H. apply String.eqb_eq in H.
  destruct m as [|a [|b [|c rest]]]; try discriminate.
  cbn in H. injection H as -> -> ->. now exists rest.
Qed.

(** X29: on every machine whose name begins with arm, the two
    architecture functions agree on an ARM build: [getGccArch] gives
    arm-linux-gnueabihf and [getGoArch] gives arm. *)
Theorem arm_architectures (E : env) (w : world) :
  String.eqb (take 3 (machine E)) "arm" = true ->
  getGccArch E = "arm-linux-gnueabihf" /\ getGoArch E w = (Val "arm", w).
Proof.
  intros Harm. destruct (take3_arm _ Harm) as [rest Hm].
  unfold getGccArch, getGoArch. rewrite Harm, Hm. split; reflexivity.
Qed.

Lemma arm_architectures_witness :
  getGccArch (btc_server "armv7l" "") = "arm-linux-gnueabihf"
  /\ getGoArch (btc_server "armv7l" "") empty_world = (Val "arm", empty_world).
Proof. apply arm_architectures. reflexivity. Defined.

(** ** The links in [~/bin] *)

Lemma for_each_cons {A : Type} (a : A) (l : list A) (body : A -> M unit)
    (w w' : world) :
  for_each (a :: l) body w = (Val tt, w') ->
  exists w1, body a w = (Val tt, w1) /\ for_each l body w1 = (Val tt, w').
Proof.
  cbn [for_each]. unfold mbind, M_bind.
  destruct (body a w) as [[[]|e] w1]; [| discriminate].
  intros H. now exists w1.
Qed.

Lemma for_each_makeLink (src dst : string -> string) (progs : list string)
    (w w' : world) :
  for_each progs (fun p => makeLink (src p) (dst p)) w = (Val tt, w') ->
  List.NoDup (List.map (fun p => normpath (dst p)) progs) ->
  (forall p, In p progs ->
             fs w' !! normpath (dst p) = Some (Symlink (normpath (src p))))
  /\ (forall k, (forall p, In p progs -> k <> normpath (dst p)) ->
                fs w' !! k = fs w !! k).
Proof.
  revert w. induction progs as [|a progs IH]; intros w Hrun Hdup.
  - cbn in Hrun. apply pair_inv in Hrun as [_ <-]. split; [intros p [] | reflexivity].
  - apply for_each_cons in Hrun as (w1 & Hfirst & Hrest).
    cbn [List.map] in Hdup. apply List.NoDup_cons_iff in Hdup as [Hfresh Hdup].
    destruct (IH w1 Hrest Hdup) as [Hlinks Hframe]. split.
    + intros p [<- | Hp]; [| now apply Hlinks].
      rewrite Hframe; [exact (makeLink_links _ _ _ _ Hfirst) |].
      intros q Hq Heq. apply Hfresh. rewrite Heq.
      apply List.in_map_iff. now exists q.
    + intros k Hk. rewrite Hframe; [| intros p Hp; apply Hk; now right].
      apply (makeLink_elsewhere (src a) (dst a) k w w1 (Val tt) Hfirst).
      apply Hk. now left.
Qed.

Lemma listdir_world (path : string) (w w' : world) (r : outcome (list string)) :
  listdir path w = (r, w') -> w' = w.
Proof.
  unfold listdir, mbind, M_bind, get_fs, mret, M_ret, raise.
  destruct (realpath (fs w) path) as [p|]; [| intros H; now apply pair_inv in H as [_ <-]].
  destruct (fs w !! p) as [[| |]|]; intros H; now apply pair_inv in H as [_ <-].
Qed.

(** X30: when [createLndLinks] returns, [~/bin] holds for every entry
    of the current release's directory a link of that name pointing at
    the entry under the release link, and nothing but [~/bin] itself
    and those links has been touched since [~/bin] was there. *)
Theorem createLndLinks_links (E : env) (w w' : world) :
  createLndLinks E w = (Val tt, w') ->
  exists w0 progs,
    makedirs (BIN_PATH E) true w = (Val tt, w0)
    /\ listdir (LND_INSTALL_PATH E +:+ LINK_NAME) w0 = (Val progs, w0)
    /\ (List.NoDup (List.map (fun p => normpath (BIN_PATH E +:+ p)) progs) ->
        (forall p, In p progs ->
           fs w' !! normpath (BIN_PATH E +:+ p)
           = Some (Symlink (normpath ((LND_INSTALL_PATH E +:+ LINK_NAME) +:+ "/" +:+ p))))
        /\ (forall k, (forall p, In p progs -> k <> normpath (BIN_PATH E +:+ p)) ->
                      fs w' !! k = fs w0 !! k)).
Proof.
  unfold createLndLinks. cbv zeta. unfold mbind, M_bind. intros Hrun.
  destruct (makedirs (BIN_PATH E) true w) as [[[]|e] w0] eqn:Hdirs; [| discriminate].
  destruct (listdir (LND_INSTALL_PATH E +:+ LINK_NAME) w0) as [[progs|e] w1] eqn:Hlist;
    [| discriminate].
  pose proof (listdir_world _ _ _ _ Hlist) as ->.
  exists w0, progs. split; [reflexivity |]. split; [exact Hlist |].
  intros Hdup.
  destruct (for_each progs _ w0) as [[[]|e] w2] eqn:Hloop; [| discriminate].
  cbn [log] in Hrun. apply pair_inv in Hrun as [_ <-].
  exact (for_each_makeLink
           (fun p => (LND_INSTALL_PATH E +:+ LINK_NAME) +:+ "/" +:+ p)
           (fun p => BIN_PATH E +:+ p) progs w0 w2 Hloop Hdup).
Qed.

Lemma createLndLinks_links_witness :
  exists w0 progs,
    makedirs (BIN_PATH lnd_env_current) true lnd_world_current = (Val tt, w0)
    /\ listdir (LND_INSTALL_PATH lnd_env_current +:+ LINK_NAME) w0 = (Val progs, w0)
    /\ (List.NoDup (List.map (fun p => normpath (BIN_PATH lnd_env_current +:+ p)) progs) ->
        (forall p, In p progs ->
           fs (after lnd_world_current lnd_links_trace)
             !! normpath (BIN_PATH lnd_env_current +:+ p)
           = Some (Symlink (normpath ((LND_INSTALL_PATH lnd_env_current +:+ LINK_NAME)
                                      +:+ "/" +:+ p))))
        /\ (forall k,
              (forall p, In p progs -> k <> normpath (BIN_PATH lnd_env_current +:+ p)) ->
              fs (after lnd_world_current lnd_links_trace) !! k = fs w0 !! k)).
Proof.
  apply (createLndLinks_links lnd_env_current lnd_world_current
           (after lnd_world_current lnd_links_trace)).
  vm_compute. reflexivity.
Defined.

(** ** Every call leaves a later state of the same run *)

Lemma imported_app (e1 e2 : list event) (keys : list string) :
  imported (e1 ++ e2) keys = imported e2 (imported e1 keys).
Proof.
  revert keys. induction e1 as [|ev e1 IH]; intros keys; [reflexivity |].
  destruct ev; cbn [app imported]; apply IH.
Qed.

Lemma reaches_refl (w : world) : reaches w w.
Proof. exists []. now rewrite app_nil_r. Qed.

Lemma reaches_trans (a b c : world) : reaches a b -> reaches b c -> reaches a c.
Proof.
  intros (e1 & Ht1 & Hf1 & Hk1) (e2 & Ht2 & Hf2 & Hk2). exists (e1 ++ e2).
  rewrite Ht2, Ht1, Hf2, Hf1, Hk2, Hk1, imported_app, <- app_assoc.
  unfold replay. now rewrite fold_left_app.
Qed.

Lemma reaches_after (w : world) (evs : list event) :
  imported evs (keyring w) = keyring w -> reaches w (after w evs).
Proof. intros Hkeys. exists evs. now rewrite Hkeys. Qed.

Lemma advances_ret {A : Type} (a : A) : advances (mret a).
Proof. intros w. apply reaches_refl. Qed.

Lemma advances_raise {A : Type} (e : exn) : advances (@raise A e).
Proof. intros w. apply reaches_refl. Qed.

Lemma advances_sys_exit {A : Type} (msg : string) : advances (@sys_exit A msg).
Proof. intros w. apply reaches_refl. Qed.

Lemma advances_get_fs : advances get_fs.
Proof. intros w. apply reaches_refl. Qed.

Lemma advances_get_keyring : advances get_keyring.
Proof. intros w. apply reaches_refl. Qed.

Lemma advances_commit (ev : event) :
  match ev with EvImportKey _ => False | _ => True end -> advances (commit ev).
Proof. intros Hev w. exists [ev]. destruct ev; try contradiction; now cbn. Qed.

Lemma advances_import_key (key : string) : advances (import_key key).
Proof. intros w. exists [EvImportKey key]. now cbn. Qed.

Lemma advances_bind {A B : Type} (m : M A) (k : A -> M B) :
  advances m -> (forall a, advances (k a)) -> advances (m ≫= k).
Proof.
  intros Hm Hk w. unfold mbind, M_bind. specialize (Hm w).
  destruct (m w) as [[a|e] w1]; cbn [snd] in *; [| exact Hm].
  exact (reaches_trans _ _ _ Hm (Hk a w1)).
Qed.

Lemma advances_try {A : Type} (body handler : M A) (caught : exn -> bool) :
  advances body -> advances handler -> advances (try_except body caught handler).
Proof.
  intros Hb Hh w. unfold try_except. specialize (Hb w).
  destruct (body w) as [[a|e] w1]; cbn [snd] in *; [exact Hb |].
  destruct (caught e); cbn [snd]; [| exact Hb].
  exact (reaches_trans _ _ _ Hb (Hh w1)).
Qed.

Lemma advances_for_each {A : Type} (l : list A) (body : A -> M unit) :
  (forall a, advances (body a)) -> advances (for_each l body).
Proof.
  intros Hbody. induction l as [|a l IH]; cbn [for_each]; [apply advances_ret |].
  apply advances_bind; [apply Hbody | intros _; exact IH].
Qed.

Lemma advances_log (desc : string) (value : log_value) : advances (log desc value).
Proof.
  destruct value as [s|[|]]; cbn [log];
    first [apply advances_ret | apply advances_sys_exit].
Qed.

Create HintDb advances.

#[export] Hint Resolve advances_ret advances_raise advances_sys_exit advances_get_fs
  advances_get_keyring advances_import_key advances_log : advances.

(** One step through a computation built from the calls above. *)
Ltac advance_step :=
  first
    [ solve [auto 2 with advances]
    | apply advances_commit; exact I
    | apply advances_try
    | apply advances_for_each; intros ?
    | apply advances_bind; [| intros ? ]
    | match goal with
      | |- advances (match ?x with _ => _ end) => destruct x
      | |- advances (if ?c then _ else _) => destruct c
      | |- advances (let _ := _ in _) => cbv zeta
      end ].

Ltac advance := repeat advance_step.

Lemma advances_readlink (path : string) : advances (readlink path).
Proof. unfold readlink. advance. Qed.

Lemma advances_remove (path : string) : advances (remove path).
Proof. unfold remove. advance. Qed.

Lemma advances_symlink (target path : string) : advances (symlink target path).
Proof. unfold symlink. advance. Qed.

Lemma advances_rmtree (path : string) : advances (rmtree path).
Proof. unfold rmtree. advance. Qed.

Lemma advances_make_path (comps : list string) (acc : string) (exist_ok : bool) :
  advances (make_path acc comps exist_ok).
Proof.
  revert acc. induction comps as [|c rest IH]; intros acc; cbn [make_path]; advance;
    apply IH.
Qed.

Lemma advances_makedirs (path : string) (exist_ok : bool) :
  advances (makedirs path exist_ok).
Proof. apply advances_make_path. Qed.

Lemma advances_read_file (path : string) : advances (read_file path).
Proof. unfold read_file. advance. Qed.

Lemma advances_write_file (path : string) (mode : open_mode) (data : string) :
  advances (write_file path mode data).
Proof. unfold write_file. advance. Qed.

Lemma advances_st_size (path : string) : advances (st_size path).
Proof. unfold st_size. advance. Qed.

Lemma advances_listdir (path : string) : advances (listdir path).
Proof. unfold listdir. advance. Qed.

#[export] Hint Resolve advances_readlink advances_remove advances_symlink
  advances_rmtree advances_makedirs advances_read_file advances_write_file
  advances_st_size advances_listdir : advances.

Lemma advances_makeLink (src dest : string) : advances (makeLink src dest).
Proof. unfold makeLink. advance. Qed.

Lemma advances_getExpectedChecksum (path fileName : string) :
  advances (getExpectedChecksum path fileName).
Proof. unfold getExpectedChecksum. advance. Qed.

Lemma advances_checkSha256 (path : string) (sum : option string) :
  advances (checkSha256 path sum).
Proof. unfold checkSha256. advance. Qed.

Lemma advances_lndTagToVersion (tag : string) : advances (lndTagToVersion tag).
Proof. unfold lndTagToVersion. advance. Qed.

#[export] Hint Resolve advances_makeLink advances_getExpectedChecksum
  advances_checkSha256 advances_lndTagToVersion : advances.

Section Advances.

Variable E : env.

Lemma advances_http_head (url : string) : advances (http_head E url).
Proof. unfold http_head. advance. Qed.

Lemma advances_urlopen (url : string) (range_from : option Z) :
  advances (urlopen E url range_from).
Proof. unfold urlopen. advance. Qed.

#[local] Hint Resolve advances_http_head advances_urlopen : advances.

Lemma advances_getRemoteFileSize (url : string) : advances (getRemoteFileSize E url).
Proof. unfold getRemoteFileSize. advance. Qed.

#[local] Hint Resolve advances_getRemoteFileSize : advances.

Lemma advances_download (url path : string) (resume : bool) (r : option Z) :
  advances (download E url path resume r).
Proof. unfold download. advance. Qed.

#[local] Hint Resolve advances_download : advances.

Lemma advances_saveRemoteFile (url path : string) (resume : bool) :
  advances (saveRemoteFile E url path resume).
Proof. unfold saveRemoteFile. advance. Qed.

#[local] Hint Resolve advances_saveRemoteFile : advances.

Lemma advances_verifyChecksum (checksum : option string) (path url : string) :
  advances (verifyChecksum E checksum path url).
Proof. unfold verifyChecksum. advance. Qed.

Lemma advances_sh (cmd : string) : advances (sh E cmd).
Proof. unfold sh. advance. Qed.

#[local] Hint Resolve advances_verifyChecksum advances_sh : advances.

Lemma advances_getInstalledVersion (path : string) (rexp : regex) :
  advances (getInstalledVersion E path rexp).
Proof. unfold getInstalledVersion. advance. Qed.

Lemma advances_tarfile_open (tarPath : string) : advances (tarfile_open E tarPath).
Proof. unfold tarfile_open. advance. Qed.

Lemma advances_extract (m : member) (path : string) : advances (extract m path).
Proof. unfold extract. advance. Qed.

#[local] Hint Resolve advances_getInstalledVersion advances_tarfile_open advances_extract
  : advances.

Lemma advances_installTar (tarPath instDir : string) :
  advances (installTar E tarPath instDir).
Proof. unfold installTar. advance. Qed.

Lemma advances_haveKey (key : string) : advances (haveKey key).
Proof. unfold haveKey. advance. Qed.

#[local] Hint Resolve advances_installTar advances_haveKey : advances.

Lemma advances_retrievePublicKey (keyId : string) (keyUrl : option string) :
  advances (retrievePublicKey E keyId keyUrl).
Proof. unfold retrievePublicKey. advance. Qed.

Lemma advances_verifyGPG (sigPath dataPath : string) :
  advances (verifyGPG E sigPath dataPath).
Proof. unfold verifyGPG. advance. Qed.

#[local] Hint Resolve advances_retrievePublicKey advances_verifyGPG : advances.

Lemma advances_getValidatedArchive (version arch : string) (data : Daemon) :
  advances (getValidatedArchive E version arch data).
Proof.
  unfold getValidatedArchive.
  destruct (splitext (format (checksumFilePat data) [version])) as [f e].
  advance.
Qed.

Lemma advances_first_published (vers : list string) :
  advances (first_published E vers).
Proof.
  induction vers as [|v vers IH]; cbn [first_published]; advance.
Qed.

#[local] Hint Resolve advances_getValidatedArchive advances_first_published : advances.

Lemma advances_getLatestBtc : advances (getLatestBtc E).
Proof. unfold getLatestBtc. advance. Qed.

Lemma advances_createBtcLinks (arch : string) : advances (createBtcLinks E arch).
Proof. unfold createBtcLinks. advance. Qed.

End Advances.

#[export] Hint Resolve advances_http_head advances_urlopen advances_getRemoteFileSize
  advances_download advances_saveRemoteFile advances_verifyChecksum advances_sh
  advances_getInstalledVersion advances_tarfile_open advances_extract
  advances_installTar advances_haveKey advances_retrievePublicKey advances_verifyGPG
  advances_getValidatedArchive advances_first_published advances_getLatestBtc
  advances_createBtcLinks : advances.

(** X12: [getValidatedArchive] hands out a path only for an archive that
    is vouched for.  There is a state [wv] of this very run, between
    the state the call started in and the state it returned in, in
    which the signature file and the manifest lay in the cache and
    passed [gpg --verify] with the keyring of that moment; that
    manifest gave the digest for the archive's file name; and the
    archive, as it lies in the cache when the call returns, has that
    SHA-256 digest. *)
Theorem getValidatedArchive_sound (E : env) (version arch : string) (data : Daemon)
    (path : string) (w w' : world) :
  getValidatedArchive E version arch data w = (Val (Some path), w') ->
  path = archive_file E version arch data
  /\ exists (wv : world) (signature manifest h content : string),
       reaches w wv
       /\ reaches wv w'
       /\ file_data (fs wv) (manifest_files E version data).2 = Some signature
       /\ file_data (fs wv) (manifest_files E version data).1 = Some manifest
       /\ gpg_verify E (keyring wv) signature
            (if String.eqb (manifest_files E version data).2
                           (manifest_files E version data).1
             then None else Some manifest) = true
       /\ expected_in (splitlines (universal_newlines manifest))
                      (format (tarPattern data) [version; arch]) = Some h
       /\ stat (fs w') path = Some (File content)
       /\ lower (SHA256.hexdigest content) = lower h.
Proof.
  unfold getValidatedArchive, manifest_files, archive_file.
  destruct (splitext (format (checksumFilePat data) [version])) as [f e].
  cbv zeta. cbn [fst snd].
  set (sigData := TARS_PATH E
                  +:+ (if endswith ("-" +:+ version) f
                       then format (checksumFilePat data) [version]
                       else f +:+ "-" +:+ version +:+ e)).
  set (sig := sigData +:+ (if negb (String.eqb e ".asc") then ".sig" else "")).
  set (fileName := format (tarPattern data) [version; arch]).
  set (validate := (checksum ← getExpectedChecksum sigData fileName; _)).
  assert (Hlater : advances validate) by (subst validate; advance).
  assert (Hvalidate : forall wv,
    reaches w wv ->
    (exists b, verifyGPG E sig sigData wv = (Val b, wv) /\ b = true) ->
    validate wv = (Val (Some path), w') ->
    path = TARS_PATH E +:+ fileName
    /\ exists (wv : world) (signature manifest h content : string),
         reaches w wv
         /\ reaches wv w'
         /\ file_data (fs wv) sig = Some signature
         /\ file_data (fs wv) sigData = Some manifest
         /\ gpg_verify E (keyring wv) signature
              (if String.eqb sig sigData then None else Some manifest) = true
         /\ expected_in (splitlines (universal_newlines manifest)) fileName = Some h
         /\ stat (fs w') path = Some (File content)
         /\ lower (SHA256.hexdigest content) = lower h).
  { intros wv Hreach (b & Hgpg & ->) Hrun.
    pose proof (Hlater wv) as Hthen. rewrite Hrun in Hthen. cbn [snd] in Hthen.
    apply validate_sound in Hrun
      as (-> & manifest & h & content & Hman & Hexp & Hstat & Hd).
    split; [reflexivity |].
    destruct (verifyGPG_run E sig sigData wv) as (b & Hgpg' & Htrue).
    rewrite Hgpg in Hgpg'. apply pair_inv in Hgpg' as [Hb _].
    apply Val_inj in Hb. destruct (Htrue (eq_sym Hb)) as (signature & Hsig & Hver).
    exists wv, signature, manifest, h, content.
    repeat split; try assumption.
    destruct (String.eqb sig sigData); [exact Hver |].
    destruct Hver as (manifest' & Hman' & Hver).
    rewrite Hman in Hman'. now injection Hman' as <-. }
  unfold mbind at 1, M_bind at 1.
  destruct (verifyGPG_run E sig sigData w) as (good & Hgood & _). rewrite Hgood.
  destruct good; [apply Hvalidate; [apply reaches_refl | eauto] |].
  unfold mbind at 1, M_bind at 1.
  pose proof (advances_retrievePublicKey E (keyId data) (keyUrl data) w) as H1.
  destruct (retrievePublicKey E (keyId data) (keyUrl data) w) as [[[]|e1] w1];
    [|discriminate].
  unfold mbind at 1, M_bind at 1.
  match goal with
  | |- context [saveRemoteFile E ?u sig false w1] =>
      pose proof (advances_saveRemoteFile E u sig false w1) as H2;
      destruct (saveRemoteFile E u sig false w1) as [[[]|e2] w2]; [|discriminate]
  end.
  unfold mbind at 1, M_bind at 1.
  match goal with
  | |- context [(if ?c then ?a else ?b) w2] =>
      assert (H3 : reaches w2 ((if c then a else b) w2).2)
        by (destruct c; [apply advances_saveRemoteFile | apply reaches_refl]);
      destruct ((if c then a else b) w2) as [[[]|e3] w3]; [|discriminate]
  end.
  cbn [snd] in H1, H2, H3.
  unfold mbind at 1, M_bind at 1.
  destruct (verifyGPG_run E sig sigData w3) as (good' & Hgood' & _). rewrite Hgood'.
  destruct good'; [| discriminate].
  apply Hvalidate; [| eauto].
  exact (reaches_trans _ _ _ H1 (reaches_trans _ _ _ H2 H3)).
Qed.

Lemma getValidatedArchive_sound_witness :
  "/home/u/tars/lnd-linux-amd64-v0.5-beta.tar.gz"
  = archive_file lnd_env "v0.5-beta" "amd64" LND
  /\ exists (wv : world) (signature manifest h content : string),
       reaches lnd_world wv
       /\ reaches wv (after lnd_world [EvRead lnd_manifest_path; EvRead lnd_archive_path])
       /\ file_data (fs wv) (manifest_files lnd_env "v0.5-beta" LND).2 = Some signature
       /\ file_data (fs wv) (manifest_files lnd_env "v0.5-beta" LND).1 = Some manifest
       /\ gpg_verify lnd_env (keyring wv) signature
            (if String.eqb (manifest_files lnd_env "v0.5-beta" LND).2
                           (manifest_files lnd_env "v0.5-beta" LND).1
             then None else Some manifest) = true
       /\ expected_in (splitlines (universal_newlines manifest))
                      (format (tarPattern LND) ["v0.5-beta"; "amd64"]) = Some h
       /\ stat (fs (after lnd_world [EvRead lnd_manifest_path; EvRead lnd_archive_path]))
               "/home/u/tars/lnd-linux-amd64-v0.5-beta.tar.gz" = Some (File content)
       /\ lower (SHA256.hexdigest content) = lower h.
Proof.
  apply (getValidatedArchive_sound lnd_env "v0.5-beta" "amd64" LND _ lnd_world).
  vm_compute. reflexivity.
Defined.

Lemma first_separator (c : ascii) (s : string) :
  without c s = false ->
  exists top, without c top = true /\ s = top +:+ String c (after_first c s).
Proof.
  unfold without. induction s as [|d s IH]; [discriminate |].
  cbn [forallb_str after_first]. destruct (Ascii.eqb_spec d c) as [-> | Hd].
  - intros _. now exists EmptyString.
  - cbn [negb andb]. intros Hs. destruct (IH Hs) as (top & Htop & Heq).
    exists (String d top). cbn [forallb_str]. rewrite Htop.
    apply Ascii.eqb_neq in Hd. rewrite Hd. split; [reflexivity |].
    rewrite append_cons. now f_equal.
Qed.

Lemma for_each_taken (instDir : string) (members : list member) (w : world) :
  for_each members
    (fun m =>
       if negb (String.eqb (dirname (m_name m)) "")
       then extract (Member (join "/" (List.tl (split_on slash (m_name m)))) (m_node m))
                    instDir
       else mret tt) w
  = for_each (taken members) (fun m => extract m instDir) w.
Proof.
  revert w. induction members as [|m members IH]; intros w; [reflexivity |].
  unfold taken. cbn [for_each List.filter].
  destruct (without slash (m_name m)) eqn:Hplain; cbn [negb].
  - rewrite (dirname_plain _ Hplain). cbn [String.eqb negb].
    unfold mbind, M_bind, mret, M_ret. apply IH.
  - destruct (first_separator slash _ Hplain) as (top & Htop & Hname).
    cbn [List.map for_each m_name m_node]. fold (taken members).
    assert (Hdir : negb (String.eqb (dirname (m_name m)) "") = true).
    { rewrite Hname. apply negb_true_iff, String.eqb_neq, dirname_nested. }
    assert (Hrest : join "/" (List.tl (split_on slash (m_name m)))
                    = after_first slash (m_name m)).
    { rewrite Hname at 1. rewrite (split_on_at slash top _ Htop). cbn [List.tl].
      apply (join_split_on slash). }
    rewrite Hdir, Hrest. unfold mbind, M_bind.
    destruct (extract _ instDir w) as [[[]|e] w1]; [apply IH | reflexivity].
Qed.

(** X22: which members [installTar] extracts, and under which names.
    For a target that is not there yet and an archive that [tarfile]
    reads, the outcome of [installTar] is the outcome of extracting,
    in the order of the archive, the members whose name holds a slash,
    each under the part of its name after the first slash; the members
    without a slash are passed over.  All extracted gives True, and an
    [OSError] or [ExtractError] on the way gives False. *)
Theorem installTar_takes
    (E : env) (tarPath instDir data : string) (members : list member) (w w1 : world) :
  isdir (fs w) instDir = false ->
  lexists (fs w) instDir = false ->
  makedirs instDir false w = (Val tt, w1) ->
  stat (fs w1) tarPath = Some (File data) ->
  tar_members E data = Some members ->
  installTar E tarPath instDir w
  = match for_each (taken members) (fun m => extract m instDir)
                   (after w1 [EvRead tarPath]) with
    | (Val _, w') => (Val true, w')
    | (Exc e, w') =>
        if is_OSError e || match e with ExtractError => true | _ => false end
        then (Val false, w') else (Exc e, w')
    end.
Proof.
  intros Hdir Hentry Hmake Hfile Htar.
  unfold installTar, try_except, tarfile_open, read_file.
  unfold mbind, M_bind, mret, M_ret, get_fs, commit.
  rewrite Hdir, Hentry. cbv beta iota. rewrite Hmake. cbv beta iota.
  rewrite Hfile. cbv beta iota. rewrite Htar. cbv beta iota.
  change (World (apply_event (EvRead tarPath) (fs w1)) (keyring w1)
                (trace w1 ++ [EvRead tarPath]))
    with (after w1 [EvRead tarPath]).
  pose proof (for_each_taken instDir members (after w1 [EvRead tarPath])) as Hloop.
  unfold mbind, M_bind, mret, M_ret in Hloop. rewrite Hloop.
  now destruct (for_each (taken members) _ _) as [[[]|e] w'].
Qed.

Lemma installTar_takes_witness :
  installTar lnd_env lnd_archive_path lnd_inst_dir lnd_world
  = match for_each (taken lnd_archive_members) (fun m => extract m lnd_inst_dir)
                   (after (after lnd_world [EvMkdir (lnd_root +:+ lnd_new_dir)])
                          [EvRead lnd_archive_path]) with
    | (Val _, w') => (Val true, w')
    | (Exc e, w') =>
        if is_OSError e || match e with ExtractError => true | _ => false end
        then (Val false, w') else (Exc e, w')
    end.
Proof.
  apply (installTar_takes lnd_env lnd_archive_path lnd_inst_dir lnd_archive
           lnd_archive_members lnd_world
           (after lnd_world [EvMkdir (lnd_root +:+ lnd_new_dir)]));
    vm_compute; reflexivity.
Defined.

Lemma advances_getInstalledBtcDaemonVersion (E : env) (path : string) :
  advances (getInstalledBtcDaemonVersion E path).
Proof. apply advances_getInstalledVersion. Qed.

Lemma advances_getInstalledBtcClientVersion (E : env) (path : string) :
  advances (getInstalledBtcClientVersion E path).
Proof. apply advances_getInstalledVersion. Qed.

#[export] Hint Resolve advances_getInstalledBtcDaemonVersion
  advances_getInstalledBtcClientVersion : advances.

(** One call further in a run that went on: [Hrun] is the rest of the
    run, [Hreach] the way from the first state to the present one. *)
Ltac follow Hrun Hreach :=
  unfold mbind at 1, M_bind at 1 in Hrun;
  match type of Hrun with
  | match ?m ?w0 with _ => _ end = _ =>
      let Hstep := fresh "Hstep" in
      assert (Hstep : advances m) by advance;
      specialize (Hstep w0);
      destruct (m w0) as [[?|?] ?] eqn:?; [| discriminate];
      cbn [snd] in Hstep;
      apply (reaches_trans _ _ _ Hreach) in Hstep;
      clear Hreach; rename Hstep into Hreach;
      cbv beta iota in Hrun
  end.

(** X26: [updateBtc] comes back to its caller in two ways only.  Either
    the installed bitcoind reported the version [getLatestBtc] found
    and nothing else was done; or, in a later state of the same run,
    [bitcoind] and then [bitcoin-cli] under the directory of the new
    release were asked and both reported the latest version, and right
    after that and the [sync] the release link was pointed at that
    directory.  Binaries that report anything else never get the
    link. *)
Theorem updateBtc_returns_confirmed
    (E : env) (runTests : bool) (w w' : world) (latestVer installedVer : option string) :
  updateBtc E runTests w = (Val (latestVer, installedVer), w') ->
  installedVer = latestVer
  /\ ((exists w1,
         getInstalledBtcDaemonVersion E (btc_install_link E) w = (Val latestVer, w1)
         /\ getLatestBtc E w1 = (Val latestVer, w'))
      \/ (exists (latest : string) (wc wd we wl : world),
            latestVer = Some latest
            /\ reaches w wc
            /\ getInstalledBtcDaemonVersion E (btc_release_dir E latest) wc
               = (Val (Some latest), wd)
            /\ getInstalledBtcClientVersion E (btc_release_dir E latest) wd
               = (Val (Some latest), we)
            /\ makeLink ("bitcoin-" +:+ latest) (btc_install_link E) (after we [EvSync])
               = (Val tt, wl)
            /\ reaches wl w')).
Proof.
  unfold updateBtc, btc_install_link, btc_release_dir. cbv zeta. intros Hrun.
  pose proof (reaches_refl w) as Hreach.
  follow Hrun Hreach. follow Hrun Hreach.
  destruct (eqb_opt _ _) eqn:Hsame.
  - apply eqb_opt_eq in Hsame. subst.
    unfold mret, M_ret in Hrun. apply pair_inv in Hrun as [Hval <-].
    apply Val_inj in Hval. apply pair_inv in Hval as [<- <-].
    split; [reflexivity |]. left. eauto.
  - destruct a0 as [latest|]; [| discriminate].
    do 7 follow Hrun Hreach.
    unfold mbind at 1, M_bind at 1 in Hrun.
    match type of Hrun with
    | match getInstalledBtcDaemonVersion E ?d ?wc with _ => _ end = _ =>
        destruct (getInstalledBtcDaemonVersion E d wc) as [[daemonVer|?] wd] eqn:Hdaemon;
          [| discriminate]
    end.
    destruct (eqb_opt (Some latest) daemonVer) eqn:Hd; [| discriminate].
    apply eqb_opt_eq in Hd. subst daemonVer.
    unfold mbind at 1, M_bind at 1 in Hrun.
    match type of Hrun with
    | match getInstalledBtcClientVersion E ?d wd with _ => _ end = _ =>
        destruct (getInstalledBtcClientVersion E d wd) as [[clientVer|?] we] eqn:Hclient;
          [| discriminate]
    end.
    destruct (eqb_opt (Some latest) clientVer) eqn:Hc; [| discriminate].
    apply eqb_opt_eq in Hc. subst clientVer.
    unfold mbind at 1, M_bind at 1 in Hrun. unfold commit at 1 in Hrun.
    change (World (apply_event EvSync (fs we)) (keyring we) (trace we ++ [EvSync]))
      with (after we [EvSync]) in Hrun.
    unfold mbind at 1, M_bind at 1 in Hrun.
    destruct (makeLink _ _ (after we [EvSync])) as [[[]|?] wl] eqn:Hlink;
      [| discriminate].
    pose proof (reaches_refl wl) as Hrest.
    follow Hrun Hrest.
    unfold mret, M_ret in Hrun. apply pair_inv in Hrun as [Hval <-].
    apply Val_inj in Hval. apply pair_inv in Hval as [<- <-].
    split; [reflexivity |]. right.
    exists latest. eexists _, wd, we, wl. eauto 8.
Qed.

Lemma updateBtc_returns_confirmed_witness :
  updateBtc btc_release_env false btc_fresh_world
  = (Val (Some "0.21.0", Some "0.21.0"), after btc_fresh_world btc_install_trace)
  /\ Some "0.21.0" = Some "0.21.0"
  /\ ((exists w1,
         getInstalledBtcDaemonVersion btc_release_env (btc_install_link btc_release_env)
                                      btc_fresh_world
         = (Val (Some "0.21.0"), w1)
         /\ getLatestBtc btc_release_env w1
            = (Val (Some "0.21.0"), after btc_fresh_world btc_install_trace))
      \/ (exists (latest : string) (wc wd we wl : world),
            Some "0.21.0" = Some latest
            /\ reaches btc_fresh_world wc
            /\ getInstalledBtcDaemonVersion btc_release_env
                 (btc_release_dir btc_release_env latest) wc
               = (Val (Some latest), wd)
            /\ getInstalledBtcClientVersion btc_release_env
                 (btc_release_dir btc_release_env latest) wd
               = (Val (Some latest), we)
            /\ makeLink ("bitcoin-" +:+ latest) (btc_install_link btc_release_env)
                        (after we [EvSync])
               = (Val tt, wl)
            /\ reaches wl (after btc_fresh_world btc_install_trace))).
Proof.
  assert (Hrun : updateBtc btc_release_env false btc_fresh_world
                 = (Val (Some "0.21.0", Some "0.21.0"),
                    after btc_fresh_world btc_install_trace))
    by (vm_compute; reflexivity).
  split; [exact Hrun |].
  exact (updateBtc_returns_confirmed btc_release_env false btc_fresh_world
           (after btc_fresh_world btc_install_trace) (Some "0.21.0") (Some "0.21.0")
           Hrun).
Defined.
